(** * Measurement algebra of the weighted-least-squares state estimator

    A shallow embedding of [pandapower/estimation/algorithm/matrix_base.py]:
    the classes [BaseAlgebra], [BaseAlgebraDecoupled] and
    [BaseAlgebraZeroInjConstraints].

    - numpy 1-D arrays are lists, 2-D arrays and scipy sparse matrices are
      lists of rows together with their column count;
    - float64 and complex128 values and their arithmetic are the fields of
      the class [Scalars]: every theorem of the generic part holds for any
      interpretation of them;
    - a Python exception is the [Raise] result of the error monad, and the
      attributes of [self] are threaded through a state monad;
    - the pypower routines the module imports ([makeYbus], [dSbus_dV],
      [dSbr_dV], [dIbr_dV]) and the column constants [F_BUS], [T_BUS] are
      the fields of the class [Pypower];
    - where a statement is about derivatives, the scalars are the real
      numbers of the Standard Library (module [Exact]). *)

From Stdlib Require Import Reals Lra ZArith Lia.
From stdpp Require Import base option list relations.

(** ** Scalars *)

Class Scalars := {
  real : Type;                      (* numpy.float64 *)
  cplx : Type;                      (* numpy.complex128 *)
  F0 : real;                        (* 0.0 *)
  F1 : real;                        (* 1.0 *)
  F1em5 : real;                     (* the literal 1e-5 *)
  Fsub : real -> real -> real;
  Fmul : real -> real -> real;
  Fdiv : real -> real -> real;
  Ftrunc : real -> Z;               (* .astype(int) *)
  C0 : cplx;                        (* 0j *)
  Cadd : cplx -> cplx -> cplx;
  Cmul : cplx -> cplx -> cplx;
  Cscale : real -> cplx -> cplx;    (* float * complex *)
  Cconj : cplx -> cplx;             (* np.conj *)
  Cre : cplx -> real;               (* np.real, .real *)
  Cim : cplx -> real;               (* np.imag, .imag *)
  Cabs : cplx -> real;              (* np.abs *)
  Cexpi : real -> cplx;             (* np.exp(1j * x) *)
  Cof : real -> cplx;               (* the float -> complex upcast *)
}.

(** ** Exceptions *)

Inductive exn := IndexError | ValueError.

Inductive res (A : Type) :=
| Ok (a : A)
| Raise (e : exn).
Arguments Ok {A} a.
Arguments Raise {A} e.

Global Instance res_ret : MRet res := @Ok.
Global Instance res_bind : MBind res := fun A B k m =>
  match m with
  | Ok a => k a
  | Raise e => Raise e
  end.

Fixpoint res_mapM {A B} (f : A -> res B) (l : list A) : res (list B) :=
  match l with
  | [] => Ok []
  | x :: l' => y ← f x; ys ← res_mapM f l'; Ok (y :: ys)
  end.

(** ** numpy 1-D arrays *)

Module Np.

(** [a[i]] for an integer [i]: negative indices count from the end, anything
    outside [-n, n) raises IndexError. *)
Definition index (n : nat) (i : Z) : res nat :=
  if (0 <=? i)%Z && (i <? Z.of_nat n)%Z then Ok (Z.to_nat i)
  else if (- Z.of_nat n <=? i)%Z && (i <? 0)%Z then Ok (Z.to_nat (i + Z.of_nat n))
  else Raise IndexError.

(** [a[idx]] for an integer array [idx]. *)
Definition take {A} (a : list A) (idx : list Z) : res (list A) :=
  res_mapM (fun i =>
    k ← index (length a) i;
    match a !! k with Some x => Ok x | None => Raise IndexError end) idx.

(** Shape matching of the right-hand side of an assignment [a[idx] = vals]:
    [vals] has the length of [idx] or is broadcast from length one. *)
Definition broadcast_to {A} (n : nat) (vals : list A) : res (list A) :=
  if length vals =? n then Ok vals
  else match vals with
       | [x] => Ok (replicate n x)
       | _ => Raise ValueError
       end.

(** The element-wise stores of [a[idx] = vals], in index order: with a
    repeated index the last store stays. *)
Fixpoint store {A} (a : list A) (idx : list nat) (vals : list A) : list A :=
  match idx, vals with
  | i :: idx', x :: vals' => store (<[i:=x]> a) idx' vals'
  | _, _ => a
  end.

(** [a[idx] = vals] for an integer array [idx]: numpy matches the shape of
    [vals] against [idx] first and checks the bounds of the indices after. *)
Definition put {A} (a : list A) (idx : list Z) (vals : list A) : res (list A) :=
  xs ← broadcast_to (length idx) vals;
  ks ← res_mapM (index (length a)) idx;
  Ok (store a ks xs).

(** [a[mask]] for a boolean array [mask]: the lengths must agree. *)
Fixpoint compress_go {A} (mask : list bool) (a : list A) : list A :=
  match mask, a with
  | b :: mask', x :: a' => if b then x :: compress_go mask' a' else compress_go mask' a'
  | _, _ => []
  end.

Definition compress {A} (mask : list bool) (a : list A) : res (list A) :=
  if length mask =? length a then Ok (compress_go mask a) else Raise IndexError.

(** [np.flatnonzero(mask)]. *)
Fixpoint flatnonzero_from (k : nat) (mask : list bool) : list nat :=
  match mask with
  | [] => []
  | b :: mask' =>
      if b then k :: flatnonzero_from (S k) mask' else flatnonzero_from (S k) mask'
  end.

Definition flatnonzero (mask : list bool) : list Z :=
  map Z.of_nat (flatnonzero_from 0 mask).

(** An element-wise binary operation on two 1-D arrays, with numpy's
    broadcasting of a length-one operand. *)
Definition bcast2 {A B D} (f : A -> B -> D) (a : list A) (b : list B) : res (list D) :=
  if length a =? length b then Ok (zip_with f a b)
  else match a, b with
       | [x], _ => Ok (map (f x) b)
       | _, [y] => Ok (map (fun x => f x y) a)
       | _, _ => Raise ValueError
       end.

End Np.

(** ** 2-D arrays and sparse matrices *)

Record matrix (A : Type) := Matrix { ncols : nat; rows : list (list A) }.
Arguments Matrix {A} ncols rows.
Arguments ncols {A} m.
Arguments rows {A} m.

Module Mat.

Definition nrows {A} (m : matrix A) : nat := length (rows m).

(** [m.shape] *)
Definition shape {A} (m : matrix A) : nat * nat := (nrows m, ncols m).

(** Every row has [ncols] entries. *)
Definition wf {A} (m : matrix A) : Prop :=
  Forall (fun r => length r = ncols m) (rows m).

(** [m.real], [m.imag], [np.abs(m)], ...: an element-wise function. *)
Definition map {A B} (f : A -> B) (m : matrix A) : matrix B :=
  Matrix (ncols m) (List.map (List.map f) (rows m)).

(** [np.zeros((n, k))], [np.zeros_like] *)
Definition zeros {A} (zero : A) (n k : nat) : matrix A :=
  Matrix k (replicate n (replicate k zero)).

(** [np.eye(n, k)] *)
Definition eye {A} (zero one : A) (n k : nat) : matrix A :=
  Matrix k (List.map (fun i => List.map (fun j => if i =? j then one else zero) (seq 0 k))
                     (seq 0 n)).

(** Two blocks on top of each other: the column counts must agree. *)
Definition vconcat {A} (a b : matrix A) : res (matrix A) :=
  if ncols a =? ncols b then Ok (Matrix (ncols a) (rows a ++ rows b))
  else Raise ValueError.

(** [scipy.sparse.vstack(blocks)], and [np.r_[...]] of 2-D arrays. *)
Fixpoint vstack {A} (blocks : list (matrix A)) : res (matrix A) :=
  match blocks with
  | [] => Raise ValueError
  | [m] => Ok m
  | m :: blocks' => rest ← vstack blocks'; vconcat m rest
  end.

(** Two blocks side by side: the row counts must agree. *)
Definition hconcat {A} (a b : matrix A) : res (matrix A) :=
  if nrows a =? nrows b
  then Ok (Matrix (ncols a + ncols b) (zip_with app (rows a) (rows b)))
  else Raise ValueError.

(** [scipy.sparse.hstack(blocks)], and [np.c_[...]] of 2-D arrays. *)
Fixpoint hstack {A} (blocks : list (matrix A)) : res (matrix A) :=
  match blocks with
  | [] => Raise ValueError
  | [m] => Ok m
  | m :: blocks' => rest ← hstack blocks'; hconcat m rest
  end.

(** [m[idx, :]] for an integer array [idx]. *)
Definition select_rows {A} (idx : list Z) (m : matrix A) : res (matrix A) :=
  rs ← Np.take (rows m) idx; Ok (Matrix (ncols m) rs).

(** [m[:, idx]] for an integer array [idx]. *)
Definition select_cols {A} (idx : list Z) (m : matrix A) : res (matrix A) :=
  _ ← res_mapM (Np.index (ncols m)) idx;
  rs ← res_mapM (fun r => Np.take r idx) (rows m);
  Ok (Matrix (length idx) rs).

(** [m[mask, :]] for a boolean array [mask]. *)
Definition mask_rows {A} (mask : list bool) (m : matrix A) : res (matrix A) :=
  rs ← Np.compress mask (rows m); Ok (Matrix (ncols m) rs).

(** [m[:, mask]] for a boolean array [mask]. *)
Definition mask_cols {A} (mask : list bool) (m : matrix A) : res (matrix A) :=
  if length mask =? ncols m
  then Ok (Matrix (length (Np.flatnonzero mask))
                  (List.map (Np.compress_go mask) (rows m)))
  else Raise IndexError.

(** [m[:, j]] for an integer [j]. *)
Definition col {A} (m : matrix A) (j : Z) : res (list A) :=
  k ← Np.index (ncols m) j;
  res_mapM (fun r => match r !! k with Some x => Ok x | None => Raise IndexError end)
           (rows m).

End Mat.

Section Algebra.
Context `{Scalars}.

(** One entry of a matrix-vector product: the products of a row with the
    vector, summed from zero in column order.  The rows are dense here: a
    sparse row skips its structural zeros, which adds nothing to the sum of
    finite values. *)
Definition dot (r : list cplx) (V : list cplx) : cplx :=
  foldl Cadd C0 (zip_with Cmul r V).

(** [Y * V] for a sparse matrix [Y] and a 1-D array [V]. *)
Definition mat_vec (Y : matrix cplx) (V : list cplx) : res (list cplx) :=
  if ncols Y =? length V then Ok (List.map (fun r => dot r V) (rows Y))
  else Raise ValueError.

(** A 2-D array combined with a column vector ([c.reshape((-1, 1))]): every
    entry of row [i] is combined with [c[i]], with numpy's broadcasting of a
    single row or a single vector entry. *)
Definition bcast_col {A B D} (f : A -> B -> D) (m : matrix A) (c : list B)
  : res (matrix D) :=
  rs ← Np.bcast2 (fun r x => List.map (fun a => f a x) r) (rows m) c;
  Ok (Matrix (ncols m) rs).

(** ** The pypower routines and constants the module imports *)

Class Pypower := {
  F_BUS : Z;
  T_BUS : Z;
  (* makeYbus(baseMVA, bus, branch) = (Ybus, Yf, Yt) *)
  makeYbus : real -> matrix real -> matrix cplx ->
             res (matrix cplx * matrix cplx * matrix cplx);
  (* dSbus_dV(Ybus, V) = (dS_dVm, dS_dVa) *)
  dSbus_dV : matrix cplx -> list cplx -> res (matrix cplx * matrix cplx);
  (* dSbr_dV(branch, Yf, Yt, V) = (dSf_dVa, dSf_dVm, dSt_dVa, dSt_dVm, Sf, St) *)
  dSbr_dV : matrix cplx -> matrix cplx -> matrix cplx -> list cplx ->
            res (matrix cplx * matrix cplx * matrix cplx * matrix cplx *
                 list cplx * list cplx);
  (* dIbr_dV(branch, Yf, Yt, V) = (dIf_dVa, dIf_dVm, dIt_dVa, dIt_dVm, If, It) *)
  dIbr_dV : matrix cplx -> matrix cplx -> matrix cplx -> list cplx ->
            res (matrix cplx * matrix cplx * matrix cplx * matrix cplx *
                 list cplx * list cplx);
}.

End Algebra.

(** ** The extended ppci the algebra is built from *)

Module EPPCI.
Section Fields.
Context `{Scalars}.

Record t := Make {
  bus : matrix real;
  branch : matrix cplx;
  baseMVA : real;
  bus_baseKV : list real;
  num_non_slack_bus : nat;
  non_slack_buses : list Z;
  delta_v_bus_mask : list bool;
  non_nan_meas_mask : list bool;
  any_i_meas : bool;
  z : list real;
  r_cov : list real;
  v_init : list real;
  delta_init : list real;
  (* eppci['internal']['Yf'], ['Yt'], ['Ybus'] *)
  internal : option (matrix cplx * matrix cplx * matrix cplx);
}.

Definition set_internal (e : t) (Y : matrix cplx * matrix cplx * matrix cplx) : t :=
  Make (bus e) (branch e) (baseMVA e) (bus_baseKV e) (num_non_slack_bus e)
       (non_slack_buses e) (delta_v_bus_mask e) (non_nan_meas_mask e)
       (any_i_meas e) (z e) (r_cov e) (v_init e) (delta_init e) (Some Y).

End Fields.
End EPPCI.

Section Object.
Context `{Scalars} `{!Pypower}.

(** ** The attributes of a [BaseAlgebra] object *)

Record BaseAlgebra := {
  eppci : EPPCI.t;
  fb : list Z;
  tb : list Z;
  n_bus : nat;
  n_branch : nat;
  baseMVA : real;
  bus_baseKV : list real;
  num_non_slack_bus : nat;
  non_slack_buses : list Z;
  delta_v_bus_mask : list bool;
  non_nan_meas_mask : list bool;
  any_i_meas : bool;
  delta_v_bus_selector : list Z;
  non_nan_meas_selector : list Z;
  z : list real;
  sigma : list real;
  Ybus : matrix cplx;
  Yf : matrix cplx;
  Yt : matrix cplx;
  v : list real;
  delta : list real;
}.

(** The two assignments of [_e2v]: [self.v = ...] rebinds the attribute,
    [self.delta[...] = ...] writes into the array the attribute holds. *)
Definition set_v (self : BaseAlgebra) (v' : list real) : BaseAlgebra :=
  {| eppci := eppci self; fb := fb self; tb := tb self; n_bus := n_bus self;
     n_branch := n_branch self; baseMVA := baseMVA self;
     bus_baseKV := bus_baseKV self; num_non_slack_bus := num_non_slack_bus self;
     non_slack_buses := non_slack_buses self;
     delta_v_bus_mask := delta_v_bus_mask self;
     non_nan_meas_mask := non_nan_meas_mask self; any_i_meas := any_i_meas self;
     delta_v_bus_selector := delta_v_bus_selector self;
     non_nan_meas_selector := non_nan_meas_selector self;
     z := z self; sigma := sigma self;
     Ybus := Ybus self; Yf := Yf self; Yt := Yt self;
     v := v'; delta := delta self |}.

Definition set_delta (self : BaseAlgebra) (delta' : list real) : BaseAlgebra :=
  {| eppci := eppci self; fb := fb self; tb := tb self; n_bus := n_bus self;
     n_branch := n_branch self; baseMVA := baseMVA self;
     bus_baseKV := bus_baseKV self; num_non_slack_bus := num_non_slack_bus self;
     non_slack_buses := non_slack_buses self;
     delta_v_bus_mask := delta_v_bus_mask self;
     non_nan_meas_mask := non_nan_meas_mask self; any_i_meas := any_i_meas self;
     delta_v_bus_selector := delta_v_bus_selector self;
     non_nan_meas_selector := non_nan_meas_selector self;
     z := z self; sigma := sigma self;
     Ybus := Ybus self; Yf := Yf self; Yt := Yt self;
     v := v self; delta := delta' |}.

(** ** Methods: computations over the object that may raise *)

Definition M (A : Type) : Type := BaseAlgebra -> res (A * BaseAlgebra).

Global Instance M_ret : MRet M := fun A a self => Ok (a, self).
Global Instance M_bind : MBind M := fun A B k m self =>
  match m self with
  | Ok (a, self') => k a self'
  | Raise e => Raise e
  end.

(** Reading the attributes of [self]. *)
Definition get : M BaseAlgebra := fun self => Ok (self, self).
(** Replacing the attributes of [self]. *)
Definition put (self' : BaseAlgebra) : M unit := fun _ => Ok (tt, self').
(** A computation on values, which leaves [self] alone. *)
Definition lift {A} (r : res A) : M A := fun self =>
  match r with
  | Ok a => Ok (a, self)
  | Raise e => Raise e
  end.

(** *** [BaseAlgebra.__init__] and [initialize_Y]

    [np.seterr] and the warnings filter only set how floating-point
    exceptions are reported; they have no counterpart here. *)

Definition initialize_Y (e : EPPCI.t)
  : res (EPPCI.t * (matrix cplx * matrix cplx * matrix cplx)) :=
  '(Ybus, Yf, Yt) ← makeYbus (EPPCI.baseMVA e) (EPPCI.bus e) (EPPCI.branch e);
  Ok (EPPCI.set_internal e (Yf, Yt, Ybus), (Ybus, Yf, Yt)).

Definition __init__ (e : EPPCI.t) : res BaseAlgebra :=
  fcol ← Mat.col (EPPCI.branch e) F_BUS;
  tcol ← Mat.col (EPPCI.branch e) T_BUS;
  '(e', (Ybus, Yf, Yt)) ← initialize_Y e;
  Ok {| eppci := e';
        fb := List.map (fun c => Ftrunc (Cre c)) fcol;
        tb := List.map (fun c => Ftrunc (Cre c)) tcol;
        n_bus := Mat.nrows (EPPCI.bus e);
        n_branch := Mat.nrows (EPPCI.branch e);
        baseMVA := EPPCI.baseMVA e;
        bus_baseKV := EPPCI.bus_baseKV e;
        num_non_slack_bus := EPPCI.num_non_slack_bus e;
        non_slack_buses := EPPCI.non_slack_buses e;
        delta_v_bus_mask := EPPCI.delta_v_bus_mask e;
        non_nan_meas_mask := EPPCI.non_nan_meas_mask e;
        any_i_meas := EPPCI.any_i_meas e;
        delta_v_bus_selector := Np.flatnonzero (EPPCI.delta_v_bus_mask e);
        non_nan_meas_selector := Np.flatnonzero (EPPCI.non_nan_meas_mask e);
        z := EPPCI.z e;
        sigma := EPPCI.r_cov e;
        Ybus := Ybus; Yf := Yf; Yt := Yt;
        v := EPPCI.v_init e;
        delta := EPPCI.delta_init e |}.

(** *** [BaseAlgebra] *)

Definition _e2v (E : list real) : M (list real * list real) :=
  self ← get;
  _ ← put (set_v self (drop (num_non_slack_bus self) E));
  self ← get;
  delta' ← lift (Np.put (delta self) (non_slack_buses self)
                        (take (num_non_slack_bus self) E));
  _ ← put (set_delta self delta');
  self ← get;
  mret (v self, delta self).

(** [V = v * np.exp(1j * delta)] *)
Definition polar (v delta : list real) : res (list cplx) :=
  Np.bcast2 Cscale v (List.map Cexpi delta).

Definition create_hx (E : list real) : M (list real) :=
  '(v, delta) ← _e2v E;
  self ← get;
  let f_bus := fb self in
  let t_bus := tb self in
  V ← lift (polar v delta);
  Vf ← lift (Np.take V f_bus);
  YfV ← lift (mat_vec (Yf self) V);
  Sfe ← lift (Np.bcast2 Cmul Vf (List.map Cconj YfV));
  Vt ← lift (Np.take V t_bus);
  YtV ← lift (mat_vec (Yt self) V);
  Ste ← lift (Np.bcast2 Cmul Vt (List.map Cconj YtV));
  YbusV ← lift (mat_vec (Ybus self) V);
  Sbuse ← lift (Np.bcast2 Cmul V (List.map Cconj YbusV));
  Ife ← lift (mat_vec (Yf self) V);
  Ite ← lift (mat_vec (Yt self) V);
  let hx := List.map Cre Sbuse ++
            List.map Cre Sfe ++
            List.map Cre Ste ++
            List.map Cim Sbuse ++
            List.map Cim Sfe ++
            List.map Cim Ste ++
            v ++
            List.map Cabs Ife ++
            List.map Cabs Ite in
  lift (Np.compress (non_nan_meas_mask self) hx).

Definition create_rx (E : list real) : M (list real) :=
  hx ← create_hx E;
  self ← get;
  lift (Np.bcast2 Fsub (z self) hx).

Definition _dSbus_dv (V : list cplx) : M (matrix cplx * matrix cplx) :=
  self ← get;
  '(dSbus_dv, dSbus_dth) ← lift (dSbus_dV (Ybus self) V);
  mret (dSbus_dth, dSbus_dv).

Definition _dSbr_dv (V : list cplx)
  : M (matrix cplx * matrix cplx * matrix cplx * matrix cplx) :=
  self ← get;
  '(dSf_dth, dSf_dv, dSt_dth, dSt_dv, _, _) ←
    lift (dSbr_dV (EPPCI.branch (eppci self)) (Yf self) (Yt self) V);
  mret (dSf_dth, dSf_dv, dSt_dth, dSt_dv).

Definition _dVbus_dv (V : list cplx) : M (matrix real * matrix real) :=
  mret (Mat.zeros F0 (length V) (length V), Mat.eye F0 F1 (length V) (length V)).

(** [(np.abs(1e-5 * d + I.reshape((-1, 1))) - np.abs(I.reshape((-1, 1)))) / 1e-5] *)
Definition perturb (d : matrix cplx) (I : list cplx) : res (matrix real) :=
  moved ← bcast_col Cadd (Mat.map (Cscale F1em5) d) I;
  diff ← bcast_col Fsub (Mat.map Cabs moved) (List.map Cabs I);
  Ok (Mat.map (fun x => Fdiv x F1em5) diff).

Definition _dibr_dv (V : list cplx)
  : M (matrix real * matrix real * matrix real * matrix real) :=
  self ← get;
  '(dif_dth, dif_dv, dit_dth, dit_dv, If, It) ←
    lift (dIbr_dV (EPPCI.branch (eppci self)) (Yf self) (Yt self) V);
  dif_dth ← lift (perturb dif_dth If);
  dif_dv ← lift (perturb dif_dv If);
  dit_dth ← lift (perturb dit_dth It);
  dit_dv ← lift (perturb dit_dv It);
  mret (dif_dth, dif_dv, dit_dth, dit_dv).

Definition create_hx_jacobian (E : list real) : M (matrix real) :=
  '(v, delta) ← _e2v E;
  V ← lift (polar v delta);
  '(dSbus_dth, dSbus_dv) ← _dSbus_dv V;
  '(dSf_dth, dSf_dv, dSt_dth, dSt_dv) ← _dSbr_dv V;
  '(dv_dth, dv_dv) ← _dVbus_dv V;
  s_jac_th ← lift (Mat.vstack [Mat.map Cre dSbus_dth;
                               Mat.map Cre dSf_dth;
                               Mat.map Cre dSt_dth;
                               Mat.map Cim dSbus_dth;
                               Mat.map Cim dSf_dth;
                               Mat.map Cim dSt_dth]);
  s_jac_v ← lift (Mat.vstack [Mat.map Cre dSbus_dv;
                              Mat.map Cre dSf_dv;
                              Mat.map Cre dSt_dv;
                              Mat.map Cim dSbus_dv;
                              Mat.map Cim dSf_dv;
                              Mat.map Cim dSt_dv]);
  s_jac ← lift (Mat.hstack [s_jac_th; s_jac_v]);
  v_jac ← lift (Mat.hstack [dv_dth; dv_dv]);
  self ← get;
  jac ← (if any_i_meas self then
           '(dif_dth, dif_dv, dit_dth, dit_dv) ← _dibr_dv V;
           f_jac ← lift (Mat.hstack [dif_dth; dif_dv]);
           t_jac ← lift (Mat.hstack [dit_dth; dit_dv]);
           i_jac ← lift (Mat.vstack [f_jac; t_jac]);
           lift (Mat.vstack [s_jac; v_jac; i_jac])
         else
           lift (Mat.vstack [s_jac; v_jac]));
  self ← get;
  picked ← lift (Mat.select_rows (non_nan_meas_selector self) jac);
  lift (Mat.select_cols (delta_v_bus_selector self) picked).

(** An entry of a numpy array of dtype object: a Python float, a Python
    complex, or a scipy sparse matrix held as one opaque object. *)
Inductive cell :=
| CFloat (x : real)
| CComplex (c : cplx)
| CSparse (m : matrix real).

(** [np.c_[a, b]] for two scipy sparse matrices: numpy does not look inside
    them, each becomes a 1 x 1 array of dtype object and the result is the
    1 x 2 array holding the two matrices. *)
Definition np_c_sparse (a b : matrix real) : matrix cell :=
  Matrix 2 [[CSparse a; CSparse b]].

End Object.

(** *** [BaseAlgebraDecoupled] *)

Module BaseAlgebraDecoupled.
Section Methods.
Context `{Scalars} `{!Pypower}.

Definition create_hx_jacobian (E : list real) : M (matrix cell) :=
  '(v, delta) ← _e2v E;
  V ← lift (polar v delta);
  '(dSbus_dth, dSbus_dv) ← _dSbus_dv V;
  '(dSf_dth, dSf_dv, dSt_dth, dSt_dv) ← _dSbr_dv V;
  '(dif_dth, dif_dv, dit_dth, dit_dv) ← _dibr_dv V;
  '(dv_dth, dv_dv) ← _dVbus_dv V;
  (* the float blocks are cast to complex by the complex zero blocks *)
  s_jac_th ← lift (Mat.vstack [Mat.map Cof (Mat.map Cre dSbus_dth);
                               Mat.map Cof (Mat.map Cre dSf_dth);
                               Mat.map Cof (Mat.map Cre dSt_dth);
                               Mat.map (fun _ => C0) dSbus_dth;
                               Mat.map (fun _ => C0) dSf_dth;
                               Mat.map (fun _ => C0) dSt_dth]);
  s_jac_v ← lift (Mat.vstack [Mat.map (fun _ => C0) dSbus_dv;
                              Mat.map (fun _ => C0) dSf_dv;
                              Mat.map (fun _ => C0) dSt_dv;
                              Mat.map Cof (Mat.map Cim dSbus_dv);
                              Mat.map Cof (Mat.map Cim dSf_dv);
                              Mat.map Cof (Mat.map Cim dSt_dv)]);
  s_jac ← lift (Mat.hstack [s_jac_th; s_jac_v]);
  (* [dv_dth] and [dv_dv] are still sparse here *)
  let v_jac := np_c_sparse dv_dth dv_dv in
  f_jac ← lift (Mat.hstack [dif_dth; dif_dv]);
  t_jac ← lift (Mat.hstack [dit_dth; dit_dv]);
  i_jac ← lift (Mat.vstack [f_jac; t_jac]);
  (* complex, object and float blocks: the result has dtype object *)
  jac ← lift (Mat.vstack [Mat.map CComplex s_jac; v_jac; Mat.map CFloat i_jac]);
  self ← get;
  picked ← lift (Mat.mask_rows (non_nan_meas_mask self) jac);
  lift (Mat.mask_cols (delta_v_bus_mask self) picked).

End Methods.
End BaseAlgebraDecoupled.

(** *** [BaseAlgebraZeroInjConstraints] *)

Module BaseAlgebraZeroInjConstraints.
Section Methods.
Context `{Scalars} `{!Pypower}.

Definition create_cx (E : list real) (p_zero_inj q_zero_inj : list Z)
  : M (list real) :=
  '(v, delta) ← _e2v E;
  V ← lift (polar v delta);
  self ← get;
  YbusV ← lift (mat_vec (Ybus self) V);
  Sbus ← lift (Np.bcast2 Cmul V (List.map Cconj YbusV));
  Sp ← lift (Np.take Sbus p_zero_inj);
  Sq ← lift (Np.take Sbus q_zero_inj);
  let c := List.map (fun x => Fmul x (baseMVA self))
                    (List.map Cre Sp ++ List.map Cim Sq) in
  mret c.

Definition create_cx_jacobian (E : list real) (p_zero_inj q_zero_inj : list Z)
  : M (matrix real) :=
  '(v, delta) ← _e2v E;
  V ← lift (polar v delta);
  '(dSbus_dth, dSbus_dv) ← _dSbus_dv V;
  th_p ← lift (Mat.select_rows p_zero_inj (Mat.map Cre dSbus_dth));
  th_q ← lift (Mat.select_rows q_zero_inj (Mat.map Cim dSbus_dth));
  c_jac_th ← lift (Mat.vstack [th_p; th_q]);
  v_p ← lift (Mat.select_rows p_zero_inj (Mat.map Cre dSbus_dv));
  v_q ← lift (Mat.select_rows q_zero_inj (Mat.map Cim dSbus_dv));
  c_jac_v ← lift (Mat.vstack [v_p; v_q]);
  c_jac ← lift (Mat.hstack [c_jac_th; c_jac_v]);
  self ← get;
  lift (Mat.mask_cols (delta_v_bus_mask self) c_jac).

End Methods.
End BaseAlgebraZeroInjConstraints.

(** ** Vocabulary of the specification *)

(** The last value stored at position [k], if any. *)
Fixpoint last_stored {A} (k : nat) (idx : list nat) (vals : list A) : option A :=
  match idx, vals with
  | i :: idx', x :: vals' =>
      match last_stored k idx' vals' with
      | Some y => Some y
      | None => if decide (i = k) then Some x else None
      end
  | _, _ => None
  end.

Section Vocabulary.
Context `{Scalars} `{!Pypower}.

(** A computation that only reads [self]. *)
Definition reads {A} (m : M A) : Prop :=
  forall s a s', m s = Ok (a, s') -> s' = s.


(** Every attribute of the object other than [v] and [delta] is the same
    in [s] and [s']. *)
Definition unchanged_configuration (s s' : BaseAlgebra) : Prop :=
  eppci s' = eppci s /\ fb s' = fb s /\ tb s' = tb s /\
  n_bus s' = n_bus s /\ n_branch s' = n_branch s /\
  baseMVA s' = baseMVA s /\ bus_baseKV s' = bus_baseKV s /\
  num_non_slack_bus s' = num_non_slack_bus s /\
  non_slack_buses s' = non_slack_buses s /\
  any_i_meas s' = any_i_meas s /\
  Ybus s' = Ybus s /\ Yf s' = Yf s /\ Yt s' = Yt s /\
  non_nan_meas_mask s' = non_nan_meas_mask s /\
  delta_v_bus_mask s' = delta_v_bus_mask s /\
  non_nan_meas_selector s' = non_nan_meas_selector s /\
  delta_v_bus_selector s' = delta_v_bus_selector s /\
  z s' = z s /\ sigma s' = sigma s.

(** The shapes the attributes of an object have for a network of [n_bus]
    buses and [n_branch] branches. *)
Record consistent (s : BaseAlgebra) : Prop := {
  nsb_length : length (non_slack_buses s) = num_non_slack_bus s;
  nsb_range : Forall (fun b => (0 <= b < Z.of_nat (n_bus s))%Z) (non_slack_buses s);
  delta_length : length (delta s) = n_bus s;
  Ybus_cols : ncols (Ybus s) = n_bus s;
  Ybus_rows : Mat.nrows (Ybus s) = n_bus s;
  Yf_cols : ncols (Yf s) = n_bus s;
  Yf_rows : Mat.nrows (Yf s) = n_branch s;
  Yt_cols : ncols (Yt s) = n_bus s;
  Yt_rows : Mat.nrows (Yt s) = n_branch s;
  fb_length : length (fb s) = n_branch s;
  fb_range : Forall (fun b => (0 <= b < Z.of_nat (n_bus s))%Z) (fb s);
  tb_length : length (tb s) = n_branch s;
  tb_range : Forall (fun b => (0 <= b < Z.of_nat (n_bus s))%Z) (tb s);
  meas_mask_length : length (non_nan_meas_mask s) = 3 * n_bus s + 6 * n_branch s;
  state_mask_length : length (delta_v_bus_mask s) = 2 * n_bus s;
}.

(** [V = v * exp(i * delta)], entry by entry. *)
Definition voltage (v delta : list real) : list cplx :=
  zip_with (fun m a => Cscale m (Cexpi a)) v delta.

(** [S_bus = V ⊙ conj(Ybus · V)] *)
Definition busPower (Y : matrix cplx) (V : list cplx) : list cplx :=
  zip_with (fun Vk r => Cmul Vk (Cconj (dot r V))) V (rows Y).

(** [I_from = Yf · V], [I_to = Yt · V] *)
Definition branchCurrent (Y : matrix cplx) (V : list cplx) : list cplx :=
  List.map (fun r => dot r V) (rows Y).

(** [S_from = V[from] ⊙ conj(Yf · V)], [S_to = V[to] ⊙ conj(Yt · V)] *)
Definition branchPower (ends : list Z) (Y : matrix cplx) (V : list cplx) : list cplx :=
  zip_with (fun e r => Cmul (nth (Z.to_nat e) V C0) (Cconj (dot r V))) ends (rows Y).

(** The vector of all measurement quantities, in the canonical order. *)
Definition all_measurements (s : BaseAlgebra) : list real :=
  let V := voltage (v s) (delta s) in
  List.map Cre (busPower (Ybus s) V) ++
  List.map Cre (branchPower (fb s) (Yf s) V) ++
  List.map Cre (branchPower (tb s) (Yt s) V) ++
  List.map Cim (busPower (Ybus s) V) ++
  List.map Cim (branchPower (fb s) (Yf s) V) ++
  List.map Cim (branchPower (tb s) (Yt s) V) ++
  v s ++
  List.map Cabs (branchCurrent (Yf s) V) ++
  List.map Cabs (branchCurrent (Yt s) V).

(** The entries of [a] at the positions where [mask] is true, in increasing
    order of position. *)
Definition restricted {A} (mask : list bool) (a : list A) : list A :=
  omap (fun i => a !! i) (Np.flatnonzero_from 0 mask).

(** The number of true entries of a mask. *)
Fixpoint count_true (mask : list bool) : nat :=
  match mask with
  | [] => 0
  | b :: mask' => (if b then 1 else 0) + count_true mask'
  end.

(** An [r] x [c] matrix. *)
Definition has_shape {A} (m : matrix A) (r c : nat) : Prop :=
  Mat.nrows m = r /\ ncols m = c /\ Mat.wf m.

(** The complex power derivatives pypower returns at [V]. *)
Record power_derivatives := {
  dSbus_dth : matrix cplx; dSbus_dv : matrix cplx;
  dSf_dth : matrix cplx; dSf_dv : matrix cplx;
  dSt_dth : matrix cplx; dSt_dv : matrix cplx;
}.

(** The current-magnitude derivatives [_dibr_dv] returns at [V]. *)
Record current_derivatives := {
  dif_dth : matrix real; dif_dv : matrix real;
  dit_dth : matrix real; dit_dv : matrix real;
}.

(** At [V], the object [s] gets the blocks [P] from pypower, of the shapes
    of its network. *)
Record returns_power (s : BaseAlgebra) (V : list cplx) (P : power_derivatives)
  : Prop := {
  bus_blocks : _dSbus_dv V s = Ok ((dSbus_dth P, dSbus_dv P), s);
  branch_blocks :
    _dSbr_dv V s = Ok ((dSf_dth P, dSf_dv P, dSt_dth P, dSt_dv P), s);
  dSbus_dth_shape : has_shape (dSbus_dth P) (n_bus s) (n_bus s);
  dSbus_dv_shape : has_shape (dSbus_dv P) (n_bus s) (n_bus s);
  dSf_dth_shape : has_shape (dSf_dth P) (n_branch s) (n_bus s);
  dSf_dv_shape : has_shape (dSf_dv P) (n_branch s) (n_bus s);
  dSt_dth_shape : has_shape (dSt_dth P) (n_branch s) (n_bus s);
  dSt_dv_shape : has_shape (dSt_dv P) (n_branch s) (n_bus s);
}.

Record returns_current (s : BaseAlgebra) (V : list cplx) (I : current_derivatives)
  : Prop := {
  current_blocks : _dibr_dv V s = Ok ((dif_dth I, dif_dv I, dit_dth I, dit_dv I), s);
  dif_dth_shape : has_shape (dif_dth I) (n_branch s) (n_bus s);
  dif_dv_shape : has_shape (dif_dv I) (n_branch s) (n_bus s);
  dit_dth_shape : has_shape (dit_dth I) (n_branch s) (n_bus s);
  dit_dv_shape : has_shape (dit_dv I) (n_branch s) (n_bus s);
}.

(** The rows of the block row [[a | b]]. *)
Definition beside {A} (a b : matrix A) : list (list A) :=
  zip_with app (rows a) (rows b).

(** The power rows of the full Jacobian, [[d/dtheta | d/d|V|]] per
    quantity, in the canonical measurement order. *)
Definition power_rows (P : power_derivatives) : list (list real) :=
  beside (Mat.map Cre (dSbus_dth P)) (Mat.map Cre (dSbus_dv P)) ++
  beside (Mat.map Cre (dSf_dth P)) (Mat.map Cre (dSf_dv P)) ++
  beside (Mat.map Cre (dSt_dth P)) (Mat.map Cre (dSt_dv P)) ++
  beside (Mat.map Cim (dSbus_dth P)) (Mat.map Cim (dSbus_dv P)) ++
  beside (Mat.map Cim (dSf_dth P)) (Mat.map Cim (dSf_dv P)) ++
  beside (Mat.map Cim (dSt_dth P)) (Mat.map Cim (dSt_dv P)).

(** The voltage-magnitude rows: zero against the angles, the identity
    against the magnitudes. *)
Definition voltage_rows (n : nat) : list (list real) :=
  beside (Mat.zeros F0 n n) (Mat.eye F0 F1 n n).

(** The current-magnitude rows. *)
Definition current_rows (I : current_derivatives) : list (list real) :=
  beside (dif_dth I) (dif_dv I) ++ beside (dit_dth I) (dit_dv I).

(** The rows of the full stacked block matrix, with or without the
    current-magnitude rows. *)
Definition stacked_rows (with_current : bool) (n : nat)
    (P : power_derivatives) (I : current_derivatives) : list (list real) :=
  power_rows P ++ voltage_rows n ++ (if with_current then current_rows I else []).

(** The object [s] with its flag [any_i_meas] set to [b]. *)
Definition set_any_i_meas (s : BaseAlgebra) (b : bool) : BaseAlgebra :=
  {| eppci := eppci s; fb := fb s; tb := tb s; n_bus := n_bus s;
     n_branch := n_branch s; baseMVA := baseMVA s;
     bus_baseKV := bus_baseKV s; num_non_slack_bus := num_non_slack_bus s;
     non_slack_buses := non_slack_buses s;
     delta_v_bus_mask := delta_v_bus_mask s;
     non_nan_meas_mask := non_nan_meas_mask s; any_i_meas := b;
     delta_v_bus_selector := delta_v_bus_selector s;
     non_nan_meas_selector := non_nan_meas_selector s;
     z := z s; sigma := sigma s;
     Ybus := Ybus s; Yf := Yf s; Yt := Yt s;
     v := v s; delta := delta s |}.

(** The entry of [m] in row [i] and column [j]. *)
Definition entry {A} (m : matrix A) (i j : nat) : option A :=
  rows m !! i ≫= fun r => r !! j.

(** [B] is the forward difference of the magnitude of the current [I] along
    the complex derivative [d], with the step [1e-5] in every entry. *)
Definition finite_difference (d : matrix cplx) (I : list cplx) (B : matrix real)
  : Prop :=
  Mat.shape B = Mat.shape d /\
  forall i j x Ii,
    entry d i j = Some x -> I !! i = Some Ii ->
    entry B i j =
    Some (Fdiv (Fsub (Cabs (Cadd Ii (Cscale F1em5 x))) (Cabs Ii)) F1em5).

(** The constraint vector as a function of the magnitudes [vm] and the
    angles [th]: the real part of [S_bus] at [p_idx], then its imaginary
    part at [q_idx], times [baseMVA]. *)
Definition constraint_values (s : BaseAlgebra) (p_idx q_idx : list Z)
    (vm th : list real) : list real :=
  let S_bus := busPower (Ybus s) (voltage vm th) in
  List.map (fun b => Fmul (Cre (nth (Z.to_nat b) S_bus C0)) (baseMVA s)) p_idx ++
  List.map (fun b => Fmul (Cim (nth (Z.to_nat b) S_bus C0)) (baseMVA s)) q_idx.

(** What a call returns, leaving the object aside. *)
Definition returned {A} (r : res (A * BaseAlgebra)) : res A :=
  match r with
  | Ok (a, _) => Ok a
  | Raise e => Raise e
  end.

(** The shapes of [consistent], the lengths of the two masks left open. *)
Record well_shaped (s : BaseAlgebra) : Prop := {
  ws_nsb_length : length (non_slack_buses s) = num_non_slack_bus s;
  ws_nsb_range : Forall (fun b => (0 <= b < Z.of_nat (n_bus s))%Z) (non_slack_buses s);
  ws_delta_length : length (delta s) = n_bus s;
  ws_Ybus_cols : ncols (Ybus s) = n_bus s;
  ws_Ybus_rows : Mat.nrows (Ybus s) = n_bus s;
  ws_Yf_cols : ncols (Yf s) = n_bus s;
  ws_Yf_rows : Mat.nrows (Yf s) = n_branch s;
  ws_Yt_cols : ncols (Yt s) = n_bus s;
  ws_Yt_rows : Mat.nrows (Yt s) = n_branch s;
  ws_fb_length : length (fb s) = n_branch s;
  ws_fb_range : Forall (fun b => (0 <= b < Z.of_nat (n_bus s))%Z) (fb s);
  ws_tb_length : length (tb s) = n_branch s;
  ws_tb_range : Forall (fun b => (0 <= b < Z.of_nat (n_bus s))%Z) (tb s);
}.

(** The selectors are the positions of the true entries of the masks. *)
Definition selectors_of_masks (s : BaseAlgebra) : Prop :=
  non_nan_meas_selector s = Np.flatnonzero (non_nan_meas_mask s) /\
  delta_v_bus_selector s = Np.flatnonzero (delta_v_bus_mask s).

(** One returning call of a public method takes the object from [s] to
    [s']. *)
Inductive public_call : BaseAlgebra -> BaseAlgebra -> Prop :=
| call_create_rx E s r s' :
    create_rx E s = Ok (r, s') -> public_call s s'
| call_create_hx E s r s' :
    create_hx E s = Ok (r, s') -> public_call s s'
| call_create_hx_jacobian E s r s' :
    create_hx_jacobian E s = Ok (r, s') -> public_call s s'
| call_create_cx E p q s r s' :
    BaseAlgebraZeroInjConstraints.create_cx E p q s = Ok (r, s') -> public_call s s'
| call_create_cx_jacobian E p q s r s' :
    BaseAlgebraZeroInjConstraints.create_cx_jacobian E p q s = Ok (r, s') ->
    public_call s s'.

End Vocabulary.

(** ** A computable interpretation, for running the definitions

    Five-decimal fixed-point numbers: the integer [x] stands for
    [x / 100000].  Complex numbers are pairs; division truncates; the
    square root is the integer square root, and [exp(1j * x)] is the
    degree-five Taylor polynomial of cosine and sine.  This interpretation
    is only used to evaluate the methods on concrete networks. *)

Module Fixed.
Local Open Scope Z_scope.

Definition scale : Z := 100000.
Definition mul (a b : Z) : Z := (a * b) ÷ scale.
Definition div (a b : Z) : Z := (a * scale) ÷ b.
Definition cos5 (x : Z) : Z :=
  scale - (mul x x) ÷ 2 + mul (mul x x) (mul x x) ÷ 24.
Definition sin5 (x : Z) : Z :=
  x - mul x (mul x x) ÷ 6 + mul (mul x x) (mul x (mul x x)) ÷ 120.

Definition cadd (a b : Z * Z) : Z * Z := (a.1 + b.1, a.2 + b.2).
Definition csub (a b : Z * Z) : Z * Z := (a.1 - b.1, a.2 - b.2).
Definition cmul (a b : Z * Z) : Z * Z :=
  (mul a.1 b.1 - mul a.2 b.2, mul a.1 b.2 + mul a.2 b.1).
Definition cscale (r : Z) (a : Z * Z) : Z * Z := (mul r a.1, mul r a.2).
Definition cconj (a : Z * Z) : Z * Z := (a.1, - a.2).
Definition cabs (a : Z * Z) : Z := Z.sqrt (a.1 * a.1 + a.2 * a.2).
Definition cdivr (a : Z * Z) (r : Z) : Z * Z := (div a.1 r, div a.2 r).
Definition j : Z * Z := (0, scale).

#[export] Instance scalars : Scalars := {|
  real := Z;
  cplx := Z * Z;
  F0 := 0;
  F1 := scale;
  F1em5 := 1;
  Fsub := Z.sub;
  Fmul := mul;
  Fdiv := div;
  Ftrunc := fun x => x ÷ scale;
  C0 := (0, 0);
  Cadd := cadd;
  Cmul := cmul;
  Cscale := cscale;
  Cconj := cconj;
  Cre := fst;
  Cim := snd;
  Cabs := cabs;
  Cexpi := fun x => (cos5 x, sin5 x);
  Cof := fun x => (x, 0);
|}.

(** A stand-in for the pypower routines on small networks.  A branch row is
    [from bus; to bus; series admittance]; shunts, taps and line charging
    are left out.  The derivative blocks follow the usual linearisation of
    the power-flow equations. *)

Definition at_col (n k : nat) (x : Z * Z) : list (Z * Z) :=
  List.map (fun c => if (c =? k)%nat then x else (0, 0)) (seq 0 n).

Definition bus_of (x : Z * Z) : nat := Z.to_nat (x.1 ÷ scale).

Definition branch_f (br : list (Z * Z)) : nat := bus_of (nth 0 br (0, 0)).
Definition branch_t (br : list (Z * Z)) : nat := bus_of (nth 1 br (0, 0)).
Definition branch_y (br : list (Z * Z)) : Z * Z := nth 2 br (0, 0).

Definition row_add (a b : list (Z * Z)) : list (Z * Z) := zip_with cadd a b.

Definition Yf_row (n : nat) (br : list (Z * Z)) : list (Z * Z) :=
  row_add (at_col n (branch_f br) (branch_y br))
          (at_col n (branch_t br) (csub (0, 0) (branch_y br))).

Definition Yt_row (n : nat) (br : list (Z * Z)) : list (Z * Z) :=
  row_add (at_col n (branch_f br) (csub (0, 0) (branch_y br)))
          (at_col n (branch_t br) (branch_y br)).

Definition Ybus_row (n : nat) (brs : list (list (Z * Z))) (k : nat) : list (Z * Z) :=
  foldl (fun acc br =>
           let acc := if (branch_f br =? k)%nat then row_add acc (Yf_row n br) else acc in
           if (branch_t br =? k)%nat then row_add acc (Yt_row n br) else acc)
        (replicate n (0, 0)) brs.

Definition toy_makeYbus (baseMVA : Z) (bus : matrix Z) (branch : matrix (Z * Z))
  : res (matrix (Z * Z) * matrix (Z * Z) * matrix (Z * Z)) :=
  let n := Mat.nrows bus in
  Ok (Matrix n (List.map (Ybus_row n (rows branch)) (seq 0 n)),
      Matrix n (List.map (Yf_row n) (rows branch)),
      Matrix n (List.map (Yt_row n) (rows branch))).

Definition vnorm (x : Z * Z) : Z * Z := cdivr x (cabs x).

Definition toy_dSbus_dV (Ybus : matrix (Z * Z)) (V : list (Z * Z))
  : res (matrix (Z * Z) * matrix (Z * Z)) :=
  Ibus ← mat_vec Ybus V;
  let Vk k := nth k V (0, 0) in
  let Ik k := nth k Ibus (0, 0) in
  let diag k c (x : Z * Z) := if (k =? c)%nat then x else (0, 0) in
  let dS_dVm k c y :=
    cadd (cmul (Vk k) (cconj (cmul y (vnorm (Vk c)))))
         (diag k c (cmul (cconj (Ik k)) (vnorm (Vk k)))) in
  let dS_dVa k c y :=
    cmul j (cmul (Vk k) (cconj (csub (diag k c (Ik k)) (cmul y (Vk c))))) in
  Ok (Matrix (ncols Ybus) (imap (fun k r => imap (dS_dVm k) r) (rows Ybus)),
      Matrix (ncols Ybus) (imap (fun k r => imap (dS_dVa k) r) (rows Ybus))).

Definition toy_dIbr_dV (branch Yf Yt : matrix (Z * Z)) (V : list (Z * Z))
  : res (matrix (Z * Z) * matrix (Z * Z) * matrix (Z * Z) * matrix (Z * Z) *
         list (Z * Z) * list (Z * Z)) :=
  If ← mat_vec Yf V;
  It ← mat_vec Yt V;
  let Vk k := nth k V (0, 0) in
  let dVa (Y : matrix (Z * Z)) :=
    Matrix (ncols Y) (List.map (imap (fun c y => cmul y (cmul j (Vk c)))) (rows Y)) in
  let dVm (Y : matrix (Z * Z)) :=
    Matrix (ncols Y) (List.map (imap (fun c y => cmul y (vnorm (Vk c)))) (rows Y)) in
  Ok (dVa Yf, dVm Yf, dVa Yt, dVm Yt, If, It).

Definition toy_dSbr_dV (branch Yf Yt : matrix (Z * Z)) (V : list (Z * Z))
  : res (matrix (Z * Z) * matrix (Z * Z) * matrix (Z * Z) * matrix (Z * Z) *
         list (Z * Z) * list (Z * Z)) :=
  If ← mat_vec Yf V;
  It ← mat_vec Yt V;
  let Vk k := nth k V (0, 0) in
  let diag k c (x : Z * Z) := if (k =? c)%nat then x else (0, 0) in
  let dVa (Y : matrix (Z * Z)) (I : list (Z * Z)) (ends : list nat) :=
    Matrix (ncols Y)
      (imap (fun i r =>
               let e := nth i ends 0%nat in
               let Ii := nth i I (0, 0) in
               imap (fun c y =>
                       cmul j (csub (cmul (cconj Ii) (diag e c (Vk e)))
                                    (cmul (Vk e) (cconj (cmul y (Vk c)))))) r)
            (rows Y)) in
  let dVm (Y : matrix (Z * Z)) (I : list (Z * Z)) (ends : list nat) :=
    Matrix (ncols Y)
      (imap (fun i r =>
               let e := nth i ends 0%nat in
               let Ii := nth i I (0, 0) in
               imap (fun c y =>
                       cadd (cmul (Vk e) (cconj (cmul y (vnorm (Vk c)))))
                            (cmul (cconj Ii) (diag e c (vnorm (Vk e))))) r)
            (rows Y)) in
  let f := List.map branch_f (rows branch) in
  let t := List.map branch_t (rows branch) in
  let S (ends : list nat) (I : list (Z * Z)) :=
    zip_with (fun e Ii => cmul (Vk e) (cconj Ii)) ends I in
  Ok (dVa Yf If f, dVm Yf If f, dVa Yt It t, dVm Yt It t, S f If, S t It).

#[export] Instance pypower : Pypower := {|
  F_BUS := 0;
  T_BUS := 1;
  makeYbus := toy_makeYbus;
  dSbus_dV := toy_dSbus_dV;
  dSbr_dV := toy_dSbr_dV;
  dIbr_dV := toy_dIbr_dV;
|}.

(** A two-bus network with one branch of series admittance [1 - 2j]: bus 0
    is the reference bus and its angle the one fixed state variable; [mask]
    tells the observed measurement slots. *)
Definition two_bus_with (mask : list bool) (i_meas : bool) : EPPCI.t := {|
  EPPCI.bus := Matrix 1 [[0]; [scale]];
  EPPCI.branch := Matrix 3 [[(0, 0); (scale, 0); (scale, -2 * scale)]];
  EPPCI.baseMVA := 100 * scale;
  EPPCI.bus_baseKV := [110 * scale; 110 * scale];
  EPPCI.num_non_slack_bus := 1;
  EPPCI.non_slack_buses := [1];
  EPPCI.delta_v_bus_mask := [false; true; true; true];
  EPPCI.non_nan_meas_mask := mask;
  EPPCI.any_i_meas := i_meas;
  EPPCI.z := replicate (count_true mask) 0;
  EPPCI.r_cov := replicate (count_true mask) scale;
  EPPCI.v_init := [scale; scale];
  EPPCI.delta_init := [0; 0];
  EPPCI.internal := None;
|}.

(** The object [BaseAlgebra(two_bus_with mask i_meas)]. *)
Definition algebra_with (mask : list bool) (i_meas : bool) : BaseAlgebra := {|
  eppci := EPPCI.set_internal (two_bus_with mask i_meas)
             (Matrix 2 [[(scale, -2 * scale); (- scale, 2 * scale)]],
              Matrix 2 [[(- scale, 2 * scale); (scale, -2 * scale)]],
              Matrix 2 [[(scale, -2 * scale); (- scale, 2 * scale)];
                        [(- scale, 2 * scale); (scale, -2 * scale)]]);
  fb := [0];
  tb := [1];
  n_bus := 2;
  n_branch := 1;
  baseMVA := 100 * scale;
  bus_baseKV := [110 * scale; 110 * scale];
  num_non_slack_bus := 1;
  non_slack_buses := [1];
  delta_v_bus_mask := [false; true; true; true];
  non_nan_meas_mask := mask;
  any_i_meas := i_meas;
  delta_v_bus_selector := [1; 2; 3];
  non_nan_meas_selector := Np.flatnonzero mask;
  z := replicate (count_true mask) 0;
  sigma := replicate (count_true mask) scale;
  Ybus := Matrix 2 [[(scale, -2 * scale); (- scale, 2 * scale)];
                    [(- scale, 2 * scale); (scale, -2 * scale)]];
  Yf := Matrix 2 [[(scale, -2 * scale); (- scale, 2 * scale)]];
  Yt := Matrix 2 [[(- scale, 2 * scale); (scale, -2 * scale)]];
  v := [scale; scale];
  delta := [0; 0];
|}.

(** Every slot observed, current magnitudes among them. *)
Definition two_bus : EPPCI.t := two_bus_with (replicate 12 true) true.
Definition algebra : BaseAlgebra := algebra_with (replicate 12 true) true.

(** No current-magnitude slot observed, and the flag off. *)
Definition no_current_mask : list bool := replicate 10 true ++ [false; false].
Definition two_bus_no_current : EPPCI.t := two_bus_with no_current_mask false.
Definition algebra_no_current : BaseAlgebra := algebra_with no_current_mask false.

(** The state vector [angle of bus 1; magnitude of bus 0; magnitude of bus 1]
    = [0.1; 1.0; 0.98]. *)
Definition E0 : list Z := [10000; 100000; 98000].

(** The object after it has decoded [E0]. *)
Definition decoded : BaseAlgebra := set_delta (set_v algebra [100000; 98000]) [0; 10000].

(** The voltage [V] at [E0] and the blocks the stand-in returns there. *)
Definition V0 : list (Z * Z) := Eval vm_compute in voltage (v decoded) (delta decoded).

Definition P0 : power_derivatives :=
  Eval vm_compute in
    match _dSbus_dv V0 decoded, _dSbr_dv V0 decoded with
    | Ok ((bth, bv), _), Ok ((fth, fv, tth, tv), _) =>
        Build_power_derivatives bth bv fth fv tth tv
    | _, _ =>
        Build_power_derivatives (Matrix 0 []) (Matrix 0 []) (Matrix 0 [])
          (Matrix 0 []) (Matrix 0 []) (Matrix 0 [])
    end.

(** The complex current derivatives and currents the stand-in returns. *)
Definition dI0 : matrix (Z * Z) * matrix (Z * Z) * matrix (Z * Z) * matrix (Z * Z) :=
  Eval vm_compute in
    match toy_dIbr_dV (EPPCI.branch (eppci decoded)) (Yf decoded) (Yt decoded) V0 with
    | Ok (a, b, c, d, _, _) => (a, b, c, d)
    | _ => (Matrix 0 [], Matrix 0 [], Matrix 0 [], Matrix 0 [])
    end.

Definition I0 : current_derivatives :=
  Eval vm_compute in
    match _dibr_dv V0 decoded with
    | Ok ((fth, fv, tth, tv), _) => Build_current_derivatives fth fv tth tv
    | _ =>
        Build_current_derivatives (Matrix 0 []) (Matrix 0 []) (Matrix 0 [])
          (Matrix 0 [])
    end.

(** The same for the object without current measurements. *)
Definition decoded_no_current : BaseAlgebra :=
  set_delta (set_v algebra_no_current [100000; 98000]) [0; 10000].

End Fixed.

(** ** The exact interpretation, for statements about derivatives

    The scalars are the real numbers: arithmetic is exact, [np.abs] is the
    modulus and [np.exp(1j * x)] is [cos x + i sin x]. *)

Module Exact.
Local Open Scope R_scope.

Definition trunc (x : R) : Z :=
  if Rle_dec 0 x then Int_part x else (- Int_part (- x))%Z.

#[export] Instance scalars : Scalars := {|
  real := R;
  cplx := R * R;
  F0 := 0;
  F1 := 1;
  F1em5 := 1 / 100000;
  Fsub := Rminus;
  Fmul := Rmult;
  Fdiv := Rdiv;
  Ftrunc := trunc;
  C0 := (0, 0);
  Cadd := fun a b => (a.1 + b.1, a.2 + b.2);
  Cmul := fun a b => (a.1 * b.1 - a.2 * b.2, a.1 * b.2 + a.2 * b.1);
  Cscale := fun r a => (r * a.1, r * a.2);
  Cconj := fun a => (a.1, - a.2);
  Cre := fst;
  Cim := snd;
  Cabs := fun a => sqrt (a.1 * a.1 + a.2 * a.2);
  Cexpi := fun x => (cos x, sin x);
  Cof := fun x => (x, 0);
|}.

(** The vector [x] with its entry [j] moved by [t]. *)
Definition bump (j : nat) (t : R) (x : list R) : list R :=
  alter (fun a => a + t) j x.

(** [d] is the partial derivative of [f] at the magnitudes [vm] and angles
    [th] along the state variable [col] of the full state space
    [[angles | magnitudes]]. *)
Definition partial_at (f : list R -> list R -> R) (vm th : list R) (col : nat) (d : R)
  : Prop :=
  if (col <? length th)%nat
  then derivable_pt_lim (fun t => f vm (bump col t th)) 0 d
  else derivable_pt_lim (fun t => f (bump (col - length th) t vm) th) 0 d.

(** Row [k] of the block row [[dS_dVa | dS_dVm]]. *)
Definition bus_power_jacobian_row (dS_dVa dS_dVm : matrix (R * R)) (k : nat)
  : list (R * R) :=
  nth k (rows dS_dVa) [] ++ nth k (rows dS_dVm) [].

(** Modelled from the spec: pypower's [dSbus_dV] is not among the sources;
    the spec has it return the analytic partial derivatives of the complex
    bus power with respect to angle and magnitude.  Here: at [vm], [th] the
    real and imaginary parts of the entries of [dS_dVa] and [dS_dVm] are the
    partial derivatives of the real and imaginary parts of
    [S_bus = V ⊙ conj(Y · V)]. *)
Definition is_bus_power_jacobian (Y : matrix (R * R)) (vm th : list R)
    (dS_dVm dS_dVa : matrix (R * R)) : Prop :=
  forall k col x,
    bus_power_jacobian_row dS_dVa dS_dVm k !! col = Some x ->
    partial_at (fun vm' th' => fst (nth k (busPower Y (voltage vm' th')) (0, 0)))
               vm th col (fst x) /\
    partial_at (fun vm' th' => snd (nth k (busPower Y (voltage vm' th')) (0, 0)))
               vm th col (snd x).

(** A one-bus network with self-admittance 1, at magnitude 1 and angle 0,
    where [S_bus = v^2]: a stand-in for pypower that returns the derivative
    blocks of this operating point. *)
Definition one_bus_dSbus_dV (Y : matrix (R * R)) (V : list (R * R))
  : res (matrix (R * R) * matrix (R * R)) :=
  Ok (Matrix 1 [[(2, 0)]], Matrix 1 [[(0, 0)]]).

Definition one_bus_pypower : Pypower := {|
  F_BUS := 0;
  T_BUS := 1;
  makeYbus := fun _ _ _ => Ok (Matrix 1 [[(1, 0)]], Matrix 1 [], Matrix 1 []);
  dSbus_dV := one_bus_dSbus_dV;
  dSbr_dV := fun _ _ _ _ => Raise ValueError;
  dIbr_dV := fun _ _ _ _ => Raise ValueError;
|}.

Definition one_bus_eppci : EPPCI.t := {|
  EPPCI.bus := Matrix 1 [[0]];
  EPPCI.branch := Matrix 3 [];
  EPPCI.baseMVA := 100;
  EPPCI.bus_baseKV := [110];
  EPPCI.num_non_slack_bus := 0;
  EPPCI.non_slack_buses := [];
  EPPCI.delta_v_bus_mask := [false; true];
  EPPCI.non_nan_meas_mask := [false; false; true];
  EPPCI.any_i_meas := false;
  EPPCI.z := [1];
  EPPCI.r_cov := [1];
  EPPCI.v_init := [1];
  EPPCI.delta_init := [0];
  EPPCI.internal := None;
|}.

Definition one_bus : BaseAlgebra := {|
  eppci := EPPCI.set_internal one_bus_eppci
             (Matrix 1 [], Matrix 1 [], Matrix 1 [[(1, 0)]]);
  fb := [];
  tb := [];
  n_bus := 1;
  n_branch := 0;
  baseMVA := 100;
  bus_baseKV := [110];
  num_non_slack_bus := 0;
  non_slack_buses := [];
  delta_v_bus_mask := [false; true];
  non_nan_meas_mask := [false; false; true];
  any_i_meas := false;
  delta_v_bus_selector := [1%Z];
  non_nan_meas_selector := [2%Z];
  z := [1];
  sigma := [1];
  Ybus := Matrix 1 [[(1, 0)]];
  Yf := Matrix 1 [];
  Yt := Matrix 1 [];
  v := [1];
  delta := [0];
|}.

End Exact.

(** ** Further objects and runs, for the error paths and the call sequences *)

Module Fixed_cases.
Import Fixed.
Local Open Scope Z_scope.

(** The two-bus network of [two_bus] with the list of non-slack buses and
    the measured values given. *)
Definition two_bus_case (nsb : list Z) (zs : list Z) : EPPCI.t := {|
  EPPCI.bus := Matrix 1 [[0]; [scale]];
  EPPCI.branch := Matrix 3 [[(0, 0); (scale, 0); (scale, -2 * scale)]];
  EPPCI.baseMVA := 100 * scale;
  EPPCI.bus_baseKV := [110 * scale; 110 * scale];
  EPPCI.num_non_slack_bus := 1;
  EPPCI.non_slack_buses := nsb;
  EPPCI.delta_v_bus_mask := [false; true; true; true];
  EPPCI.non_nan_meas_mask := replicate 12 true;
  EPPCI.any_i_meas := true;
  EPPCI.z := zs;
  EPPCI.r_cov := replicate 12 scale;
  EPPCI.v_init := [scale; scale];
  EPPCI.delta_init := [0; 0];
  EPPCI.internal := None;
|}.

(** A network of the reference bus alone, with one branch from the bus to
    itself: nine measurement slots and the two state variables of the one
    bus. *)
Definition single_bus_eppci : EPPCI.t := {|
  EPPCI.bus := Matrix 1 [[0]];
  EPPCI.branch := Matrix 3 [[(0, 0); (0, 0); (scale, -2 * scale)]];
  EPPCI.baseMVA := 100 * scale;
  EPPCI.bus_baseKV := [110 * scale];
  EPPCI.num_non_slack_bus := 0;
  EPPCI.non_slack_buses := [];
  EPPCI.delta_v_bus_mask := [false; true];
  EPPCI.non_nan_meas_mask := replicate 9 true;
  EPPCI.any_i_meas := true;
  EPPCI.z := replicate 9 0;
  EPPCI.r_cov := replicate 9 scale;
  EPPCI.v_init := [scale];
  EPPCI.delta_init := [0];
  EPPCI.internal := None;
|}.

(** The object [BaseAlgebra(e)], for a ppci on which the constructor
    returns. *)
Definition object_of (e : EPPCI.t) : BaseAlgebra :=
  match __init__ e with
  | Ok s => s
  | Raise _ => algebra
  end.

(** The non-slack bus list names bus 2 of a two-bus network. *)
Definition bad_bus : BaseAlgebra := object_of (two_bus_case [2] (replicate 12 0)).

(** Three measured values for twelve observed slots. *)
Definition wrong_z : BaseAlgebra := object_of (two_bus_case [1] [0; 0; 0]).
Definition wrong_z_decoded : BaseAlgebra :=
  set_delta (set_v wrong_z [100000; 98000]) [0; 10000].

(** A measurement mask of five entries where the network has twelve slots. *)
Definition short_mask : BaseAlgebra := algebra_with (replicate 5 true) true.

(** Every slot observed, the current slots among them, but the flag off. *)
Definition flag_off : BaseAlgebra := algebra_with (replicate 12 true) false.
Definition flag_off_decoded : BaseAlgebra :=
  set_delta (set_v flag_off [100000; 98000]) [0; 10000].

(** The one-bus object and its state vector [magnitude of bus 0] = [1.0]. *)
Definition single_bus : BaseAlgebra := object_of single_bus_eppci.
Definition E1 : list Z := [scale].
Definition single_bus_decoded : BaseAlgebra := set_delta (set_v single_bus [scale]) [0].

(** What the methods return on [algebra] at [E0]. *)
Definition hx0 : list Z :=
  Eval vm_compute in
    match create_hx E0 algebra with
    | Ok (hx, _) => hx
    | Raise _ => []
    end.

Definition rx0 : list Z :=
  Eval vm_compute in
    match create_rx E0 algebra with
    | Ok (r, _) => r
    | Raise _ => []
    end.

Definition J0 : matrix Z :=
  Eval vm_compute in
    match create_hx_jacobian E0 algebra with
    | Ok (J, _) => J
    | Raise _ => Matrix 0 []
    end.

(** The zero-injection constraints on the active power of bus 0 and the
    reactive power of bus 1. *)
Definition cx0 : list Z :=
  Eval vm_compute in
    match BaseAlgebraZeroInjConstraints.create_cx E0 [0] [1] algebra with
    | Ok (c, _) => c
    | Raise _ => []
    end.

Definition Jc0 : matrix Z :=
  Eval vm_compute in
    match BaseAlgebraZeroInjConstraints.create_cx_jacobian E0 [0] [1] algebra with
    | Ok (J, _) => J
    | Raise _ => Matrix 0 []
    end.

(** The decoupled Jacobian of the one-bus object at [E1]: the magnitude
    column, with the magnitude block of [_dVbus_dv] as one entry between
    the six power entries and the two current entries. *)
Definition Jd1 : matrix cell :=
  Matrix 1 [[CComplex (0, 0)]; [CComplex (0, 0)]; [CComplex (0, 0)];
            [CComplex (0, 0)]; [CComplex (0, 0)]; [CComplex (0, 0)];
            [CSparse (Matrix 1 [[scale]])];
            [CFloat 0]; [CFloat 0]].

End Fixed_cases.

(** * Properties *)

(** ** The error and state monads *)

Lemma res_bind_inv {A B} (m : res A) (k : A -> res B) (b : B) :
  (m ≫= k) = Ok b -> exists a, m = Ok a /\ k a = Ok b.
Proof. destruct m as [a|e]; simpl; [eauto | discriminate]. Qed.

Lemma M_bind_inv `{Scalars} {A B} (m : M A) (k : A -> M B) s b s2 :
  (m ≫= k) s = Ok (b, s2) ->
  exists a s1, m s = Ok (a, s1) /\ k a s1 = Ok (b, s2).
Proof.
  unfold mbind, M_bind. destruct (m s) as [[a s1]|e]; [eauto | discriminate].
Qed.

Lemma M_bind_Ok `{Scalars} {A B} (m : M A) (k : A -> M B) s a s1 :
  m s = Ok (a, s1) -> (m ≫= k) s = k a s1.
Proof. unfold mbind, M_bind. intros ->. reflexivity. Qed.

Lemma lift_inv `{Scalars} {A} (r : res A) s a s' :
  lift r s = Ok (a, s') -> r = Ok a /\ s' = s.
Proof. unfold lift. destruct r; intros [= <- <-]; auto. Qed.

Lemma res_mapM_Ok {A B} (f : A -> res B) (g : A -> B) (l : list A) :
  Forall (fun x => f x = Ok (g x)) l -> res_mapM f l = Ok (List.map g l).
Proof.
  induction 1 as [|x l Hx _ IH]; simpl; [reflexivity|].
  rewrite Hx. simpl. rewrite IH. reflexivity.
Qed.

Lemma res_mapM_length {A B} (f : A -> res B) (l : list A) (k : list B) :
  res_mapM f l = Ok k -> length k = length l.
Proof.
  revert k. induction l as [|x l IH]; simpl; intros k.
  - intros [= <-]. reflexivity.
  - destruct (f x) as [y|]; simpl; [|discriminate].
    destruct (res_mapM f l) as [ys|]; simpl; [|discriminate].
    intros [= <-]. simpl. f_equal. auto.
Qed.

(** ** numpy indexing *)

Lemma index_in_range (n : nat) (i : Z) :
  (0 <= i < Z.of_nat n)%Z -> Np.index n i = Ok (Z.to_nat i).
Proof.
  intros Hi. unfold Np.index.
  destruct (Z.leb_spec 0 i); [|lia]. destruct (Z.ltb_spec i (Z.of_nat n)); [|lia].
  reflexivity.
Qed.

Lemma index_bound (n : nat) (i : Z) (k : nat) :
  Np.index n i = Ok k -> k < n.
Proof.
  unfold Np.index.
  destruct (Z.leb_spec 0 i), (Z.ltb_spec i (Z.of_nat n)); simpl;
    try (intros [= <-]; lia);
    destruct (Z.leb_spec (- Z.of_nat n) i), (Z.ltb_spec i 0); simpl;
    try discriminate; intros [= <-]; lia.
Qed.

Lemma indices_in_range (n : nat) (idx : list Z) :
  Forall (fun i => (0 <= i < Z.of_nat n)%Z) idx ->
  res_mapM (Np.index n) idx = Ok (List.map Z.to_nat idx).
Proof.
  intros Hr. apply res_mapM_Ok. eapply Forall_impl; [exact Hr|].
  intros i Hi. simpl. apply index_in_range, Hi.
Qed.

Lemma take_in_range {A} (a : list A) (idx : list Z) (d : A) :
  Forall (fun i => (0 <= i < Z.of_nat (length a))%Z) idx ->
  Np.take a idx = Ok (List.map (fun i => nth (Z.to_nat i) a d) idx).
Proof.
  intros Hr. unfold Np.take. apply res_mapM_Ok.
  eapply Forall_impl; [exact Hr|]. intros i Hi. simpl in *.
  rewrite index_in_range by exact Hi. simpl.
  destruct (a !! Z.to_nat i) as [x|] eqn:Hx.
  - f_equal. symmetry. apply nth_lookup_Some with (d := d) in Hx. exact Hx.
  - apply lookup_ge_None in Hx. lia.
Qed.

Lemma take_length {A} (a : list A) (idx : list Z) (r : list A) :
  Np.take a idx = Ok r -> length r = length idx.
Proof. apply res_mapM_length. Qed.

Lemma broadcast_to_same {A} (n : nat) (vals : list A) :
  length vals = n -> Np.broadcast_to n vals = Ok vals.
Proof. intros Hn. unfold Np.broadcast_to. rewrite Hn, Nat.eqb_refl. reflexivity. Qed.

Lemma bcast2_same {A B D} (f : A -> B -> D) (a : list A) (b : list B) :
  length a = length b -> Np.bcast2 f a b = Ok (zip_with f a b).
Proof. intros Hn. unfold Np.bcast2. rewrite Hn, Nat.eqb_refl. reflexivity. Qed.

Lemma compress_same {A} (mask : list bool) (a : list A) :
  length mask = length a -> Np.compress mask a = Ok (Np.compress_go mask a).
Proof. intros Hn. unfold Np.compress. rewrite Hn, Nat.eqb_refl. reflexivity. Qed.

(** ** In-place stores *)

Lemma store_length {A} (a : list A) (idx : list nat) (vals : list A) :
  length (Np.store a idx vals) = length a.
Proof.
  revert a vals. induction idx as [|i idx IH]; intros a [|x vals]; simpl; auto.
  rewrite IH. apply length_insert.
Qed.

Lemma store_lookup_other {A} (a : list A) (idx : list nat) (vals : list A) (k : nat) :
  k ∉ idx -> Np.store a idx vals !! k = a !! k.
Proof.
  revert a vals. induction idx as [|i idx IH]; intros a [|x vals] Hk; simpl; auto.
  apply not_elem_of_cons in Hk as [Hne Hk].
  rewrite IH by exact Hk. apply list_lookup_insert_ne. congruence.
Qed.

Lemma store_lookup_at {A} (a : list A) (idx : list nat) (vals : list A) (i k : nat) :
  NoDup idx -> length vals = length idx -> Forall (fun j => j < length a) idx ->
  idx !! i = Some k -> Np.store a idx vals !! k = vals !! i.
Proof.
  revert a vals i.
  induction idx as [|i0 idx IH]; intros a vals i Hu Hl Hr Hi; [discriminate|].
  destruct vals as [|x vals]; [discriminate|]. simpl.
  apply NoDup_cons in Hu as [Hnotin Hu].
  apply Forall_cons in Hr as [Hi0 Hr].
  destruct i as [|i]; simpl in *.
  - injection Hi as ->. rewrite store_lookup_other by exact Hnotin.
    apply list_lookup_insert_eq. exact Hi0.
  - apply IH; auto.
    eapply Forall_impl; [exact Hr|]. intros j Hj. simpl. rewrite length_insert. exact Hj.
Qed.

Lemma store_lookup {A} (a : list A) (idx : list nat) (vals : list A) (k : nat) :
  Np.store a idx vals !! k =
  match last_stored k idx vals with
  | Some y => (fun _ => y) <$> a !! k
  | None => a !! k
  end.
Proof.
  revert a vals. induction idx as [|i idx IH]; intros a [|x vals]; simpl; auto.
  rewrite IH. destruct (last_stored k idx vals) as [y|].
  - destruct (decide (i = k)) as [->|Hne].
    + destruct (a !! k) as [w|] eqn:Hk.
      * rewrite list_lookup_insert_eq; [reflexivity|]. eapply lookup_lt_Some, Hk.
      * rewrite lookup_ge_None_2; [reflexivity|].
        rewrite length_insert. apply lookup_ge_None. exact Hk.
    + rewrite list_lookup_insert_ne by exact Hne. reflexivity.
  - destruct (decide (i = k)) as [->|Hne].
    + destruct (a !! k) as [w|] eqn:Hk.
      * rewrite list_lookup_insert_eq; [reflexivity|]. eapply lookup_lt_Some, Hk.
      * rewrite lookup_ge_None_2; [reflexivity|].
        rewrite length_insert. apply lookup_ge_None. exact Hk.
    + rewrite list_lookup_insert_ne by exact Hne. reflexivity.
Qed.

Lemma store_twice {A} (a : list A) (idx : list nat) (vals : list A) :
  Np.store (Np.store a idx vals) idx vals = Np.store a idx vals.
Proof.
  apply list_eq. intros k. rewrite (store_lookup (Np.store a idx vals)).
  rewrite store_lookup. destruct (last_stored k idx vals); [|reflexivity].
  destruct (a !! k); reflexivity.
Qed.

Lemma put_twice {A} (a : list A) (idx : list Z) (vals a' : list A) :
  Np.put a idx vals = Ok a' -> Np.put a' idx vals = Ok a'.
Proof.
  unfold Np.put. intros Hp.
  apply res_bind_inv in Hp as (xs & Hxs & Hp).
  apply res_bind_inv in Hp as (ks & Hks & Hp).
  injection Hp as <-. rewrite store_length, Hxs. simpl. rewrite Hks. simpl.
  rewrite store_twice. reflexivity.
Qed.

Lemma put_length {A} (a : list A) (idx : list Z) (vals a' : list A) :
  Np.put a idx vals = Ok a' -> length a' = length a.
Proof.
  unfold Np.put. intros Hp.
  apply res_bind_inv in Hp as (xs & Hxs & Hp).
  apply res_bind_inv in Hp as (ks & Hks & Hp).
  injection Hp as <-. apply store_length.
Qed.

(** ** Decoding the state vector, and what the methods write *)

Section Decode.
Context `{Scalars} `{!Pypower}.

Lemma e2v_unfold (E : list real) (s : BaseAlgebra) :
  _e2v E s =
  match Np.put (delta s) (non_slack_buses s) (take (num_non_slack_bus s) E) with
  | Ok d' => Ok ((drop (num_non_slack_bus s) E, d'),
                 set_delta (set_v s (drop (num_non_slack_bus s) E)) d')
  | Raise e => Raise e
  end.
Proof.
  unfold _e2v, mbind, M_bind, get, put, lift. simpl.
  destruct (Np.put _ _ _); reflexivity.
Qed.

Lemma e2v_result (E : list real) (s s' : BaseAlgebra) (x : list real * list real) :
  _e2v E s = Ok (x, s') ->
  x = (v s', delta s') /\
  s' = set_delta (set_v s (drop (num_non_slack_bus s) E)) (delta s') /\
  Np.put (delta s) (non_slack_buses s) (take (num_non_slack_bus s) E) = Ok (delta s').
Proof.
  rewrite e2v_unfold. destruct (Np.put _ _ _) as [d'|]; [|discriminate].
  intros [= <- <-]. simpl. auto.
Qed.

Lemma e2v_twice (E : list real) (s s' : BaseAlgebra) (x : list real * list real) :
  _e2v E s = Ok (x, s') -> _e2v E s' = Ok (x, s').
Proof.
  rewrite e2v_unfold. destruct (Np.put _ _ _) as [d'|] eqn:Hp; [|discriminate].
  intros [= <- <-]. rewrite e2v_unfold. simpl.
  rewrite (put_twice _ _ _ _ Hp). reflexivity.
Qed.

Lemma reads_ret {A} (a : A) : reads (mret a).
Proof. intros s a' s' [= _ <-]. reflexivity. Qed.

Lemma reads_get : reads get.
Proof. intros s a' s' [= _ <-]. reflexivity. Qed.

Lemma reads_lift {A} (r : res A) : reads (lift r).
Proof. intros s a s' Hl. apply lift_inv in Hl as [_ ->]. reflexivity. Qed.

Lemma reads_bind {A B} (m : M A) (k : A -> M B) :
  reads m -> (forall a, reads (k a)) -> reads (m ≫= k).
Proof.
  intros Hm Hk s b s2 Hb. apply M_bind_inv in Hb as (a & s1 & H1 & H2).
  apply Hm in H1 as ->. apply Hk in H2. exact H2.
Qed.

Lemma after_e2v {A} (k : list real * list real -> M A) E s r s' :
  (forall x, reads (k x)) ->
  (_e2v E ≫= k) s = Ok (r, s') ->
  _e2v E s = Ok ((v s', delta s'), s') /\ k (v s', delta s') s' = Ok (r, s').
Proof.
  intros Hk Hb. apply M_bind_inv in Hb as (x & s1 & He & Hr).
  pose proof (Hk x _ _ _ Hr) as ->.
  pose proof (e2v_result _ _ _ _ He) as (-> & _ & _). auto.
Qed.

End Decode.

Ltac reads_tac :=
  repeat first
    [ apply reads_ret | apply reads_get | apply reads_lift
    | apply reads_bind; [|intros ?]
    | match goal with
      | |- reads (match ?x with _ => _ end) => destruct x
      | |- reads (let (_, _) := ?x in _) => destruct x
      end ].

Section Reads.
Context `{Scalars} `{!Pypower}.

Lemma reads_dSbus_dv V : reads (_dSbus_dv V).
Proof. unfold _dSbus_dv. reads_tac. Qed.

Lemma reads_dSbr_dv V : reads (_dSbr_dv V).
Proof. unfold _dSbr_dv. reads_tac. Qed.

Lemma reads_dVbus_dv V : reads (_dVbus_dv V).
Proof. unfold _dVbus_dv. reads_tac. Qed.

Lemma reads_dibr_dv V : reads (_dibr_dv V).
Proof. unfold _dibr_dv. reads_tac. Qed.

End Reads.

Section Voltage_state.
Context `{Scalars} `{!Pypower}.

Lemma init_delta (e : EPPCI.t) (s : BaseAlgebra) :
  __init__ e = Ok s ->
  delta s = EPPCI.delta_init e /\ v s = EPPCI.v_init e /\
  non_nan_meas_selector s = Np.flatnonzero (non_nan_meas_mask s) /\
  delta_v_bus_selector s = Np.flatnonzero (delta_v_bus_mask s).
Proof.
  unfold __init__, initialize_Y. intros Hi.
  apply res_bind_inv in Hi as (fcol & _ & Hi).
  apply res_bind_inv in Hi as (tcol & _ & Hi).
  apply res_bind_inv in Hi as ([e' [[Yb Yf'] Yt']] & _ & Hi).
  injection Hi as <-. simpl. auto.
Qed.

Lemma e2v_unchanged (E : list real) (s s' : BaseAlgebra) x :
  _e2v E s = Ok (x, s') -> unchanged_configuration s s'.
Proof.
  rewrite e2v_unfold. destruct (Np.put _ _ _); [|discriminate].
  intros [= _ <-]. unfold unchanged_configuration. simpl. tauto.
Qed.

Lemma e2v_then_reads {A} (k : list real * list real -> M A) E s r s' :
  (forall x, reads (k x)) ->
  (_e2v E ≫= k) s = Ok (r, s') -> unchanged_configuration s s'.
Proof.
  intros Hk Hb. apply after_e2v in Hb as [He _]; [|exact Hk].
  eapply e2v_unchanged, He.
Qed.

(** C3.  Decoding a state vector [E] of length [num_non_slack_bus + n_bus]
    returns: [v] becomes the last [n_bus] entries of [E]; the angle at the
    i-th non-slack bus becomes the i-th entry of [E]; every other angle, the
    reference bus's among them, keeps the value it held, which is that of
    [delta_init] when the object has just been built. *)
Theorem e2v_decodes (self : BaseAlgebra) (E : list real)
  (HE : length E = num_non_slack_bus self + n_bus self)
  (Hn : length (non_slack_buses self) = num_non_slack_bus self)
  (Hd : length (delta self) = n_bus self)
  (Hr : Forall (fun b => (0 <= b < Z.of_nat (n_bus self))%Z) (non_slack_buses self))
  (Hu : NoDup (non_slack_buses self)) :
  exists self',
    _e2v E self = Ok ((v self', delta self'), self') /\
    v self' = drop (length E - n_bus self) E /\
    length (v self') = n_bus self /\
    length (delta self') = n_bus self /\
    (forall i b, non_slack_buses self !! i = Some b ->
                 i < num_non_slack_bus self /\
                 delta self' !! Z.to_nat b = E !! i) /\
    (forall k, Z.of_nat k ∉ non_slack_buses self ->
               delta self' !! k = delta self !! k) /\
    (forall e, __init__ e = Ok self ->
       forall k, Z.of_nat k ∉ non_slack_buses self ->
                 delta self' !! k = EPPCI.delta_init e !! k).
Proof.
  set (n := num_non_slack_bus self) in *.
  assert (Hput : Np.put (delta self) (non_slack_buses self) (take n E) =
                 Ok (Np.store (delta self) (List.map Z.to_nat (non_slack_buses self))
                              (take n E))).
  { unfold Np.put. rewrite Hd, indices_in_range by exact Hr. simpl.
    rewrite broadcast_to_same; [reflexivity|]. rewrite length_take. lia. }
  exists (set_delta (set_v self (drop n E))
            (Np.store (delta self) (List.map Z.to_nat (non_slack_buses self)) (take n E))).
  assert (Hother : forall k, Z.of_nat k ∉ non_slack_buses self ->
            Np.store (delta self) (List.map Z.to_nat (non_slack_buses self)) (take n E) !! k
            = delta self !! k).
  { intros k Hk. apply store_lookup_other. intros Hin.
    apply list_elem_of_fmap in Hin as (b & -> & Hb).
    rewrite Forall_forall in Hr. specialize (Hr b Hb). simpl in Hr.
    rewrite Z2Nat.id in Hk by lia. contradiction. }
  simpl. repeat split.
  - rewrite e2v_unfold. fold n. rewrite Hput. reflexivity.
  - f_equal. lia.
  - rewrite length_drop. lia.
  - rewrite store_length. exact Hd.
  - apply lookup_lt_Some in H1. lia.
  - rewrite (store_lookup_at _ _ _ i (Z.to_nat b)).
    + apply lookup_take_lt. apply lookup_lt_Some in H1. lia.
    + apply NoDup_fmap_2_strong; [|exact Hu].
      intros x y Hx Hy Hxy. rewrite Forall_forall in Hr.
      pose proof (Hr x Hx). pose proof (Hr y Hy). simpl in *. lia.
    + rewrite length_take, length_map. lia.
    + apply Forall_forall. intros j Hj.
      apply list_elem_of_fmap in Hj as (b' & -> & Hb').
      rewrite Forall_forall in Hr. specialize (Hr b' Hb'). simpl in Hr. lia.
    + rewrite list_lookup_fmap, H1. reflexivity.
  - exact Hother.
  - intros e He k Hk. rewrite Hother by exact Hk.
    apply init_delta in He as (-> & _). reflexivity.
Qed.

(** C8.  A second call of [create_rx] with the same [E] returns the same
    residual and leaves the object as the first call left it. *)
Theorem create_rx_twice (E : list real) (s s' : BaseAlgebra) (r : list real) :
  create_rx E s = Ok (r, s') -> create_rx E s' = Ok (r, s').
Proof.
  unfold create_rx. intros Hc.
  apply M_bind_inv in Hc as (hx & s1 & Hhx & Hz).
  assert (s' = s1) as ->.
  { revert Hz. generalize s1, r, s'. fold (reads (self ← get; lift (Np.bcast2 Fsub (z self) hx))).
    reads_tac. }
  rewrite (M_bind_Ok (create_hx E) _ s1 hx s1); [exact Hz|].
  unfold create_hx in Hhx |- *.
  apply after_e2v in Hhx as [He Hk];
    [|intros [v0 d0]; reads_tac].
  apply e2v_twice in He.
  rewrite (M_bind_Ok _ _ _ _ _ He). exact Hk.
Qed.

(** C10.  A returning call of [create_rx], [create_hx],
    [create_hx_jacobian], [create_cx] or [create_cx_jacobian] leaves every
    attribute other than [v] and [delta] as it was: the admittance matrices,
    both masks, both selectors, [z] and [sigma] among them. *)
Theorem public_call_frame (s s' : BaseAlgebra) :
  public_call s s' -> unchanged_configuration s s'.
Proof.
  intros [E s0 r s1 Hc|E s0 r s1 Hc|E s0 r s1 Hc|E p q s0 r s1 Hc|E p q s0 r s1 Hc].
  - unfold create_rx in Hc. apply M_bind_inv in Hc as (hx & s2 & Hhx & Hz).
    assert (s1 = s2) as ->.
    { revert Hz. generalize s2, r, s1.
      fold (reads (self ← get; lift (Np.bcast2 Fsub (z self) hx))). reads_tac. }
    unfold create_hx in Hhx. eapply e2v_then_reads; [|exact Hhx].
    intros [v0 d0]; reads_tac.
  - unfold create_hx in Hc. eapply e2v_then_reads; [|exact Hc].
    intros [v0 d0]; reads_tac.
  - unfold create_hx_jacobian in Hc. eapply e2v_then_reads; [|exact Hc].
    intros [v0 d0].
    pose proof reads_dSbus_dv. pose proof reads_dSbr_dv.
    pose proof reads_dVbus_dv. pose proof reads_dibr_dv.
    reads_tac; auto.
  - unfold BaseAlgebraZeroInjConstraints.create_cx in Hc.
    eapply e2v_then_reads; [|exact Hc]. intros [v0 d0]; reads_tac.
  - unfold BaseAlgebraZeroInjConstraints.create_cx_jacobian in Hc.
    eapply e2v_then_reads; [|exact Hc]. intros [v0 d0].
    pose proof reads_dSbus_dv. reads_tac; auto.
Qed.

End Voltage_state.

(** ** Masks and selectors *)

Lemma flatnonzero_from_shift (k : nat) (mask : list bool) :
  Np.flatnonzero_from (S k) mask = List.map S (Np.flatnonzero_from k mask).
Proof.
  revert k. induction mask as [|b mask IH]; intros k; simpl; [reflexivity|].
  destruct b; simpl; rewrite IH; reflexivity.
Qed.

Lemma flatnonzero_from_bound (k : nat) (mask : list bool) :
  Forall (fun i => k <= i < k + length mask) (Np.flatnonzero_from k mask).
Proof.
  revert k. induction mask as [|b mask IH]; intros k; simpl; [constructor|].
  specialize (IH (S k)).
  assert (Forall (fun i => k <= i < k + S (length mask))
                 (Np.flatnonzero_from (S k) mask)).
  { eapply Forall_impl; [exact IH|]. simpl. intros; lia. }
  destruct b; [constructor; [lia|]|]; assumption.
Qed.

Lemma omap_lookup_cons {A} (x : A) (a : list A) (l : list nat) :
  omap (fun i => (x :: a) !! i) (List.map S l) = omap (fun i => a !! i) l.
Proof.
  unfold omap. induction l as [|i l IHl]; simpl; [reflexivity|].
  rewrite IHl. reflexivity.
Qed.

Lemma compress_restricted {A} (mask : list bool) (a : list A) :
  length mask = length a -> Np.compress_go mask a = restricted mask a.
Proof.
  unfold restricted. revert a.
  induction mask as [|b mask IH]; intros [|x a] Hl; simpl in *; try discriminate;
    [reflexivity|].
  injection Hl as Hl. rewrite flatnonzero_from_shift.
  pose proof (omap_lookup_cons x a (Np.flatnonzero_from 0 mask)) as Hs.
  unfold omap in *.
  destruct b; simpl; rewrite Hs, <- IH by exact Hl; reflexivity.
Qed.

Lemma compress_go_length {A} (mask : list bool) (a : list A) :
  length mask = length a ->
  length (Np.compress_go mask a) = length (Np.flatnonzero mask).
Proof.
  unfold Np.flatnonzero. rewrite length_map. revert a.
  induction mask as [|b mask IH]; intros [|x a] Hl; simpl in *; try discriminate;
    [reflexivity|].
  injection Hl as Hl. rewrite flatnonzero_from_shift.
  destruct b; simpl; rewrite length_map, (IH a Hl); reflexivity.
Qed.

(** ** The measurement function *)

Section Measurements.
Context `{Scalars} `{!Pypower}.

Lemma bind_lift {A B} (r : res A) (a : A) (k : A -> M B) s :
  r = Ok a -> (lift r ≫= k) s = k a s.
Proof. intros ->. reflexivity. Qed.

Lemma bind_get {B} (k : BaseAlgebra -> M B) s : (get ≫= k) s = k s s.
Proof. reflexivity. Qed.

Lemma bind_ret {A B} (a : A) (k : A -> M B) s : ((mret a : M A) ≫= k) s = k a s.
Proof. reflexivity. Qed.

Lemma bind_assoc {A B D} (m : M A) (k1 : A -> M B) (k2 : B -> M D) s :
  ((m ≫= k1) ≫= k2) s = (m ≫= (fun a => k1 a ≫= k2)) s.
Proof. unfold mbind, M_bind. destruct (m s) as [[a s']|]; reflexivity. Qed.

Lemma lift_Ok {A} (r : res A) (a : A) s : r = Ok a -> lift r s = Ok (a, s).
Proof. intros ->. reflexivity. Qed.

Lemma e2v_returns (s : BaseAlgebra) (E : list real) :
  consistent s -> length E = num_non_slack_bus s + n_bus s ->
  exists s',
    _e2v E s = Ok ((v s', delta s'), s') /\
    unchanged_configuration s s' /\
    v s' = drop (num_non_slack_bus s) E /\
    length (v s') = n_bus s /\ length (delta s') = n_bus s.
Proof.
  intros Hc HE.
  assert (Hput : Np.put (delta s) (non_slack_buses s) (take (num_non_slack_bus s) E) =
                 Ok (Np.store (delta s) (List.map Z.to_nat (non_slack_buses s))
                              (take (num_non_slack_bus s) E))).
  { unfold Np.put. rewrite (delta_length s Hc), indices_in_range by apply Hc.
    simpl. rewrite broadcast_to_same; [reflexivity|].
    rewrite length_take, (nsb_length s Hc). lia. }
  eexists (set_delta (set_v s _) _). simpl. split; [|split; [|split; [|split]]].
  - rewrite e2v_unfold, Hput. reflexivity.
  - unfold unchanged_configuration. simpl. tauto.
  - reflexivity.
  - rewrite length_drop. lia.
  - rewrite store_length. apply Hc.
Qed.

Lemma polar_voltage (v0 d0 : list real) :
  length v0 = length d0 -> polar v0 d0 = Ok (voltage v0 d0).
Proof.
  intros Hl. unfold polar, voltage. rewrite bcast2_same by (rewrite length_map; exact Hl).
  rewrite zip_with_fmap_r. reflexivity.
Qed.

Lemma voltage_length (v0 d0 : list real) :
  length v0 = length d0 -> length (voltage v0 d0) = length v0.
Proof. intros Hl. unfold voltage. rewrite length_zip_with. lia. Qed.

Lemma mat_vec_current (Y : matrix cplx) (V : list cplx) :
  ncols Y = length V -> mat_vec Y V = Ok (branchCurrent Y V).
Proof. intros Hl. unfold mat_vec. rewrite Hl, Nat.eqb_refl. reflexivity. Qed.

Lemma busPower_code (Y : matrix cplx) (V : list cplx) :
  Mat.nrows Y = length V ->
  Np.bcast2 Cmul V (List.map Cconj (branchCurrent Y V)) = Ok (busPower Y V).
Proof.
  intros Hl. unfold branchCurrent, busPower.
  rewrite bcast2_same by (rewrite !length_map; symmetry; exact Hl).
  rewrite !zip_with_fmap_r. reflexivity.
Qed.

Lemma branchPower_code (ends : list Z) (Y : matrix cplx) (V : list cplx) :
  length ends = Mat.nrows Y ->
  Np.bcast2 Cmul (List.map (fun i => nth (Z.to_nat i) V C0) ends)
                 (List.map Cconj (branchCurrent Y V)) = Ok (branchPower ends Y V).
Proof.
  intros Hl. unfold branchCurrent, branchPower.
  rewrite bcast2_same by (rewrite !length_map; exact Hl).
  rewrite !zip_with_fmap_r, zip_with_fmap_l. reflexivity.
Qed.

Lemma busPower_length (Y : matrix cplx) (V : list cplx) :
  Mat.nrows Y = length V -> length (busPower Y V) = length V.
Proof. intros Hl. unfold busPower. rewrite length_zip_with. unfold Mat.nrows in Hl. lia. Qed.

Lemma branchPower_length (ends : list Z) (Y : matrix cplx) (V : list cplx) :
  length ends = Mat.nrows Y -> length (branchPower ends Y V) = Mat.nrows Y.
Proof. intros Hl. unfold branchPower. rewrite length_zip_with. unfold Mat.nrows in *. lia. Qed.

Lemma branchCurrent_length (Y : matrix cplx) (V : list cplx) :
  length (branchCurrent Y V) = Mat.nrows Y.
Proof. unfold branchCurrent. apply length_map. Qed.

(** C1.  On an object of consistent shapes, [create_hx(E)] returns the
    concatenation [Re(S_bus), Re(S_from), Re(S_to), Im(S_bus), Im(S_from),
    Im(S_to), v, |I_from|, |I_to|], computed from the decoded
    [V = v * exp(i * delta)], restricted to the positions where
    [non_nan_meas_mask] is true, in their order. *)
Theorem create_hx_measurements (self : BaseAlgebra) (E : list real)
  (Hc : consistent self)
  (HE : length E = num_non_slack_bus self + n_bus self) :
  exists self',
    _e2v E self = Ok ((v self', delta self'), self') /\
    create_hx E self =
      Ok (restricted (non_nan_meas_mask self) (all_measurements self'), self') /\
    length (all_measurements self') = length (non_nan_meas_mask self).
Proof.
  destruct (e2v_returns self E Hc HE) as (s1 & He & Hu & Hv & Hlv & Hld).
  destruct Hu as (_ & Hfb & Htb & Hnb & Hnbr & _ & _ & _ & _ & _ &
                  HYbus & HYf & HYt & Hmask & _).
  exists s1. split; [exact He|].
  set (V := voltage (v s1) (delta s1)).
  assert (HlV : length V = n_bus self).
  { unfold V. rewrite voltage_length; lia. }
  assert (HYb : Mat.nrows (Ybus s1) = length V)
    by (rewrite HYbus, HlV; apply Hc).
  assert (HYfr : Mat.nrows (Yf s1) = n_branch self) by (rewrite HYf; apply Hc).
  assert (HYtr : Mat.nrows (Yt s1) = n_branch self) by (rewrite HYt; apply Hc).
  assert (Hfbl : length (fb s1) = Mat.nrows (Yf s1))
    by (rewrite HYfr, Hfb; apply Hc).
  assert (Htbl : length (tb s1) = Mat.nrows (Yt s1))
    by (rewrite HYtr, Htb; apply Hc).
  assert (Hlen : length (all_measurements s1) = length (non_nan_meas_mask self)).
  { unfold all_measurements. fold V.
    rewrite !length_app, !length_map, !(busPower_length _ _ HYb),
      !(branchPower_length _ _ _ Hfbl), !(branchPower_length _ _ _ Htbl),
      !branchCurrent_length, HlV, HYfr, HYtr, Hlv, (meas_mask_length self Hc).
    lia. }
  split; [|exact Hlen].
  unfold create_hx. rewrite (M_bind_Ok _ _ _ _ _ He). cbv beta iota.
  rewrite bind_get.
  rewrite (bind_lift _ V) by (apply polar_voltage; lia).
  assert (Hfr : Forall (fun i => (0 <= i < Z.of_nat (length V))%Z) (fb s1))
    by (rewrite Hfb, HlV; apply Hc).
  assert (Htr : Forall (fun i => (0 <= i < Z.of_nat (length V))%Z) (tb s1))
    by (rewrite Htb, HlV; apply Hc).
  rewrite (bind_lift _ _ _ _ (take_in_range V (fb s1) C0 Hfr)).
  rewrite (bind_lift _ (branchCurrent (Yf s1) V))
    by (apply mat_vec_current; rewrite HYf, HlV; apply Hc).
  rewrite (bind_lift _ (branchPower (fb s1) (Yf s1) V))
    by (apply branchPower_code; exact Hfbl).
  rewrite (bind_lift _ _ _ _ (take_in_range V (tb s1) C0 Htr)).
  rewrite (bind_lift _ (branchCurrent (Yt s1) V))
    by (apply mat_vec_current; rewrite HYt, HlV; apply Hc).
  rewrite (bind_lift _ (branchPower (tb s1) (Yt s1) V))
    by (apply branchPower_code; exact Htbl).
  rewrite (bind_lift _ (branchCurrent (Ybus s1) V))
    by (apply mat_vec_current; rewrite HYbus, HlV; apply Hc).
  rewrite (bind_lift _ (busPower (Ybus s1) V))
    by (apply busPower_code; exact HYb).
  rewrite (bind_lift _ (branchCurrent (Yf s1) V))
    by (apply mat_vec_current; rewrite HYf, HlV; apply Hc).
  rewrite (bind_lift _ (branchCurrent (Yt s1) V))
    by (apply mat_vec_current; rewrite HYt, HlV; apply Hc).
  cbv zeta. apply lift_Ok.
  fold (all_measurements s1). rewrite Hmask.
  rewrite compress_same by (symmetry; exact Hlen).
  rewrite compress_restricted by (symmetry; exact Hlen). reflexivity.
Qed.

End Measurements.

(** ** Stacking and projecting matrices *)

Lemma take_selector {A} (a : list A) (sel : list nat) :
  Forall (fun i => i < length a) sel ->
  Np.take a (List.map Z.of_nat sel) = Ok (omap (fun i => a !! i) sel).
Proof.
  unfold Np.take, omap. induction 1 as [|i sel Hi _ IH]; simpl; [reflexivity|].
  rewrite index_in_range by lia. simpl. rewrite Nat2Z.id.
  destruct (a !! i) as [x|] eqn:Hx; [|apply lookup_ge_None in Hx; lia].
  simpl. rewrite IH. reflexivity.
Qed.

Lemma restricted_length {A} (mask : list bool) (a : list A) :
  Forall (fun i => i < length a) (Np.flatnonzero_from 0 mask) ->
  length (restricted mask a) = length (Np.flatnonzero_from 0 mask).
Proof.
  unfold restricted, omap. induction 1 as [|i sel Hi _ IH]; simpl; [reflexivity|].
  destruct (a !! i) as [x|] eqn:Hx; [|apply lookup_ge_None in Hx; lia].
  simpl. rewrite IH. reflexivity.
Qed.

Lemma restricted_app {A} (mask : list bool) (a b : list A) :
  Forall (fun i => i < length a) (Np.flatnonzero_from 0 mask) ->
  restricted mask (a ++ b) = restricted mask a.
Proof.
  unfold restricted, omap. induction 1 as [|i sel Hi _ IH]; simpl; [reflexivity|].
  rewrite lookup_app_l by exact Hi. rewrite IH. reflexivity.
Qed.

Section Matrices.
Context {A : Type}.
Implicit Types (m a b : matrix A).

Lemma matrix_eta m : Matrix (ncols m) (rows m) = m.
Proof. destruct m; reflexivity. Qed.

Lemma vconcat_same a b :
  ncols a = ncols b -> Mat.vconcat a b = Ok (Matrix (ncols a) (rows a ++ rows b)).
Proof. intros Hc. unfold Mat.vconcat. rewrite Hc, Nat.eqb_refl. reflexivity. Qed.

Lemma vstack2 a b :
  ncols a = ncols b ->
  Mat.vstack [a; b] = Ok (Matrix (ncols a) (rows a ++ rows b)).
Proof. intros Hc. simpl. apply vconcat_same, Hc. Qed.

Lemma vstack3 a b c :
  ncols a = ncols b -> ncols b = ncols c ->
  Mat.vstack [a; b; c] = Ok (Matrix (ncols a) (rows a ++ rows b ++ rows c)).
Proof.
  intros Hab Hbc. change (Mat.vstack [a; b; c])
    with (rest ← Mat.vstack [b; c]; Mat.vconcat a rest).
  rewrite (vstack2 b c Hbc). simpl. rewrite vconcat_same by exact Hab. reflexivity.
Qed.

Lemma vstack6 a b c d e f :
  ncols a = ncols b -> ncols b = ncols c -> ncols c = ncols d ->
  ncols d = ncols e -> ncols e = ncols f ->
  Mat.vstack [a; b; c; d; e; f] =
  Ok (Matrix (ncols a)
             (rows a ++ rows b ++ rows c ++ rows d ++ rows e ++ rows f)).
Proof.
  intros Hab Hbc Hcd Hde Hef.
  change (Mat.vstack [a; b; c; d; e; f])
    with (r1 ← (r2 ← (r3 ← Mat.vstack [d; e; f]; Mat.vconcat c r3);
                Mat.vconcat b r2); Mat.vconcat a r1).
  rewrite (vstack3 d e f Hde Hef). simpl.
  rewrite vconcat_same by exact Hcd. simpl.
  rewrite vconcat_same by exact Hbc. simpl.
  rewrite vconcat_same by exact Hab. reflexivity.
Qed.

Lemma hstack2 a b :
  Mat.nrows a = Mat.nrows b ->
  Mat.hstack [a; b] = Ok (Matrix (ncols a + ncols b) (beside a b)).
Proof. intros Hr. simpl. unfold Mat.hconcat. rewrite Hr, Nat.eqb_refl. reflexivity. Qed.

Lemma beside_length a b :
  Mat.nrows a = Mat.nrows b -> length (beside a b) = Mat.nrows a.
Proof. unfold beside, Mat.nrows. intros Hr. rewrite length_zip_with. lia. Qed.

Lemma beside_wf a b :
  Mat.wf a -> Mat.wf b ->
  Forall (fun r => length r = ncols a + ncols b) (beside a b).
Proof.
  unfold Mat.wf, beside. generalize (ncols a), (ncols b). intros ca cb.
  generalize (rows b). induction (rows a) as [|r rs IH]; intros [|r' rs'] Ha Hb;
    simpl; try constructor.
  - apply Forall_cons in Ha as [Hr _]. apply Forall_cons in Hb as [Hr' _].
    rewrite length_app. lia.
  - apply Forall_cons in Ha as [_ Ha]. apply Forall_cons in Hb as [_ Hb]. auto.
Qed.

Lemma select_rows_mask (mask : list bool) m :
  Forall (fun i => i < Mat.nrows m) (Np.flatnonzero_from 0 mask) ->
  Mat.select_rows (Np.flatnonzero mask) m =
  Ok (Matrix (ncols m) (restricted mask (rows m))).
Proof.
  intros Hr. unfold Mat.select_rows, Np.flatnonzero.
  rewrite (take_selector (rows m) _ Hr). reflexivity.
Qed.

Lemma select_cols_mask (mask : list bool) m :
  Mat.wf m -> length mask = ncols m ->
  Mat.select_cols (Np.flatnonzero mask) m =
  Ok (Matrix (length (Np.flatnonzero mask)) (List.map (restricted mask) (rows m))).
Proof.
  intros Hwf Hl. unfold Mat.select_cols, Np.flatnonzero.
  assert (Hb : Forall (fun i => i < ncols m) (Np.flatnonzero_from 0 mask)).
  { eapply Forall_impl; [apply flatnonzero_from_bound|]. simpl. intros; lia. }
  rewrite (indices_in_range (ncols m)).
  2:{ apply Forall_fmap. eapply Forall_impl; [exact Hb|]. simpl. intros; lia. }
  simpl. rewrite (res_mapM_Ok _ (restricted mask)); [reflexivity|].
  eapply Forall_impl; [exact Hwf|]. simpl. intros r Hlr.
  apply take_selector. rewrite Hlr. exact Hb.
Qed.

End Matrices.

Lemma flatnonzero_count (mask : list bool) (k : nat) :
  length (Np.flatnonzero_from k mask) = count_true mask.
Proof.
  revert k. induction mask as [|b mask IH]; intros k; simpl; [reflexivity|].
  destruct b; simpl; rewrite IH; reflexivity.
Qed.

(** ** The Jacobian *)

Section Jacobian.
Context `{Scalars} `{!Pypower}.

Lemma map_shape {A B} (f : A -> B) (m : matrix A) (r c : nat) :
  has_shape m r c -> has_shape (Mat.map f m) r c.
Proof.
  unfold has_shape, Mat.nrows, Mat.wf. simpl. intros (Hr & Hc & Hwf).
  rewrite length_map. repeat split; auto.
  apply Forall_fmap. eapply Forall_impl; [exact Hwf|]. simpl. intros l Hl.
  rewrite length_map. exact Hl.
Qed.

Lemma zeros_shape {A} (x : A) (r c : nat) : has_shape (Mat.zeros x r c) r c.
Proof.
  unfold has_shape, Mat.nrows, Mat.wf. simpl. rewrite length_replicate.
  repeat split. apply Forall_replicate. apply length_replicate.
Qed.

Lemma eye_shape {A} (x y : A) (r c : nat) : has_shape (Mat.eye x y r c) r c.
Proof.
  unfold has_shape, Mat.nrows, Mat.wf. simpl. rewrite length_map, length_seq.
  repeat split. apply Forall_fmap, Forall_forall. intros i _. simpl.
  rewrite length_map, length_seq. reflexivity.
Qed.

Lemma beside_app {A} (a b c d : matrix A) (x y : nat) :
  Mat.nrows a = Mat.nrows b ->
  zip_with app (rows a ++ rows c) (rows b ++ rows d) = beside a b ++ beside c d.
Proof. intros Hr. unfold beside. apply zip_with_app. exact Hr. Qed.

Lemma power_rows_stack (P : power_derivatives) (n m : nat) :
  has_shape (dSbus_dth P) n n -> has_shape (dSbus_dv P) n n ->
  has_shape (dSf_dth P) m n -> has_shape (dSf_dv P) m n ->
  has_shape (dSt_dth P) m n -> has_shape (dSt_dv P) m n ->
  zip_with app
    (rows (Mat.map Cre (dSbus_dth P)) ++ rows (Mat.map Cre (dSf_dth P)) ++
     rows (Mat.map Cre (dSt_dth P)) ++ rows (Mat.map Cim (dSbus_dth P)) ++
     rows (Mat.map Cim (dSf_dth P)) ++ rows (Mat.map Cim (dSt_dth P)))
    (rows (Mat.map Cre (dSbus_dv P)) ++ rows (Mat.map Cre (dSf_dv P)) ++
     rows (Mat.map Cre (dSt_dv P)) ++ rows (Mat.map Cim (dSbus_dv P)) ++
     rows (Mat.map Cim (dSf_dv P)) ++ rows (Mat.map Cim (dSt_dv P)))
  = power_rows P /\ length (power_rows P) = n + m + m + (n + m + m).
Proof.
  intros (H1 & _) (H2 & _) (H3 & _) (H4 & _) (H5 & _) (H6 & _).
  unfold power_rows, beside, Mat.nrows in *. simpl.
  split.
  - rewrite !zip_with_app by (rewrite !length_map; congruence). reflexivity.
  - rewrite !length_app, !length_zip_with, !length_map. lia.
Qed.

Lemma voltage_rows_length (n : nat) : length (voltage_rows n) = n.
Proof.
  unfold voltage_rows, beside. simpl.
  rewrite length_zip_with, length_replicate, length_map, length_seq. lia.
Qed.

Lemma current_rows_length (I : current_derivatives) (n m : nat) :
  has_shape (dif_dth I) m n -> has_shape (dif_dv I) m n ->
  has_shape (dit_dth I) m n -> has_shape (dit_dv I) m n ->
  length (current_rows I) = m + m.
Proof.
  intros (H1 & _) (H2 & _) (H3 & _) (H4 & _).
  unfold current_rows, beside, Mat.nrows in *.
  rewrite !length_app, !length_zip_with. lia.
Qed.

(** The matrix [jac] the method builds before it projects. *)
Lemma create_hx_jacobian_stacked (self s1 : BaseAlgebra) (E : list real)
    (P : power_derivatives) (I : current_derivatives) :
  let V := voltage (v s1) (delta s1) in
  _e2v E self = Ok ((v s1, delta s1), s1) ->
  length (v s1) = n_bus s1 -> length (delta s1) = n_bus s1 ->
  returns_power s1 V P ->
  (any_i_meas s1 = true -> returns_current s1 V I) ->
  create_hx_jacobian E self =
  (picked ← lift (Mat.select_rows (non_nan_meas_selector s1)
                    (Matrix (n_bus s1 + n_bus s1)
                            (stacked_rows (any_i_meas s1) (n_bus s1) P I)));
   lift (Mat.select_cols (delta_v_bus_selector s1) picked)) s1.
Proof.
  intros V He Hlv Hld HP HI.
  assert (HlV : length V = n_bus s1) by (unfold V; rewrite voltage_length; lia).
  destruct HP as [Hbus Hbr S1 S2 S3 S4 S5 S6].
  destruct (power_rows_stack P _ _ S1 S2 S3 S4 S5 S6) as [Hrows Hplen].
  unfold create_hx_jacobian. rewrite (M_bind_Ok _ _ _ _ _ He). cbv beta iota.
  rewrite (bind_lift _ V) by (apply polar_voltage; lia).
  rewrite (M_bind_Ok _ _ _ _ _ Hbus). cbv beta iota.
  rewrite (M_bind_Ok _ _ _ _ _ Hbr). cbv beta iota.
  unfold _dVbus_dv at 1.
  rewrite bind_ret.
  cbv beta iota. rewrite HlV.
  pose proof (map_shape Cre _ _ _ S1) as (R1a & C1a & _).
  pose proof (map_shape Cre _ _ _ S2) as (R2a & C2a & _).
  pose proof (map_shape Cre _ _ _ S3) as (R3a & C3a & _).
  pose proof (map_shape Cre _ _ _ S4) as (R4a & C4a & _).
  pose proof (map_shape Cre _ _ _ S5) as (R5a & C5a & _).
  pose proof (map_shape Cre _ _ _ S6) as (R6a & C6a & _).
  pose proof (map_shape Cim _ _ _ S1) as (R1b & C1b & _).
  pose proof (map_shape Cim _ _ _ S2) as (R2b & C2b & _).
  pose proof (map_shape Cim _ _ _ S3) as (R3b & C3b & _).
  pose proof (map_shape Cim _ _ _ S4) as (R4b & C4b & _).
  pose proof (map_shape Cim _ _ _ S5) as (R5b & C5b & _).
  pose proof (map_shape Cim _ _ _ S6) as (R6b & C6b & _).
  erewrite bind_lift; [|apply vstack6; congruence].
  erewrite bind_lift; [|apply vstack6; congruence].
  erewrite bind_lift; [|apply hstack2].
  2:{ unfold Mat.nrows in *. cbn [rows]. rewrite !length_app. lia. }
  unfold beside. cbn [rows ncols]. rewrite Hrows, C1a, C2a.
  erewrite bind_lift; [|apply hstack2].
  2:{ destruct (zeros_shape F0 (n_bus s1) (n_bus s1)) as (-> & _).
      destruct (eye_shape F0 F1 (n_bus s1) (n_bus s1)) as (-> & _). reflexivity. }
  fold (voltage_rows (n_bus s1)). cbn [ncols Mat.zeros Mat.eye].
  rewrite bind_get.
  unfold stacked_rows. destruct (any_i_meas s1) eqn:Hany; cbv beta iota.
  - destruct (HI eq_refl) as [Hcur (T1r & T1c & _) (T2r & T2c & _)
                                   (T3r & T3c & _) (T4r & T4c & _)].
    rewrite bind_assoc, (M_bind_Ok _ _ _ _ _ Hcur). cbv beta iota.
    rewrite bind_assoc. erewrite bind_lift; [|apply hstack2; congruence].
    rewrite bind_assoc. erewrite bind_lift; [|apply hstack2; congruence].
    rewrite bind_assoc. erewrite bind_lift; [|apply vstack2; cbn [ncols]; congruence].
    erewrite bind_lift; [|apply vstack3; cbn [ncols]; congruence].
    cbn [ncols rows]. rewrite bind_get. reflexivity.
  - erewrite bind_lift; [|apply vstack2; cbn [ncols]; reflexivity].
    cbn [ncols rows]. rewrite bind_get, app_nil_r. reflexivity.
Qed.

Lemma restricted_Forall {A} (Q : A -> Prop) (mask : list bool) (a : list A) :
  Forall Q a -> Forall Q (restricted mask a).
Proof.
  intros Ha. unfold restricted. apply Forall_forall. intros x Hx.
  apply list_elem_of_omap in Hx as (i & _ & Hi).
  rewrite Forall_forall in Ha. apply Ha. eapply list_elem_of_lookup_2, Hi.
Qed.

Lemma stacked_rows_wf (b : bool) (n m : nat) (P : power_derivatives)
    (I : current_derivatives) :
  has_shape (dSbus_dth P) n n -> has_shape (dSbus_dv P) n n ->
  has_shape (dSf_dth P) m n -> has_shape (dSf_dv P) m n ->
  has_shape (dSt_dth P) m n -> has_shape (dSt_dv P) m n ->
  (b = true -> has_shape (dif_dth I) m n /\ has_shape (dif_dv I) m n /\
               has_shape (dit_dth I) m n /\ has_shape (dit_dv I) m n) ->
  Forall (fun r => length r = n + n) (stacked_rows b n P I).
Proof.
  intros S1 S2 S3 S4 S5 S6 HI.
  assert (Hb : forall (x y : matrix real) k,
             has_shape x k n -> has_shape y k n ->
             Forall (fun r => length r = n + n) (beside x y)).
  { intros x y k (_ & Hx & Hwx) (_ & Hy & Hwy).
    pose proof (beside_wf x y Hwx Hwy) as Hw. rewrite Hx, Hy in Hw. exact Hw. }
  unfold stacked_rows, power_rows, voltage_rows.
  repeat apply Forall_app_2;
    try (eapply Hb; apply map_shape; eassumption).
  - eapply Hb; [apply zeros_shape|apply eye_shape].
  - destruct b; [|constructor]. destruct (HI eq_refl) as (T1 & T2 & T3 & T4).
    unfold current_rows. apply Forall_app_2; eapply Hb; eassumption.
Qed.

(** C2.  [create_hx_jacobian(E)] is the full stacked block matrix with
    first its rows, then its columns selected: the rows at the positions
    where [non_nan_meas_mask] is true and the columns at the positions where
    [delta_v_bus_mask] is true, both in increasing order; its shape is the
    pair of the numbers of true entries of the two masks. *)
Theorem create_hx_jacobian_projection (self s1 : BaseAlgebra) (E : list real)
    (P : power_derivatives) (I : current_derivatives)
  (He : _e2v E self = Ok ((v s1, delta s1), s1))
  (Hlv : length (v s1) = n_bus s1)
  (Hld : length (delta s1) = n_bus s1)
  (HP : returns_power s1 (voltage (v s1) (delta s1)) P)
  (HI : any_i_meas s1 = true -> returns_current s1 (voltage (v s1) (delta s1)) I)
  (Hrs : non_nan_meas_selector s1 = Np.flatnonzero (non_nan_meas_mask s1))
  (Hcs : delta_v_bus_selector s1 = Np.flatnonzero (delta_v_bus_mask s1))
  (Hin : Forall (fun i => i < length (stacked_rows (any_i_meas s1) (n_bus s1) P I))
                (Np.flatnonzero_from 0 (non_nan_meas_mask s1)))
  (Hcm : length (delta_v_bus_mask s1) = n_bus s1 + n_bus s1) :
  exists J,
    create_hx_jacobian E self = Ok (J, s1) /\
    rows J = List.map (restricted (delta_v_bus_mask s1))
               (restricted (non_nan_meas_mask s1)
                  (stacked_rows (any_i_meas s1) (n_bus s1) P I)) /\
    Mat.shape J = (count_true (non_nan_meas_mask s1),
                   count_true (delta_v_bus_mask s1)).
Proof.
  rewrite (create_hx_jacobian_stacked self s1 E P I He Hlv Hld HP HI).
  rewrite Hrs, Hcs.
  erewrite bind_lift; [|apply select_rows_mask; exact Hin].
  cbn [ncols].
  eexists. split; [|split].
  - apply lift_Ok. apply select_cols_mask; [|exact Hcm].
    unfold Mat.wf. cbn [rows ncols]. apply restricted_Forall.
    destruct HP as [_ _ S1 S2 S3 S4 S5 S6].
    apply (stacked_rows_wf _ _ (n_branch s1)); auto.
    intros Hb. destruct (HI Hb) as [_ T1 T2 T3 T4]. auto.
  - reflexivity.
  - unfold Mat.shape, Mat.nrows, Np.flatnonzero. cbn [rows ncols].
    rewrite !length_map, restricted_length by exact Hin.
    rewrite !flatnonzero_count. reflexivity.
Qed.

Lemma e2v_flag (E : list real) (s s1 : BaseAlgebra) x (b : bool) :
  _e2v E s = Ok (x, s1) ->
  _e2v E (set_any_i_meas s b) = Ok (x, set_any_i_meas s1 b).
Proof.
  rewrite !e2v_unfold. cbn [set_any_i_meas delta non_slack_buses num_non_slack_bus].
  destruct (Np.put _ _ _); [|discriminate]. intros [= <- <-]. reflexivity.
Qed.

Lemma returns_power_flag (s : BaseAlgebra) V P (b : bool) :
  returns_power s V P -> returns_power (set_any_i_meas s b) V P.
Proof.
  intros [Hbus Hbr S1 S2 S3 S4 S5 S6]. split; try assumption.
  - revert Hbus. unfold _dSbus_dv, mbind, M_bind, get, lift.
    cbn [set_any_i_meas Ybus].
    destruct (dSbus_dV _ _) as [[a c]|]; [|discriminate].
    intros [= <- <-]. reflexivity.
  - revert Hbr. unfold _dSbr_dv, mbind, M_bind, get, lift.
    cbn [set_any_i_meas Yf Yt eppci].
    destruct (dSbr_dV _ _ _ _) as [[[[[[a1 a2] a3] a4] a5] a6]|]; [|discriminate].
    intros [= <- <- <- <-]. reflexivity.
Qed.

Lemma returns_current_flag (s : BaseAlgebra) V I (b : bool) :
  returns_current s V I -> returns_current (set_any_i_meas s b) V I.
Proof.
  intros [Hcur T1 T2 T3 T4]. split; try assumption.
  revert Hcur. unfold _dibr_dv, mbind, M_bind, get, lift.
  cbn [set_any_i_meas Yf Yt eppci].
  destruct (dIbr_dV _ _ _ _) as [[[[[[a1 a2] a3] a4] a5] a6]|]; [|discriminate].
  destruct (perturb a1 a5); [|discriminate].
  destruct (perturb a2 a5); [|discriminate].
  destruct (perturb a3 a6); [|discriminate].
  destruct (perturb a4 a6); [|discriminate].
  intros [= <- <- <- <-]. reflexivity.
Qed.

(** C6.  With [any_i_meas] false the matrix before the projection is made
    of the power and voltage-magnitude blocks only, whatever [_dibr_dv]
    would do; and when [non_nan_meas_mask] marks no current-magnitude slot,
    the method returns what it returns with the flag set and the
    current-magnitude blocks stacked below. *)
Theorem gating_keeps_jacobian (self s1 : BaseAlgebra) (E : list real)
    (P : power_derivatives) (I : current_derivatives)
  (He : _e2v E self = Ok ((v s1, delta s1), s1))
  (Hlv : length (v s1) = n_bus s1)
  (Hld : length (delta s1) = n_bus s1)
  (Hoff : any_i_meas self = false)
  (HP : returns_power s1 (voltage (v s1) (delta s1)) P)
  (Hrs : non_nan_meas_selector s1 = Np.flatnonzero (non_nan_meas_mask s1))
  (Hno : Forall (fun i => i < 3 * n_bus s1 + 4 * n_branch s1)
                (Np.flatnonzero_from 0 (non_nan_meas_mask s1))) :
  create_hx_jacobian E self =
    (picked ← lift (Mat.select_rows (non_nan_meas_selector s1)
                      (Matrix (n_bus s1 + n_bus s1)
                              (power_rows P ++ voltage_rows (n_bus s1))));
     lift (Mat.select_cols (delta_v_bus_selector s1) picked)) s1 /\
  (returns_current s1 (voltage (v s1) (delta s1)) I ->
   returned (create_hx_jacobian E (set_any_i_meas self true)) =
   returned (create_hx_jacobian E self)).
Proof.
  assert (Hoff1 : any_i_meas s1 = false).
  { apply e2v_unchanged in He. destruct He as (_&_&_&_&_&_&_&_&_& -> &_). exact Hoff. }
  assert (Hstack : create_hx_jacobian E self =
    (picked ← lift (Mat.select_rows (non_nan_meas_selector s1)
                      (Matrix (n_bus s1 + n_bus s1)
                              (power_rows P ++ voltage_rows (n_bus s1))));
     lift (Mat.select_cols (delta_v_bus_selector s1) picked)) s1).
  { rewrite (create_hx_jacobian_stacked self s1 E P I He Hlv Hld HP)
      by (rewrite Hoff1; discriminate).
    unfold stacked_rows. rewrite Hoff1, app_nil_r. reflexivity. }
  split; [exact Hstack|]. intros HI.
  rewrite Hstack.
  rewrite (create_hx_jacobian_stacked (set_any_i_meas self true)
             (set_any_i_meas s1 true) E P I);
    [| apply (e2v_flag _ _ _ _ true He) | exact Hlv | exact Hld
     | apply returns_power_flag; exact HP
     | intros _; apply returns_current_flag; exact HI ].
  cbn [set_any_i_meas any_i_meas n_bus non_nan_meas_selector delta_v_bus_selector].
  unfold stacked_rows. rewrite Hrs.
  assert (Hlen : length (power_rows P ++ voltage_rows (n_bus s1)) =
                 3 * n_bus s1 + 4 * n_branch s1).
  { destruct HP as [_ _ S1 S2 S3 S4 S5 S6].
    destruct (power_rows_stack P _ _ S1 S2 S3 S4 S5 S6) as [_ Hplen].
    rewrite length_app, Hplen, voltage_rows_length. lia. }
  assert (Hin : Forall (fun i => i < Mat.nrows (Matrix (n_bus s1 + n_bus s1)
                                         (power_rows P ++ voltage_rows (n_bus s1))))
                       (Np.flatnonzero_from 0 (non_nan_meas_mask s1))).
  { unfold Mat.nrows. cbn [rows]. rewrite Hlen. exact Hno. }
  rewrite (bind_lift _ _ _ _ (select_rows_mask _ _ Hin)).
  erewrite bind_lift.
  2:{ apply select_rows_mask. unfold Mat.nrows. cbn [rows].
      eapply Forall_impl; [exact Hin|]. unfold Mat.nrows. cbn [rows].
      intros i Hi. simpl. rewrite !length_app in *. lia. }
  cbn [rows ncols]. rewrite app_assoc, restricted_app.
  2:{ unfold Mat.nrows in Hin. exact Hin. }
  unfold lift. destruct (Mat.select_cols _ _); reflexivity.
Qed.

End Jacobian.

(** ** Zero-injection constraints *)

Section Constraints.
Context `{Scalars} `{!Pypower}.

Lemma create_cx_values (self s1 : BaseAlgebra) (E : list real) (p_idx q_idx : list Z) :
  _e2v E self = Ok ((v s1, delta s1), s1) ->
  length (v s1) = n_bus s1 -> length (delta s1) = n_bus s1 ->
  ncols (Ybus s1) = n_bus s1 -> Mat.nrows (Ybus s1) = n_bus s1 ->
  Forall (fun b => (0 <= b < Z.of_nat (n_bus s1))%Z) p_idx ->
  Forall (fun b => (0 <= b < Z.of_nat (n_bus s1))%Z) q_idx ->
  BaseAlgebraZeroInjConstraints.create_cx E p_idx q_idx self =
  Ok (constraint_values s1 p_idx q_idx (v s1) (delta s1), s1).
Proof.
  intros He Hlv Hld HYc HYr Hp Hq. unfold constraint_values.
  set (S_bus := busPower (Ybus s1) (voltage (v s1) (delta s1))).
  set (V := voltage (v s1) (delta s1)) in *.
  assert (HlV : length V = n_bus s1) by (unfold V; rewrite voltage_length; lia).
  assert (HYb : Mat.nrows (Ybus s1) = length V) by lia.
  assert (HlS : length S_bus = n_bus s1).
  { unfold S_bus. rewrite busPower_length; [exact HlV|exact HYb]. }
  unfold BaseAlgebraZeroInjConstraints.create_cx.
  rewrite (M_bind_Ok _ _ _ _ _ He). cbv beta iota.
  rewrite (bind_lift _ V) by (apply polar_voltage; lia).
  rewrite bind_get.
  rewrite (bind_lift _ (branchCurrent (Ybus s1) V))
    by (apply mat_vec_current; lia).
  rewrite (bind_lift _ (busPower (Ybus s1) V))
    by (apply busPower_code; exact HYb).
  fold S_bus.
  rewrite (bind_lift _ _ _ _ (take_in_range S_bus p_idx C0 ltac:(rewrite HlS; exact Hp))).
  rewrite (bind_lift _ _ _ _ (take_in_range S_bus q_idx C0 ltac:(rewrite HlS; exact Hq))).
  cbv zeta. unfold mret, M_ret.
  rewrite map_app, !map_map. reflexivity.
Qed.

(** C7.  [create_cx(E, p_idx, q_idx)] is the real part of the bus
    injection [S_bus = V ⊙ conj(Ybus · V)] at the buses of [p_idx], followed
    by its imaginary part at the buses of [q_idx], every entry multiplied by
    [baseMVA]. *)
Theorem create_cx_injections (self : BaseAlgebra) (E : list real) (p_idx q_idx : list Z)
  (Hc : consistent self)
  (HE : length E = num_non_slack_bus self + n_bus self)
  (Hp : Forall (fun b => (0 <= b < Z.of_nat (n_bus self))%Z) p_idx)
  (Hq : Forall (fun b => (0 <= b < Z.of_nat (n_bus self))%Z) q_idx) :
  exists s1,
    _e2v E self = Ok ((v s1, delta s1), s1) /\
    BaseAlgebraZeroInjConstraints.create_cx E p_idx q_idx self =
    Ok (constraint_values self p_idx q_idx (v s1) (delta s1), s1).
Proof.
  destruct (e2v_returns self E Hc HE) as (s1 & He & Hu & Hv & Hlv & Hld).
  destruct Hu as (_ & _ & _ & Hnb & _ & HMVA & _ & _ & _ & _ & HYbus & _).
  exists s1. split; [exact He|].
  rewrite (create_cx_values self s1 E p_idx q_idx He);
    rewrite ?Hnb, ?HYbus; try assumption; try apply Hc.
  unfold constraint_values. rewrite HYbus, HMVA. reflexivity.
Qed.

End Constraints.

(** ** Current-magnitude derivatives *)

Section Currents.
Context `{Scalars} `{!Pypower}.

Lemma bcast_col_same {A B D} (f : A -> B -> D) (m : matrix A) (c : list B) :
  Mat.nrows m = length c ->
  bcast_col f m c =
  Ok (Matrix (ncols m)
             (zip_with (fun r x => List.map (fun a => f a x) r) (rows m) c)).
Proof.
  intros Hl. unfold bcast_col. rewrite bcast2_same by exact Hl. reflexivity.
Qed.

Lemma lookup_map_map {A B} (f : A -> B) (l : list (list A)) (i j : nat) :
  (List.map (List.map f) l !! i ≫= fun r => r !! j) =
  f <$> (l !! i ≫= fun r => r !! j).
Proof.
  rewrite list_lookup_fmap. destruct (l !! i) as [r|]; simpl; [|reflexivity].
  apply list_lookup_fmap.
Qed.

Lemma lookup_zip_rows {A B D} (f : A -> B -> D) (l : list (list A)) (c : list B)
    (i j : nat) :
  (zip_with (fun r x => List.map (fun a => f a x) r) l c !! i ≫= fun r => r !! j) =
  (l !! i ≫= fun r => r !! j) ≫= fun a => c !! i ≫= fun x => Some (f a x).
Proof.
  rewrite lookup_zip_with. destruct (l !! i) as [r|]; simpl; [|reflexivity].
  destruct (c !! i) as [x|]; simpl.
  - rewrite list_lookup_fmap. destruct (r !! j); reflexivity.
  - destruct (r !! j); reflexivity.
Qed.

Lemma perturb_difference (Hcomm : forall a b, Cadd a b = Cadd b a)
    (d : matrix cplx) (I : list cplx) :
  Mat.nrows d = length I ->
  exists B, perturb d I = Ok B /\ finite_difference d I B.
Proof.
  intros Hl. unfold perturb.
  rewrite bcast_col_same by (unfold Mat.nrows, Mat.map in *; simpl; rewrite length_map; exact Hl).
  simpl. rewrite bcast_col_same.
  2:{ unfold Mat.nrows in *. simpl. rewrite !length_map, length_zip_with, length_map. lia. }
  simpl. eexists. split; [reflexivity|]. split.
  - unfold Mat.shape, Mat.nrows in *. simpl.
    rewrite !length_map, length_zip_with, !length_map, length_zip_with, length_map.
    f_equal. lia.
  - intros i j x Ii Hx HI. unfold entry in *. simpl.
    rewrite lookup_map_map, lookup_zip_rows, lookup_map_map, lookup_zip_rows,
      lookup_map_map, Hx, list_lookup_fmap, HI. simpl.
    rewrite (Hcomm Ii). reflexivity.
Qed.

(** C4.  Every entry (i, j) of the four blocks [_dibr_dv] returns is
    [(|I[i] + 1e-5 * dI[i, j]| - |I[i]|) / 1e-5], for the complex derivative
    [dI] pypower gives and the unperturbed branch current [I = Yf · V] or
    [Yt · V]: the step is the constant [1e-5] whatever [V] is. *)
Theorem dibr_dv_finite_difference (self : BaseAlgebra) (V : list cplx)
    (dIf_dVa dIf_dVm dIt_dVa dIt_dVm : matrix cplx)
  (Hcomm : forall a b : cplx, Cadd a b = Cadd b a)
  (Hcall : dIbr_dV (EPPCI.branch (eppci self)) (Yf self) (Yt self) V =
           Ok (dIf_dVa, dIf_dVm, dIt_dVa, dIt_dVm,
               branchCurrent (Yf self) V, branchCurrent (Yt self) V))
  (Hfa : Mat.nrows dIf_dVa = Mat.nrows (Yf self))
  (Hfm : Mat.nrows dIf_dVm = Mat.nrows (Yf self))
  (Hta : Mat.nrows dIt_dVa = Mat.nrows (Yt self))
  (Htm : Mat.nrows dIt_dVm = Mat.nrows (Yt self)) :
  exists dif_dth dif_dv dit_dth dit_dv,
    _dibr_dv V self = Ok ((dif_dth, dif_dv, dit_dth, dit_dv), self) /\
    finite_difference dIf_dVa (branchCurrent (Yf self) V) dif_dth /\
    finite_difference dIf_dVm (branchCurrent (Yf self) V) dif_dv /\
    finite_difference dIt_dVa (branchCurrent (Yt self) V) dit_dth /\
    finite_difference dIt_dVm (branchCurrent (Yt self) V) dit_dv.
Proof.
  destruct (perturb_difference Hcomm dIf_dVa (branchCurrent (Yf self) V))
    as (B1 & HB1 & D1); [rewrite branchCurrent_length; exact Hfa|].
  destruct (perturb_difference Hcomm dIf_dVm (branchCurrent (Yf self) V))
    as (B2 & HB2 & D2); [rewrite branchCurrent_length; exact Hfm|].
  destruct (perturb_difference Hcomm dIt_dVa (branchCurrent (Yt self) V))
    as (B3 & HB3 & D3); [rewrite branchCurrent_length; exact Hta|].
  destruct (perturb_difference Hcomm dIt_dVm (branchCurrent (Yt self) V))
    as (B4 & HB4 & D4); [rewrite branchCurrent_length; exact Htm|].
  exists B1, B2, B3, B4. split; [|auto].
  unfold _dibr_dv. rewrite bind_get.
  rewrite (bind_lift _ _ _ _ Hcall). cbv beta iota.
  rewrite (bind_lift _ _ _ _ HB1), (bind_lift _ _ _ _ HB2),
    (bind_lift _ _ _ _ HB3), (bind_lift _ _ _ _ HB4).
  reflexivity.
Qed.

End Currents.

(** ** The decoupled Jacobian *)

Section Decoupled.
Context `{Scalars} `{!Pypower}.

Lemma bind_lift_Raise {A B} (r : res A) (e : exn) (k : A -> M B) s :
  r = Raise e -> (lift r ≫= k) s = Raise e.
Proof. intros ->. reflexivity. Qed.

Lemma vstack3_mismatch {A} (a b c : matrix A) :
  ncols b <> ncols c -> Mat.vstack [a; b; c] = Raise ValueError.
Proof.
  intros Hne.
  change (Mat.vstack [a; b; c]) with (rest ← Mat.vconcat b c; Mat.vconcat a rest).
  assert (Hv : Mat.vconcat b c = Raise ValueError).
  { unfold Mat.vconcat.
    destruct (Nat.eqb_spec (ncols b) (ncols c)); [contradiction|reflexivity]. }
  rewrite Hv. reflexivity.
Qed.

(** C5.  [BaseAlgebraDecoupled.create_hx_jacobian] leaves [dv_dth] and
    [dv_dv] sparse when it hands them to [np.c_]: its voltage block [v_jac]
    is a 1 x 2 array of objects, which cannot be stacked between the power
    and current blocks of [2 * n_bus] columns.  On every network but a
    one-bus one the method raises ValueError and returns no Jacobian. *)
Theorem decoupled_jacobian_raises (self s1 : BaseAlgebra) (E : list real)
    (P : power_derivatives) (I : current_derivatives)
  (He : _e2v E self = Ok ((v s1, delta s1), s1))
  (Hlv : length (v s1) = n_bus s1)
  (Hld : length (delta s1) = n_bus s1)
  (HP : returns_power s1 (voltage (v s1) (delta s1)) P)
  (HI : returns_current s1 (voltage (v s1) (delta s1)) I)
  (Hn : n_bus s1 <> 1) :
  BaseAlgebraDecoupled.create_hx_jacobian E self = Raise ValueError.
Proof.
  set (V := voltage (v s1) (delta s1)) in *.
  assert (HlV : length V = n_bus s1) by (unfold V; rewrite voltage_length; lia).
  destruct HP as [Hbus Hbr S1 S2 S3 S4 S5 S6].
  destruct HI as [Hcur (T1r & T1c & _) (T2r & T2c & _) (T3r & T3c & _) (T4r & T4c & _)].
  unfold BaseAlgebraDecoupled.create_hx_jacobian.
  rewrite (M_bind_Ok _ _ _ _ _ He). cbv beta iota.
  rewrite (bind_lift _ V) by (apply polar_voltage; lia).
  rewrite (M_bind_Ok _ _ _ _ _ Hbus). cbv beta iota.
  rewrite (M_bind_Ok _ _ _ _ _ Hbr). cbv beta iota.
  rewrite (M_bind_Ok _ _ _ _ _ Hcur). cbv beta iota.
  unfold _dVbus_dv at 1. rewrite bind_ret. cbv beta iota.
  pose proof (map_shape Cof _ _ _ (map_shape Cre _ _ _ S1)) as (R1a & C1a & _).
  pose proof (map_shape Cof _ _ _ (map_shape Cre _ _ _ S3)) as (R3a & C3a & _).
  pose proof (map_shape Cof _ _ _ (map_shape Cre _ _ _ S5)) as (R5a & C5a & _).
  pose proof (map_shape (fun _ => C0) _ _ _ S1) as (R1b & C1b & _).
  pose proof (map_shape (fun _ => C0) _ _ _ S3) as (R3b & C3b & _).
  pose proof (map_shape (fun _ => C0) _ _ _ S5) as (R5b & C5b & _).
  pose proof (map_shape (fun _ => C0) _ _ _ S2) as (R2a & C2a & _).
  pose proof (map_shape (fun _ => C0) _ _ _ S4) as (R4a & C4a & _).
  pose proof (map_shape (fun _ => C0) _ _ _ S6) as (R6a & C6a & _).
  pose proof (map_shape Cof _ _ _ (map_shape Cim _ _ _ S2)) as (R2b & C2b & _).
  pose proof (map_shape Cof _ _ _ (map_shape Cim _ _ _ S4)) as (R4b & C4b & _).
  pose proof (map_shape Cof _ _ _ (map_shape Cim _ _ _ S6)) as (R6b & C6b & _).
  erewrite bind_lift; [|apply vstack6; congruence].
  erewrite bind_lift; [|apply vstack6; congruence].
  erewrite bind_lift; [|apply hstack2].
  2:{ unfold Mat.nrows in *. cbn [rows]. rewrite !length_app. lia. }
  cbv zeta.
  erewrite bind_lift; [|apply hstack2; congruence].
  erewrite bind_lift; [|apply hstack2; congruence].
  erewrite bind_lift;
    [|apply vstack2; cbn [ncols]; rewrite T1c, T2c, T3c, T4c; reflexivity].
  cbn [ncols]. rewrite C1a, C2a, T1c, T2c.
  apply bind_lift_Raise, vstack3_mismatch.
  cbn [ncols np_c_sparse Mat.map]. lia.
Qed.

End Decoupled.

(** ** The theorems at work on the two-bus network *)

Section Two_bus.
Import Fixed.

Ltac all_in_range :=
  simpl; repeat (apply Forall_cons; split; [lia|]); try apply Forall_nil;
  try exact Logic.I.

Lemma two_bus_init : __init__ two_bus = Ok algebra.
Proof. reflexivity. Qed.

Lemma two_bus_no_current_init : __init__ two_bus_no_current = Ok algebra_no_current.
Proof. reflexivity. Qed.

Lemma algebra_consistent (mask : list bool) (b : bool) :
  length mask = 12 -> consistent (algebra_with mask b).
Proof. intros Hm. split; try reflexivity; try exact Hm; all_in_range. Qed.

Lemma decoded_power (mask : list bool) (b : bool) :
  returns_power (set_delta (set_v (algebra_with mask b) [100000; 98000]%Z) [0; 10000]%Z)
                V0 P0.
Proof.
  split; try reflexivity; (split; [reflexivity|split; [reflexivity|]]);
    repeat constructor.
Qed.

Lemma decoded_current (mask : list bool) (b : bool) :
  returns_current (set_delta (set_v (algebra_with mask b) [100000; 98000]%Z) [0; 10000]%Z)
                  V0 I0.
Proof.
  split; try reflexivity; (split; [reflexivity|split; [reflexivity|]]);
    repeat constructor.
Qed.

Lemma fixed_cadd_comm (a b : Z * Z) : Fixed.cadd a b = Fixed.cadd b a.
Proof. unfold Fixed.cadd. f_equal; lia. Qed.

Lemma create_hx_measurements_witness :
  exists self',
    _e2v E0 algebra = Ok ((v self', delta self'), self') /\
    create_hx E0 algebra =
      Ok (restricted (non_nan_meas_mask algebra) (all_measurements self'), self') /\
    length (all_measurements self') = length (non_nan_meas_mask algebra).
Proof.
  apply (create_hx_measurements algebra E0).
  - apply algebra_consistent. reflexivity.
  - reflexivity.
Defined.

Lemma create_hx_jacobian_projection_witness :
  exists J,
    create_hx_jacobian E0 algebra = Ok (J, decoded) /\
    rows J = List.map (restricted (delta_v_bus_mask decoded))
               (restricted (non_nan_meas_mask decoded)
                  (stacked_rows (any_i_meas decoded) (n_bus decoded) P0 I0)) /\
    Mat.shape J = (12, 3).
Proof.
  apply (create_hx_jacobian_projection algebra decoded E0 P0 I0);
    try reflexivity.
  - apply decoded_power.
  - intros _. apply decoded_current.
  - vm_compute. all_in_range.
Defined.

Lemma e2v_decodes_witness :
  exists self',
    _e2v E0 algebra = Ok ((v self', delta self'), self') /\
    v self' = drop (length E0 - n_bus algebra) E0 /\
    length (v self') = n_bus algebra /\
    length (delta self') = n_bus algebra /\
    (forall i b, non_slack_buses algebra !! i = Some b ->
                 i < num_non_slack_bus algebra /\
                 delta self' !! Z.to_nat b = E0 !! i) /\
    (forall k, Z.of_nat k ∉ non_slack_buses algebra ->
               delta self' !! k = delta algebra !! k) /\
    (forall e, __init__ e = Ok algebra ->
       forall k, Z.of_nat k ∉ non_slack_buses algebra ->
                 delta self' !! k = EPPCI.delta_init e !! k).
Proof.
  apply (e2v_decodes algebra E0); try reflexivity.
  - all_in_range.
  - apply NoDup_singleton.
Defined.

Lemma dibr_dv_finite_difference_witness :
  exists dif_dth dif_dv dit_dth dit_dv,
    _dibr_dv V0 decoded = Ok ((dif_dth, dif_dv, dit_dth, dit_dv), decoded) /\
    finite_difference dI0.1.1.1 (branchCurrent (Yf decoded) V0) dif_dth /\
    finite_difference dI0.1.1.2 (branchCurrent (Yf decoded) V0) dif_dv /\
    finite_difference dI0.1.2 (branchCurrent (Yt decoded) V0) dit_dth /\
    finite_difference dI0.2 (branchCurrent (Yt decoded) V0) dit_dv.
Proof.
  apply (dibr_dv_finite_difference decoded V0); try reflexivity.
  exact fixed_cadd_comm.
Defined.

Lemma decoupled_jacobian_raises_witness :
  BaseAlgebraDecoupled.create_hx_jacobian E0 algebra = Raise ValueError.
Proof.
  apply (decoupled_jacobian_raises algebra decoded E0 P0 I0); try reflexivity.
  - apply decoded_power.
  - apply decoded_current.
  - simpl. lia.
Defined.

Lemma gating_keeps_jacobian_witness :
  create_hx_jacobian E0 algebra_no_current =
    (picked ← lift (Mat.select_rows (non_nan_meas_selector decoded_no_current)
                      (Matrix (n_bus decoded_no_current + n_bus decoded_no_current)
                              (power_rows P0 ++ voltage_rows (n_bus decoded_no_current))));
     lift (Mat.select_cols (delta_v_bus_selector decoded_no_current) picked))
      decoded_no_current /\
  (returns_current decoded_no_current
     (voltage (v decoded_no_current) (delta decoded_no_current)) I0 ->
   returned (create_hx_jacobian E0 (set_any_i_meas algebra_no_current true)) =
   returned (create_hx_jacobian E0 algebra_no_current)).
Proof.
  apply (gating_keeps_jacobian algebra_no_current decoded_no_current E0 P0 I0);
    try reflexivity.
  - apply decoded_power.
  - vm_compute. all_in_range.
Defined.

Lemma create_cx_injections_witness :
  exists s1,
    _e2v E0 algebra = Ok ((v s1, delta s1), s1) /\
    BaseAlgebraZeroInjConstraints.create_cx E0 [1%Z] [1%Z] algebra =
    Ok (constraint_values algebra [1%Z] [1%Z] (v s1) (delta s1), s1).
Proof.
  apply (create_cx_injections algebra E0 [1%Z] [1%Z]); try reflexivity.
  - apply algebra_consistent. reflexivity.
  - all_in_range.
  - all_in_range.
Defined.

Lemma create_rx_twice_witness :
  exists r, create_rx E0 decoded = Ok (r, decoded).
Proof.
  eexists. apply (create_rx_twice (H:=scalars) E0 algebra decoded). reflexivity.
Defined.

Lemma public_call_frame_witness : unchanged_configuration algebra decoded.
Proof.
  apply public_call_frame.
  eapply (call_create_hx_jacobian (H:=scalars) E0 algebra). reflexivity.
Defined.

End Two_bus.

(** ** The Jacobian of the zero-injection constraints *)

Lemma select_rows_in_range {A} (idx : list Z) (m : matrix A) :
  Forall (fun i => (0 <= i < Z.of_nat (Mat.nrows m))%Z) idx ->
  Mat.select_rows idx m =
  Ok (Matrix (ncols m) (List.map (fun i => nth (Z.to_nat i) (rows m) []) idx)).
Proof.
  intros Hr. unfold Mat.select_rows.
  rewrite (take_in_range (rows m) idx [] Hr). reflexivity.
Qed.

Lemma mask_cols_same {A} (mask : list bool) (m : matrix A) :
  length mask = ncols m ->
  Mat.mask_cols mask m =
  Ok (Matrix (length (Np.flatnonzero mask)) (List.map (Np.compress_go mask) (rows m))).
Proof. intros Hl. unfold Mat.mask_cols. rewrite Hl, Nat.eqb_refl. reflexivity. Qed.

Lemma omap_lookup_all {A} (a : list A) (sel : list nat) (c : nat) :
  Forall (fun i => i < length a) sel ->
  omap (fun i => a !! i) sel !! c = sel !! c ≫= fun i => a !! i.
Proof.
  unfold omap. intros Hs. revert c.
  induction Hs as [|i sel Hi _ IH]; intros c; simpl; [reflexivity|].
  destruct (a !! i) as [x|] eqn:Hx; [|apply lookup_ge_None in Hx; lia].
  destruct c as [|c]; simpl; [symmetry; exact Hx|apply IH].
Qed.

Lemma entry_in_range {A} (m : matrix A) (r c : nat) :
  Mat.wf m -> (r < (Mat.shape m).1)%nat -> (c < (Mat.shape m).2)%nat ->
  exists y, entry m r c = Some y.
Proof.
  unfold Mat.wf, Mat.shape, Mat.nrows, entry. simpl. intros Hwf Hr Hc.
  destruct (lookup_lt_is_Some_2 _ _ Hr) as [row Hrow]. rewrite Hrow. simpl.
  rewrite Forall_forall in Hwf.
  apply lookup_lt_is_Some_2. rewrite (Hwf row); [exact Hc|].
  eapply list_elem_of_lookup_2, Hrow.
Qed.

Lemma compress_lookup {A} (mask : list bool) (a : list A) (c col : nat) :
  length mask = length a ->
  Np.flatnonzero_from 0 mask !! c = Some col ->
  Np.compress_go mask a !! c = a !! col.
Proof.
  intros Hl Hc. rewrite compress_restricted by exact Hl. unfold restricted.
  rewrite omap_lookup_all, Hc; [reflexivity|].
  eapply Forall_impl; [apply flatnonzero_from_bound|]. simpl. intros; lia.
Qed.

Lemma zip_with_same_list {A B D G} (f : B -> D -> G) (g : A -> B) (h : A -> D)
    (l : list A) :
  zip_with f (List.map g l) (List.map h l) = List.map (fun x => f (g x) (h x)) l.
Proof. induction l as [|x l IH]; simpl; [reflexivity|]. rewrite IH. reflexivity. Qed.

Section Constraint_jacobian.
Import Exact.
Context {pp : Pypower}.
Local Open Scope R_scope.

Lemma partial_at_scal (f g : list R -> list R -> R) (vm th : list R) (col : nat)
    (d a : R) :
  (forall vm' th', g vm' th' = f vm' th' * a) ->
  partial_at f vm th col d -> partial_at g vm th col (d * a).
Proof.
  unfold partial_at. intros Hg. destruct (col <? length th)%nat; intros Hd;
    (eapply derivable_pt_lim_ext;
     [|apply derivable_pt_lim_scal_right; exact Hd]);
    intros t; simpl; symmetry; apply Hg.
Qed.

Lemma partial_at_unique (f : list R -> list R -> R) (vm th : list R) (col : nat)
    (d1 d2 : R) :
  partial_at f vm th col d1 -> partial_at f vm th col d2 -> d1 = d2.
Proof.
  unfold partial_at. destruct (col <? length th)%nat; apply uniqueness_limite.
Qed.

(** The rows of the constraint Jacobian before the column mask: the real
    parts of the rows [p_idx] of [[dS_dVa | dS_dVm]], then the imaginary
    parts of its rows [q_idx]. *)
Lemma create_cx_jacobian_rows (self s1 : BaseAlgebra) (E : list R)
    (p_idx q_idx : list Z) (dS_dVm dS_dVa : matrix (R * R)) :
  _e2v E self = Ok ((v s1, delta s1), s1) ->
  length (v s1) = length (delta s1) ->
  dSbus_dV (Ybus s1) (voltage (v s1) (delta s1)) = Ok (dS_dVm, dS_dVa) ->
  has_shape dS_dVm (n_bus s1) (n_bus s1) ->
  has_shape dS_dVa (n_bus s1) (n_bus s1) ->
  Forall (fun b => (0 <= b < Z.of_nat (n_bus s1))%Z) p_idx ->
  Forall (fun b => (0 <= b < Z.of_nat (n_bus s1))%Z) q_idx ->
  length (delta_v_bus_mask s1) = (n_bus s1 + n_bus s1)%nat ->
  BaseAlgebraZeroInjConstraints.create_cx_jacobian E p_idx q_idx self =
  Ok (Matrix (length (Np.flatnonzero (delta_v_bus_mask s1)))
        (List.map (Np.compress_go (delta_v_bus_mask s1))
           (List.map (fun b => List.map fst
                        (bus_power_jacobian_row dS_dVa dS_dVm (Z.to_nat b))) p_idx ++
            List.map (fun b => List.map snd
                        (bus_power_jacobian_row dS_dVa dS_dVm (Z.to_nat b))) q_idx)),
      s1).
Proof.
  intros He Hl Hcall (Rm & Cm & Wm) (Ra & Ca & Wa) Hp Hq Hmask.
  unfold BaseAlgebraZeroInjConstraints.create_cx_jacobian.
  rewrite (M_bind_Ok _ _ _ _ _ He). cbv beta iota.
  rewrite (bind_lift _ _ _ _ (polar_voltage _ _ Hl)).
  assert (Hbus : _dSbus_dv (voltage (v s1) (delta s1)) s1 = Ok ((dS_dVa, dS_dVm), s1)).
  { unfold _dSbus_dv. rewrite bind_get. rewrite (bind_lift _ _ _ _ Hcall). reflexivity. }
  rewrite (M_bind_Ok _ _ _ _ _ Hbus). cbv beta iota.
  assert (Hsel : forall (f : R * R -> R) (m : matrix (R * R)) (idx : list Z),
             Mat.nrows m = n_bus s1 ->
             Forall (fun b => (0 <= b < Z.of_nat (n_bus s1))%Z) idx ->
             Mat.select_rows idx (Mat.map f m) =
             Ok (Matrix (ncols m)
                   (List.map (fun b => List.map f (nth (Z.to_nat b) (rows m) [])) idx))).
  { intros f m idx Hm Hidx. rewrite select_rows_in_range.
    - cbn [Mat.map ncols rows]. do 2 f_equal. apply map_ext. intros b.
      change [] with (List.map f []) at 1. apply map_nth.
    - unfold Mat.nrows, Mat.map in *. cbn [rows]. rewrite length_map, Hm. exact Hidx. }
  rewrite (bind_lift _ _ _ _ (Hsel fst dS_dVa p_idx Ra Hp)).
  rewrite (bind_lift _ _ _ _ (Hsel snd dS_dVa q_idx Ra Hq)).
  erewrite bind_lift; [|apply vstack2; reflexivity].
  rewrite (bind_lift _ _ _ _ (Hsel fst dS_dVm p_idx Rm Hp)).
  rewrite (bind_lift _ _ _ _ (Hsel snd dS_dVm q_idx Rm Hq)).
  erewrite bind_lift; [|apply vstack2; reflexivity].
  erewrite bind_lift; [|apply hstack2].
  2:{ unfold Mat.nrows. cbn [rows]. rewrite !length_app, !length_map. reflexivity. }
  rewrite bind_get. cbn [ncols rows]. rewrite Ca, Cm.
  apply lift_Ok. rewrite mask_cols_same by exact Hmask.
  cbn [ncols rows]. do 3 f_equal. unfold beside. cbn [rows].
  rewrite zip_with_app by (rewrite !length_map; reflexivity).
  rewrite !zip_with_same_list. unfold bus_power_jacobian_row.
  f_equal; apply map_ext; intros b; rewrite map_app; reflexivity.
Qed.

(** C9.  [create_cx_jacobian] carries no factor [baseMVA], [create_cx]
    does: with pypower's [dSbus_dV] the Jacobian of the bus power, the
    partial derivative of entry [r] of the constraint vector along a free
    state variable is [baseMVA] times the entry of the returned matrix in
    row [r] and that variable's column; the returned entry is that
    derivative times [1 / baseMVA].  The returned matrix has one row per
    index and one column per free state variable, and every entry of it is
    there. *)
Theorem create_cx_jacobian_unscaled (self s1 : BaseAlgebra) (E : list R)
    (p_idx q_idx : list Z) (dS_dVm dS_dVa : matrix (R * R))
  (He : _e2v E self = Ok ((v s1, delta s1), s1))
  (Hlv : length (v s1) = n_bus s1)
  (Hld : length (delta s1) = n_bus s1)
  (HYc : ncols (Ybus s1) = n_bus s1)
  (HYr : Mat.nrows (Ybus s1) = n_bus s1)
  (Hcall : dSbus_dV (Ybus s1) (voltage (v s1) (delta s1)) = Ok (dS_dVm, dS_dVa))
  (Hsm : has_shape dS_dVm (n_bus s1) (n_bus s1))
  (Hsa : has_shape dS_dVa (n_bus s1) (n_bus s1))
  (Hjac : is_bus_power_jacobian (Ybus s1) (v s1) (delta s1) dS_dVm dS_dVa)
  (Hp : Forall (fun b => (0 <= b < Z.of_nat (n_bus s1))%Z) p_idx)
  (Hq : Forall (fun b => (0 <= b < Z.of_nat (n_bus s1))%Z) q_idx)
  (Hmask : length (delta_v_bus_mask s1) = (n_bus s1 + n_bus s1)%nat) :
  exists J,
    BaseAlgebraZeroInjConstraints.create_cx_jacobian E p_idx q_idx self = Ok (J, s1) /\
    BaseAlgebraZeroInjConstraints.create_cx E p_idx q_idx self =
      Ok (constraint_values s1 p_idx q_idx (v s1) (delta s1), s1) /\
    Mat.shape J = ((length p_idx + length q_idx)%nat,
                   count_true (delta_v_bus_mask s1)) /\
    Mat.wf J /\
    (forall r c,
       (r < length p_idx + length q_idx)%nat ->
       (c < count_true (delta_v_bus_mask s1))%nat ->
       exists col y,
         Np.flatnonzero_from 0 (delta_v_bus_mask s1) !! c = Some col /\
         entry J r c = Some y) /\
    forall r c col y,
      Np.flatnonzero_from 0 (delta_v_bus_mask s1) !! c = Some col ->
      entry J r c = Some y ->
      let c_r := fun vm th => nth r (constraint_values s1 p_idx q_idx vm th) 0 in
      partial_at c_r (v s1) (delta s1) col (y * baseMVA s1) /\
      (baseMVA s1 <> 0 ->
       forall D, partial_at c_r (v s1) (delta s1) col D -> y = / baseMVA s1 * D).
Proof.
  assert (Hrl : forall b, (0 <= b < Z.of_nat (n_bus s1))%Z ->
            length (bus_power_jacobian_row dS_dVa dS_dVm (Z.to_nat b))
            = (n_bus s1 + n_bus s1)%nat).
  { intros b Hb. unfold bus_power_jacobian_row. rewrite length_app.
    destruct Hsm as (Rm & Cm & Wm). destruct Hsa as (Ra & Ca & Wa).
    unfold Mat.wf, Mat.nrows in *. rewrite Forall_forall in Wm, Wa.
    rewrite (Wa (nth (Z.to_nat b) (rows dS_dVa) [])), (Wm (nth (Z.to_nat b) (rows dS_dVm) []));
      [lia| |]; apply list_elem_of_In, nth_In; lia. }
  assert (Hshape :
    Mat.shape
      (Matrix (length (Np.flatnonzero (delta_v_bus_mask s1)))
         (List.map (Np.compress_go (delta_v_bus_mask s1))
            (List.map (fun b => List.map fst
                         (bus_power_jacobian_row dS_dVa dS_dVm (Z.to_nat b))) p_idx ++
             List.map (fun b => List.map snd
                         (bus_power_jacobian_row dS_dVa dS_dVm (Z.to_nat b))) q_idx)))
    = ((length p_idx + length q_idx)%nat, count_true (delta_v_bus_mask s1))).
  { unfold Mat.shape, Mat.nrows, Np.flatnonzero. cbn [rows ncols].
    rewrite !length_map, length_app, !length_map, flatnonzero_count. reflexivity. }
  assert (Hwf :
    Mat.wf
      (Matrix (length (Np.flatnonzero (delta_v_bus_mask s1)))
         (List.map (Np.compress_go (delta_v_bus_mask s1))
            (List.map (fun b => List.map fst
                         (bus_power_jacobian_row dS_dVa dS_dVm (Z.to_nat b))) p_idx ++
             List.map (fun b => List.map snd
                         (bus_power_jacobian_row dS_dVa dS_dVm (Z.to_nat b))) q_idx)))).
  { unfold Mat.wf. cbn [rows ncols]. apply Forall_forall. intros row Hin.
    apply list_elem_of_fmap in Hin as (row0 & -> & Hin).
    apply compress_go_length. rewrite Hmask.
    rewrite Forall_forall in Hp, Hq.
    apply elem_of_app in Hin as [Hin|Hin];
      apply list_elem_of_fmap in Hin as (b & -> & Hb);
      rewrite length_map, Hrl; auto. }
  eexists. split; [|split; [|split; [|split; [|split]]]].
  - apply (create_cx_jacobian_rows self s1 E p_idx q_idx dS_dVm dS_dVa);
      try assumption. lia.
  - apply create_cx_values; assumption.
  - exact Hshape.
  - exact Hwf.
  - intros r c Hr Hc.
    destruct (lookup_lt_is_Some_2 (Np.flatnonzero_from 0 (delta_v_bus_mask s1)) c)
      as [col Hcol]; [rewrite flatnonzero_count; exact Hc|].
    exists col.
    destruct (entry_in_range _ r c Hwf) as [y Hy];
      [rewrite Hshape; exact Hr|rewrite Hshape; exact Hc|].
    exists y. split; [exact Hcol|exact Hy].
  - intros r c col y Hcol Hy c_r.
    assert (Hmain : partial_at c_r (v s1) (delta s1) col (y * baseMVA s1)).
    { unfold entry in Hy. cbn [rows] in Hy.
      rewrite list_lookup_fmap in Hy.
      destruct ((_ ++ _) !! r) as [row|] eqn:Hrow; [|discriminate].
      simpl in Hy.
      destruct (decide (r < length p_idx)%nat) as [Hr|Hr].
      - rewrite lookup_app_l in Hrow by (rewrite length_map; exact Hr).
        rewrite list_lookup_fmap in Hrow.
        destruct (p_idx !! r) as [b|] eqn:Hb; [|discriminate].
        injection Hrow as <-.
        assert (Hbr : (0 <= b < Z.of_nat (n_bus s1))%Z).
        { rewrite Forall_forall in Hp. apply Hp. eapply list_elem_of_lookup_2, Hb. }
        rewrite (compress_lookup _ _ c col) in Hy;
          [|rewrite length_map, Hrl by exact Hbr; exact Hmask|exact Hcol].
        rewrite list_lookup_fmap in Hy.
        destruct (_ !! col) as [x|] eqn:Hx; [|discriminate]. injection Hy as <-.
        destruct (Hjac _ _ _ Hx) as [Hre _].
        eapply partial_at_scal; [|exact Hre].
        intros vm' th'. unfold c_r, constraint_values.
        rewrite nth_lookup, lookup_app_l by (rewrite length_map; exact Hr).
        rewrite list_lookup_fmap, Hb. reflexivity.
      - rewrite lookup_app_r in Hrow by (rewrite length_map; lia).
        rewrite length_map, list_lookup_fmap in Hrow.
        destruct (q_idx !! (r - length p_idx)%nat) as [b|] eqn:Hb; [|discriminate].
        injection Hrow as <-.
        assert (Hbr : (0 <= b < Z.of_nat (n_bus s1))%Z).
        { rewrite Forall_forall in Hq. apply Hq. eapply list_elem_of_lookup_2, Hb. }
        rewrite (compress_lookup _ _ c col) in Hy;
          [|rewrite length_map, Hrl by exact Hbr; exact Hmask|exact Hcol].
        rewrite list_lookup_fmap in Hy.
        destruct (_ !! col) as [x|] eqn:Hx; [|discriminate]. injection Hy as <-.
        destruct (Hjac _ _ _ Hx) as [_ Him].
        eapply partial_at_scal; [|exact Him].
        intros vm' th'. unfold c_r, constraint_values.
        rewrite nth_lookup, lookup_app_r by (rewrite length_map; lia).
        rewrite length_map, list_lookup_fmap, Hb. reflexivity. }
    split; [exact Hmain|]. intros Hne D HD.
    pose proof (partial_at_unique _ _ _ _ _ _ Hmain HD) as <-.
    assert (Hf : forall a b : R, a <> 0 -> b = / a * (b * a))
      by (intros a b Ha; field; exact Ha).
    apply Hf, Hne.
Qed.

End Constraint_jacobian.

(** ** The constraint Jacobian at work on the one-bus network *)

Section One_bus.
Import Exact.
Local Existing Instance one_bus_pypower.
Local Open Scope R_scope.

Lemma one_bus_init : __init__ one_bus_eppci = Ok one_bus.
Proof. reflexivity. Qed.

Lemma one_bus_power (vm th : R) :
  nth 0 (busPower (Ybus one_bus) (voltage [vm] [th])) (0, 0) =
  (vm * vm * (Rsqr (sin th) + Rsqr (cos th)), 0).
Proof.
  unfold busPower, voltage, dot. simpl. unfold Rsqr. f_equal; ring.
Qed.

Lemma derivable_square_at_1 :
  derivable_pt_lim (fun t => (1 + t) * (1 + t) * 1) 0 2.
Proof.
  intros eps Heps. exists (mkposreal eps Heps). intros h Hh Hlt.
  replace (((1 + (0 + h)) * (1 + (0 + h)) * 1 - (1 + 0) * (1 + 0) * 1) / h - 2)
    with h by (field; exact Hh).
  exact Hlt.
Qed.

Lemma one_bus_jacobian :
  is_bus_power_jacobian (Ybus one_bus) (v one_bus) (delta one_bus)
    (Matrix 1 [[(2, 0)]]) (Matrix 1 [[(0, 0)]]).
Proof.
  intros k col x Hx. unfold bus_power_jacobian_row in Hx. cbn [rows] in Hx.
  destruct k as [|k]; [|destruct k; discriminate].
  cbn [nth app] in Hx.
  destruct col as [|[|col]]; try discriminate; injection Hx as <-;
    unfold partial_at; cbn [v delta one_bus length Nat.ltb Nat.leb Nat.sub fst snd];
    split.
  - apply (derivable_pt_lim_ext (fct_cte 1)); [|apply derivable_pt_lim_const].
    intros t. unfold bump; cbn [alter list_alter]. rewrite one_bus_power, sin2_cos2.
    unfold fct_cte. simpl. ring.
  - apply (derivable_pt_lim_ext (fct_cte 0)); [|apply derivable_pt_lim_const].
    intros t. unfold bump; cbn [alter list_alter]. rewrite one_bus_power. reflexivity.
  - apply (derivable_pt_lim_ext (fun t => (1 + t) * (1 + t) * 1));
      [|apply derivable_square_at_1].
    intros t. unfold bump; cbn [alter list_alter]. rewrite one_bus_power.
    rewrite sin2_cos2. reflexivity.
  - apply (derivable_pt_lim_ext (fct_cte 0)); [|apply derivable_pt_lim_const].
    intros t. unfold bump; cbn [alter list_alter]. rewrite one_bus_power. reflexivity.
Qed.

Lemma create_cx_jacobian_unscaled_witness :
  exists J,
    BaseAlgebraZeroInjConstraints.create_cx_jacobian [1] [0%Z] [0%Z] one_bus
      = Ok (J, one_bus) /\
    BaseAlgebraZeroInjConstraints.create_cx [1] [0%Z] [0%Z] one_bus =
      Ok (constraint_values one_bus [0%Z] [0%Z] (v one_bus) (delta one_bus), one_bus) /\
    Mat.shape J = (2%nat, 1%nat) /\
    Mat.wf J /\
    (forall r c,
       (r < 2)%nat -> (c < 1)%nat ->
       exists col y,
         Np.flatnonzero_from 0 (delta_v_bus_mask one_bus) !! c = Some col /\
         entry J r c = Some y) /\
    forall r c col y,
      Np.flatnonzero_from 0 (delta_v_bus_mask one_bus) !! c = Some col ->
      entry J r c = Some y ->
      let c_r := fun vm th => nth r (constraint_values one_bus [0%Z] [0%Z] vm th) 0 in
      partial_at c_r (v one_bus) (delta one_bus) col (y * baseMVA one_bus) /\
      (baseMVA one_bus <> 0 ->
       forall D, partial_at c_r (v one_bus) (delta one_bus) col D ->
                 y = / baseMVA one_bus * D).
Proof.
  apply (create_cx_jacobian_unscaled one_bus one_bus [1] [0%Z] [0%Z]
           (Matrix 1 [[(2, 0)]]) (Matrix 1 [[(0, 0)]]));
    try reflexivity.
  - split; [reflexivity|split; [reflexivity|repeat constructor]].
  - split; [reflexivity|split; [reflexivity|repeat constructor]].
  - exact one_bus_jacobian.
  - simpl. apply Forall_cons. split; [lia|constructor].
  - simpl. apply Forall_cons. split; [lia|constructor].
Defined.

End One_bus.

(** * Further properties of the methods *)

(** ** What a returning call tells *)

Section Returns.
Context `{Scalars} `{!Pypower}.

Lemma get_inv (s a s' : BaseAlgebra) : get s = Ok (a, s') -> a = s /\ s' = s.
Proof. intros [= <- <-]. auto. Qed.

Lemma ret_inv {A} (a b : A) (s s' : BaseAlgebra) :
  (mret a : M A) s = Ok (b, s') -> b = a /\ s' = s.
Proof. intros [= <- <-]. auto. Qed.

Lemma compress_inv {A} (mask : list bool) (a r : list A) :
  Np.compress mask a = Ok r ->
  length mask = length a /\ r = restricted mask a /\ length r = count_true mask.
Proof.
  unfold Np.compress. destruct (Nat.eqb_spec (length mask) (length a)) as [Hl|];
    [|discriminate].
  intros [= <-]. split; [exact Hl|]. split; [apply compress_restricted, Hl|].
  rewrite compress_go_length by exact Hl. unfold Np.flatnonzero.
  rewrite length_map. apply flatnonzero_count.
Qed.

(** A returning [create_hx] has decoded [E] and compressed some full vector
    with the mask. *)
Lemma create_hx_inv (E : list real) (s s' : BaseAlgebra) (hx : list real) :
  create_hx E s = Ok (hx, s') ->
  _e2v E s = Ok ((v s', delta s'), s') /\
  exists full, Np.compress (non_nan_meas_mask s') full = Ok hx.
Proof.
  unfold create_hx. intros Hc.
  apply after_e2v in Hc as [He Hk]; [|intros [v0 d0]; reads_tac].
  split; [exact He|]. cbv beta iota in Hk.
  apply M_bind_inv in Hk as (self & s1 & Hg & Hk). apply get_inv in Hg as [-> ->].
  repeat (apply M_bind_inv in Hk as (? & ? & Hl & Hk);
          apply lift_inv in Hl as [_ ->]).
  apply lift_inv in Hk as [Hk _]. eauto.
Qed.

Lemma create_rx_inv (E : list real) (s s' : BaseAlgebra) (r : list real) :
  create_rx E s = Ok (r, s') ->
  exists hx, create_hx E s = Ok (hx, s') /\ Np.bcast2 Fsub (z s') hx = Ok r.
Proof.
  unfold create_rx. intros Hc.
  apply M_bind_inv in Hc as (hx & s1 & Hhx & Hk).
  apply M_bind_inv in Hk as (self & s2 & Hg & Hk). apply get_inv in Hg as [-> ->].
  apply lift_inv in Hk as [Hk ->]. eauto.
Qed.

Lemma bcast2_mismatch {A B D} (f : A -> B -> D) (a : list A) (b : list B) :
  length a <> length b -> length a <> 1 -> length b <> 1 ->
  Np.bcast2 f a b = Raise ValueError.
Proof.
  intros Hne Ha Hb. unfold Np.bcast2.
  destruct (Nat.eqb_spec (length a) (length b)); [contradiction|].
  destruct a as [|x [|y a]], b as [|u [|w b]]; simpl in *; congruence.
Qed.

Lemma create_hx_length_aux (E : list real) (s s' : BaseAlgebra) (hx : list real) :
  create_hx E s = Ok (hx, s') ->
  length hx = count_true (non_nan_meas_mask s).
Proof.
  intros Hc. apply create_hx_inv in Hc as (He & full & Hf).
  apply e2v_unchanged in He.
  destruct He as (_&_&_&_&_&_&_&_&_&_&_&_&_& Hm &_). rewrite <- Hm.
  apply compress_inv in Hf as (_ & _ & Hl). exact Hl.
Qed.

(** X1.  Whenever [create_hx] returns, the vector it returns has as many
    entries as [non_nan_meas_mask] has true entries, and the object it
    leaves is the one [_e2v] leaves at the same [E]. *)
Theorem create_hx_length (E : list real) (s s' : BaseAlgebra) (hx : list real) :
  create_hx E s = Ok (hx, s') ->
  length hx = count_true (non_nan_meas_mask s) /\
  _e2v E s = Ok ((v s', delta s'), s').
Proof.
  intros Hc. split; [eapply create_hx_length_aux, Hc|].
  apply create_hx_inv in Hc as (He & _). exact He.
Qed.

(** X2.  When [z] has one entry per observed measurement, a returning
    [create_rx] gives [z - hx] entry by entry, for the [hx] that [create_hx]
    returns at the same [E], and leaves the object as [create_hx] does. *)
Theorem create_rx_residual (E : list real) (s s' : BaseAlgebra) (r : list real)
  (Hr : create_rx E s = Ok (r, s'))
  (Hz : length (z s) = count_true (non_nan_meas_mask s)) :
  exists hx,
    create_hx E s = Ok (hx, s') /\
    r = zip_with Fsub (z s) hx /\
    length r = count_true (non_nan_meas_mask s).
Proof.
  apply create_rx_inv in Hr as (hx & Hhx & Hb).
  pose proof Hhx as Hc. apply create_hx_inv in Hc as (He & full & Hf).
  apply e2v_unchanged in He.
  destruct He as (_&_&_&_&_&_&_&_&_&_&_&_&_& Hm &_&_&_& Hzz &_).
  apply compress_inv in Hf as (_ & _ & Hl). rewrite Hm in Hl.
  rewrite Hzz, bcast2_same in Hb by lia. injection Hb as <-.
  exists hx. split; [exact Hhx|]. split; [reflexivity|].
  rewrite length_zip_with. lia.
Qed.

(** X3.  When [create_hx] returns [hx] and [z] has another length than
    [hx], neither of them a single entry, [create_rx] raises ValueError. *)
Theorem create_rx_shape_error (E : list real) (s s' : BaseAlgebra) (hx : list real)
  (Hhx : create_hx E s = Ok (hx, s'))
  (Hne : length (z s) <> length hx)
  (Hz1 : length (z s) <> 1)
  (Hh1 : length hx <> 1) :
  create_rx E s = Raise ValueError.
Proof.
  unfold create_rx. rewrite (M_bind_Ok _ _ _ _ _ Hhx), bind_get.
  apply create_hx_inv in Hhx as (He & _). apply e2v_unchanged in He.
  destruct He as (_&_&_&_&_&_&_&_&_&_&_&_&_&_&_&_&_& Hzz &_).
  unfold lift. rewrite Hzz, bcast2_mismatch by assumption. reflexivity.
Qed.

End Returns.

Ltac peel_as H Hm :=
  let a := fresh "a" in
  let s1 := fresh "s" in
  apply M_bind_inv in H as (a & s1 & Hm & H);
  let Hs := fresh "Hs" in
  match type of Hm with
  | ?m ?s0 = Ok (_, _) =>
      assert (Hs : s1 = s0)
        by (let Hr := fresh "Hr" in
            assert (Hr : reads m) by (reads_tac; auto);
            exact (Hr _ _ _ Hm))
  end;
  subst s1; cbv beta iota in H.

Tactic Notation "peel" hyp(H) "as" ident(Hm) := peel_as H Hm.
Tactic Notation "peel" hyp(H) := let Hm := fresh "Hm" in peel_as H Hm.

Section Shapes.
Context `{Scalars} `{!Pypower}.

Lemma res_mapM_Forall2 {A B} (f : A -> res B) (l : list A) (k : list B) :
  res_mapM f l = Ok k -> Forall2 (fun x y => f x = Ok y) l k.
Proof.
  revert k. induction l as [|x l IH]; simpl; intros k.
  - intros [= <-]. constructor.
  - destruct (f x) as [y|] eqn:Hx; simpl; [|discriminate].
    destruct (res_mapM f l) as [ys|]; simpl; [|discriminate].
    intros [= <-]. constructor; auto.
Qed.

Lemma select_rows_inv {A} (idx : list Z) (m picked : matrix A) :
  Mat.select_rows idx m = Ok picked ->
  Mat.nrows picked = length idx /\ ncols picked = ncols m /\
  (Mat.wf m -> Mat.wf picked).
Proof.
  unfold Mat.select_rows. intros Hs. apply res_bind_inv in Hs as (rs & Hrs & Hs).
  injection Hs as <-. unfold Mat.nrows, Mat.wf. cbn [rows ncols].
  split; [eapply take_length, Hrs|]. split; [reflexivity|].
  intros Hwf. apply res_mapM_Forall2 in Hrs.
  rewrite Forall_forall in Hwf. apply Forall_forall. intros r Hr.
  apply list_elem_of_lookup in Hr as (i & Hi).
  destruct (Forall2_lookup_r _ _ _ _ _ Hrs Hi) as (b & _ & Hb).
  apply res_bind_inv in Hb as (k & _ & Hb).
  destruct (rows m !! k) as [x|] eqn:Hx; [|discriminate]. injection Hb as <-.
  apply Hwf. eapply list_elem_of_lookup_2, Hx.
Qed.

Lemma select_cols_inv {A} (idx : list Z) (m J : matrix A) :
  Mat.select_cols idx m = Ok J ->
  Mat.nrows J = Mat.nrows m /\ ncols J = length idx /\ Mat.wf J.
Proof.
  unfold Mat.select_cols. intros Hs. apply res_bind_inv in Hs as (ks & _ & Hs).
  apply res_bind_inv in Hs as (rs & Hrs & Hs). injection Hs as <-.
  unfold Mat.nrows, Mat.wf. cbn [rows ncols].
  split; [eapply res_mapM_length, Hrs|]. split; [reflexivity|].
  apply res_mapM_Forall2 in Hrs. apply Forall_forall. intros r Hr.
  apply list_elem_of_lookup in Hr as (i & Hi).
  destruct (Forall2_lookup_r _ _ _ _ _ Hrs Hi) as (row & _ & Hrow).
  eapply take_length, Hrow.
Qed.

Lemma vstack2_inv {A} (a b m : matrix A) :
  Mat.vstack [a; b] = Ok m -> Mat.nrows m = Mat.nrows a + Mat.nrows b.
Proof.
  simpl. unfold Mat.vconcat. destruct (ncols a =? ncols b); [|discriminate].
  intros [= <-]. unfold Mat.nrows. cbn [rows]. apply length_app.
Qed.

Lemma hstack2_inv {A} (a b m : matrix A) :
  Mat.hstack [a; b] = Ok m -> Mat.nrows m = Mat.nrows a.
Proof.
  simpl. unfold Mat.hconcat.
  destruct (Nat.eqb_spec (Mat.nrows a) (Mat.nrows b)) as [He|]; [|discriminate].
  intros [= <-]. unfold Mat.nrows in *. cbn [rows].
  rewrite length_zip_with. lia.
Qed.

Lemma mask_cols_inv {A} (mask : list bool) (m J : matrix A) :
  Mat.mask_cols mask m = Ok J ->
  Mat.nrows J = Mat.nrows m /\ ncols J = count_true mask.
Proof.
  unfold Mat.mask_cols. destruct (length mask =? ncols m); [|discriminate].
  intros [= <-]. unfold Mat.nrows, Np.flatnonzero. cbn [rows ncols].
  rewrite !length_map. split; [reflexivity|apply flatnonzero_count].
Qed.

(** A returning [create_hx_jacobian] has decoded [E] and projected some
    stacked matrix with the two selectors. *)
Lemma create_hx_jacobian_inv (E : list real) (s s' : BaseAlgebra) (J : matrix real) :
  create_hx_jacobian E s = Ok (J, s') ->
  _e2v E s = Ok ((v s', delta s'), s') /\
  exists jac picked,
    Mat.select_rows (non_nan_meas_selector s') jac = Ok picked /\
    Mat.select_cols (delta_v_bus_selector s') picked = Ok J.
Proof.
  pose proof reads_dSbus_dv. pose proof reads_dSbr_dv.
  pose proof reads_dVbus_dv. pose proof reads_dibr_dv.
  unfold create_hx_jacobian. intros Hc.
  apply after_e2v in Hc as [He Hk]; [|intros [v0 d0]; reads_tac; auto].
  split; [exact He|]. cbv beta iota in Hk.
  peel Hk. peel Hk. destruct a0 as [dSbus_dth dSbus_dv].
  peel Hk. destruct a0 as [[[dSf_dth dSf_dv] dSt_dth] dSt_dv].
  peel Hk. destruct a0 as [dv_dth dv_dv].
  do 4 peel Hk. peel Hk. peel Hk. peel Hk as Hg. peel Hk as Hrows.
  apply lift_inv in Hk as [Hk _].
  apply get_inv in Hg as [-> _].
  apply lift_inv in Hrows as [Hrows _]. eauto.
Qed.

(** X4.  Whenever [create_hx_jacobian] returns, the matrix has one row per
    entry of [non_nan_meas_selector] and one column per entry of
    [delta_v_bus_selector], every row of that length. *)
Theorem create_hx_jacobian_shape (E : list real) (s s' : BaseAlgebra) (J : matrix real) :
  create_hx_jacobian E s = Ok (J, s') ->
  Mat.shape J = (length (non_nan_meas_selector s), length (delta_v_bus_selector s)) /\
  Mat.wf J.
Proof.
  intros Hc. apply create_hx_jacobian_inv in Hc as (He & jac & picked & Hr & Hcs).
  apply e2v_unchanged in He.
  destruct He as (_&_&_&_&_&_&_&_&_&_&_&_&_&_&_& Hrs & Hcl &_).
  apply select_rows_inv in Hr as (Hn & _). apply select_cols_inv in Hcs as (Hn' & Hc' & Hwf).
  split; [|exact Hwf]. unfold Mat.shape. rewrite Hn', Hn, Hc', Hrs, Hcl. reflexivity.
Qed.

(** X5.  On an object whose selectors are the true positions of its masks,
    when [create_hx] and [create_hx_jacobian] both return at the same [E],
    the Jacobian has one row per entry of the measurement vector and one
    column per free state variable, and both calls leave the same object. *)
Theorem jacobian_rows_match_measurements (E : list real) (s s1 s2 : BaseAlgebra)
    (hx : list real) (J : matrix real)
  (Hsel : selectors_of_masks s)
  (Hhx : create_hx E s = Ok (hx, s1))
  (HJ : create_hx_jacobian E s = Ok (J, s2)) :
  Mat.nrows J = length hx /\
  ncols J = count_true (delta_v_bus_mask s) /\
  s1 = s2.
Proof.
  destruct Hsel as [Hrs Hcs].
  pose proof (create_hx_inv _ _ _ _ Hhx) as (He1 & _).
  pose proof (create_hx_jacobian_inv _ _ _ _ HJ) as (He2 & jac & picked & Hr & Hc).
  rewrite He1 in He2. injection He2 as _ _ Hs.
  apply e2v_unchanged in He1.
  destruct He1 as (_&_&_&_&_&_&_&_&_&_&_&_&_& Hm & Hd & Hrs' & Hcs' &_).
  apply select_rows_inv in Hr as (Hn & _). apply select_cols_inv in Hc as (Hn' & Hc' & _).
  rewrite (create_hx_length_aux _ _ _ _ Hhx).
  rewrite Hn', Hn, Hc', <- Hs, Hrs', Hcs', Hrs, Hcs. unfold Np.flatnonzero.
  rewrite !length_map, !flatnonzero_count. auto.
Qed.

End Shapes.

Section Constraint_shapes.
Context `{Scalars} `{!Pypower}.

Lemma create_cx_inv (E : list real) (p q : list Z) (s s' : BaseAlgebra) (c : list real) :
  BaseAlgebraZeroInjConstraints.create_cx E p q s = Ok (c, s') ->
  _e2v E s = Ok ((v s', delta s'), s') /\ length c = length p + length q.
Proof.
  unfold BaseAlgebraZeroInjConstraints.create_cx. intros Hc.
  apply after_e2v in Hc as [He Hk]; [|intros [v0 d0]; reads_tac].
  split; [exact He|]. cbv beta iota in Hk.
  do 4 peel Hk. peel Hk as Hp. peel Hk as Hq. apply ret_inv in Hk as [-> _].
  apply lift_inv in Hp as [Hp _]. apply lift_inv in Hq as [Hq _].
  apply take_length in Hp, Hq.
  rewrite length_map, length_app, !length_map. lia.
Qed.

Lemma create_cx_jacobian_inv (E : list real) (p q : list Z) (s s' : BaseAlgebra)
    (J : matrix real) :
  BaseAlgebraZeroInjConstraints.create_cx_jacobian E p q s = Ok (J, s') ->
  _e2v E s = Ok ((v s', delta s'), s') /\
  Mat.nrows J = length p + length q /\
  ncols J = count_true (delta_v_bus_mask s').
Proof.
  pose proof reads_dSbus_dv.
  unfold BaseAlgebraZeroInjConstraints.create_cx_jacobian. intros Hc.
  apply after_e2v in Hc as [He Hk]; [|intros [v0 d0]; reads_tac; auto].
  split; [exact He|]. cbv beta iota in Hk.
  peel Hk. peel Hk. destruct a0 as [dSbus_dth dSbus_dv].
  peel Hk as Hp. peel Hk as Hq. peel Hk as Hth. do 3 peel Hk.
  peel Hk as Hc. peel Hk as Hg. apply lift_inv in Hk as [Hk _].
  apply lift_inv in Hp as [Hp _]. apply lift_inv in Hq as [Hq _].
  apply lift_inv in Hth as [Hth _]. apply lift_inv in Hc as [Hc _].
  apply get_inv in Hg as [-> _].
  apply select_rows_inv in Hp as (Hp & _). apply select_rows_inv in Hq as (Hq & _).
  apply vstack2_inv in Hth. apply hstack2_inv in Hc.
  apply mask_cols_inv in Hk as (Hn & Hcols).
  split; [lia|exact Hcols].
Qed.

(** X6.  When [create_cx] and [create_cx_jacobian] both return at the same
    [E] and index lists, the constraint vector has one entry per index of
    [p_idx] and [q_idx], the Jacobian one row per entry of the vector and
    one column per true entry of [delta_v_bus_mask], and both calls leave
    the same object. *)
Theorem constraint_rows_match (E : list real) (p q : list Z) (s s1 s2 : BaseAlgebra)
    (c : list real) (J : matrix real)
  (Hc : BaseAlgebraZeroInjConstraints.create_cx E p q s = Ok (c, s1))
  (HJ : BaseAlgebraZeroInjConstraints.create_cx_jacobian E p q s = Ok (J, s2)) :
  length c = length p + length q /\
  Mat.nrows J = length c /\
  ncols J = count_true (delta_v_bus_mask s) /\
  s1 = s2.
Proof.
  apply create_cx_inv in Hc as (He1 & Hl).
  apply create_cx_jacobian_inv in HJ as (He2 & Hn & Hcols).
  rewrite He1 in He2. injection He2 as _ _ Hs.
  apply e2v_unchanged in He1.
  destruct He1 as (_&_&_&_&_&_&_&_&_&_&_&_&_&_& Hd &_).
  rewrite <- Hs, Hd in Hcols. repeat split; try assumption; lia.
Qed.

End Constraint_shapes.

(** ** Errors *)

Lemma res_mapM_raise {A B} (f : A -> res B) (l : list A) (e : exn) :
  Forall (fun x => f x = Raise e \/ exists y, f x = Ok y) l ->
  Exists (fun x => f x = Raise e) l ->
  res_mapM f l = Raise e.
Proof.
  induction 1 as [|x l Hx _ IH]; intros Hex; [inversion Hex|].
  simpl. destruct Hx as [Hx|[y Hx]]; rewrite Hx; simpl; [reflexivity|].
  apply Exists_cons in Hex as [Hex|Hex]; [congruence|].
  rewrite (IH Hex). reflexivity.
Qed.

Lemma index_out_of_range (n : nat) (i : Z) :
  ~ (- Z.of_nat n <= i < Z.of_nat n)%Z -> Np.index n i = Raise IndexError.
Proof.
  intros Hi. unfold Np.index.
  destruct (Z.leb_spec 0 i), (Z.ltb_spec i (Z.of_nat n)); simpl; try lia;
    destruct (Z.leb_spec (- Z.of_nat n) i), (Z.ltb_spec i 0); simpl;
    try lia; reflexivity.
Qed.

Lemma index_cases (n : nat) (i : Z) :
  Np.index n i = Raise IndexError \/ exists k, Np.index n i = Ok k.
Proof.
  unfold Np.index. destruct (_ && _); [eauto|]. destruct (_ && _); eauto.
Qed.

Lemma indices_error (n : nat) (idx : list Z) :
  Exists (fun i => ~ (- Z.of_nat n <= i < Z.of_nat n)%Z) idx ->
  res_mapM (Np.index n) idx = Raise IndexError.
Proof.
  intros Hex. apply res_mapM_raise.
  - apply Forall_forall. intros i _. apply index_cases.
  - eapply Exists_impl; [exact Hex|]. intros i Hi. apply index_out_of_range, Hi.
Qed.

Lemma take_index_error {A} (a : list A) (idx : list Z) :
  Exists (fun i => ~ (- Z.of_nat (length a) <= i < Z.of_nat (length a))%Z) idx ->
  Np.take a idx = Raise IndexError.
Proof.
  intros Hex. unfold Np.take. apply res_mapM_raise.
  - apply Forall_forall. intros i _.
    destruct (index_cases (length a) i) as [Hi|[k Hi]]; rewrite Hi; simpl; [auto|].
    destruct (a !! k); eauto.
  - eapply Exists_impl; [exact Hex|]. intros i Hi. simpl.
    rewrite index_out_of_range by exact Hi. reflexivity.
Qed.

Lemma broadcast_to_mismatch {A} (n : nat) (vals : list A) :
  length vals <> n -> length vals <> 1 -> Np.broadcast_to n vals = Raise ValueError.
Proof.
  intros Hn H1. unfold Np.broadcast_to.
  destruct (Nat.eqb_spec (length vals) n); [contradiction|].
  destruct vals as [|x [|y vals]]; simpl in *; congruence.
Qed.

Lemma flatnonzero_from_elem (mask : list bool) (k i : nat) :
  mask !! i = Some true -> (k + i) ∈ Np.flatnonzero_from k mask.
Proof.
  revert k i. induction mask as [|b mask IH]; intros k i Hi; [discriminate|].
  destruct i as [|i]; simpl in *.
  - injection Hi as ->. rewrite Nat.add_0_r. left.
  - specialize (IH (S k) i Hi). replace (k + S i) with (S k + i) by lia.
    destruct b; [right|]; exact IH.
Qed.

Section Errors.
Context `{Scalars} `{!Pypower}.

Lemma e2v_raise {A} (k : list real * list real -> M A) E s e :
  _e2v E s = Raise e -> (_e2v E ≫= k) s = Raise e.
Proof. unfold mbind, M_bind. intros ->. reflexivity. Qed.

Lemma bind_raise {A B} (m : M A) (k : A -> M B) s e :
  m s = Raise e -> (m ≫= k) s = Raise e.
Proof. unfold mbind, M_bind. intros ->. reflexivity. Qed.

(** An error of the decode step is the error of every public method. *)
Lemma decode_error_propagates (E : list real) (s : BaseAlgebra) (e : exn) :
  _e2v E s = Raise e ->
  create_hx E s = Raise e /\
  create_rx E s = Raise e /\
  create_hx_jacobian E s = Raise e /\
  (forall p q, BaseAlgebraZeroInjConstraints.create_cx E p q s = Raise e) /\
  (forall p q, BaseAlgebraZeroInjConstraints.create_cx_jacobian E p q s = Raise e).
Proof.
  intros He.
  assert (Hhx : create_hx E s = Raise e) by (apply e2v_raise, He).
  split; [exact Hhx|]. split; [apply bind_raise, Hhx|].
  split; [apply e2v_raise, He|]. split; intros p q; apply e2v_raise, He.
Qed.

(** X7.  When the angle segment of [E] has one entry per non-slack bus but
    some non-slack bus index lies outside the angle vector, decoding raises
    IndexError, and so does every public method called with [E]. *)
Theorem e2v_index_error (E : list real) (s : BaseAlgebra)
  (Hl : length (take (num_non_slack_bus s) E) = length (non_slack_buses s))
  (Hb : Exists (fun b => ~ (- Z.of_nat (length (delta s)) <= b
                            < Z.of_nat (length (delta s)))%Z)
               (non_slack_buses s)) :
  _e2v E s = Raise IndexError /\
  create_hx E s = Raise IndexError /\
  create_rx E s = Raise IndexError /\
  create_hx_jacobian E s = Raise IndexError /\
  (forall p q, BaseAlgebraZeroInjConstraints.create_cx E p q s = Raise IndexError) /\
  (forall p q, BaseAlgebraZeroInjConstraints.create_cx_jacobian E p q s
               = Raise IndexError).
Proof.
  assert (He : _e2v E s = Raise IndexError).
  { rewrite e2v_unfold. unfold Np.put.
    rewrite broadcast_to_same by exact Hl. simpl.
    rewrite indices_error by exact Hb. reflexivity. }
  split; [exact He|]. apply decode_error_propagates, He.
Qed.

(** X8.  When the angle segment taken from [E] has neither one entry per
    non-slack bus nor a single entry (a state vector that is too short, for
    one), decoding raises ValueError, whether the non-slack bus indices are
    valid or not, and so does every public method called with [E]. *)
Theorem e2v_shape_error (E : list real) (s : BaseAlgebra)
  (Hl : length (take (num_non_slack_bus s) E) <> length (non_slack_buses s))
  (H1 : length (take (num_non_slack_bus s) E) <> 1) :
  _e2v E s = Raise ValueError /\
  create_hx E s = Raise ValueError /\
  create_rx E s = Raise ValueError /\
  create_hx_jacobian E s = Raise ValueError /\
  (forall p q, BaseAlgebraZeroInjConstraints.create_cx E p q s = Raise ValueError) /\
  (forall p q, BaseAlgebraZeroInjConstraints.create_cx_jacobian E p q s
               = Raise ValueError).
Proof.
  assert (He : _e2v E s = Raise ValueError).
  { rewrite e2v_unfold. unfold Np.put.
    rewrite broadcast_to_mismatch by assumption. reflexivity. }
  split; [exact He|]. apply decode_error_propagates, He.
Qed.

End Errors.

Section More_errors.
Context `{Scalars} `{!Pypower}.

Lemma consistent_well_shaped (s : BaseAlgebra) : consistent s -> well_shaped s.
Proof. intros []. split; assumption. Qed.

Lemma e2v_returns_shaped (s : BaseAlgebra) (E : list real) :
  well_shaped s -> length E = num_non_slack_bus s + n_bus s ->
  exists s',
    _e2v E s = Ok ((v s', delta s'), s') /\
    unchanged_configuration s s' /\
    length (v s') = n_bus s /\ length (delta s') = n_bus s.
Proof.
  intros Hc HE.
  assert (Hput : Np.put (delta s) (non_slack_buses s) (take (num_non_slack_bus s) E) =
                 Ok (Np.store (delta s) (List.map Z.to_nat (non_slack_buses s))
                              (take (num_non_slack_bus s) E))).
  { unfold Np.put. rewrite (ws_delta_length s Hc), indices_in_range by apply Hc.
    simpl. rewrite broadcast_to_same; [reflexivity|].
    rewrite length_take, (ws_nsb_length s Hc). lia. }
  eexists (set_delta (set_v s _) _). simpl. split; [|split; [|split]].
  - rewrite e2v_unfold, Hput. reflexivity.
  - unfold unchanged_configuration. simpl. tauto.
  - rewrite length_drop. lia.
  - rewrite store_length. apply Hc.
Qed.

(** On a well-shaped object [create_hx] comes down to its last line: the
    mask applied to the full vector of the decoded state. *)
Lemma create_hx_compress (s : BaseAlgebra) (E : list real) :
  well_shaped s -> length E = num_non_slack_bus s + n_bus s ->
  exists s1,
    _e2v E s = Ok ((v s1, delta s1), s1) /\
    create_hx E s = lift (Np.compress (non_nan_meas_mask s) (all_measurements s1)) s1 /\
    length (all_measurements s1) = 3 * n_bus s + 6 * n_branch s.
Proof.
  intros Hc HE.
  destruct (e2v_returns_shaped s E Hc HE) as (s1 & He & Hu & Hlv & Hld).
  destruct Hu as (_ & Hfb & Htb & Hnb & Hnbr & _ & _ & _ & _ & _ &
                  HYbus & HYf & HYt & Hmask & _).
  exists s1. split; [exact He|].
  set (V := voltage (v s1) (delta s1)).
  assert (HlV : length V = n_bus s) by (unfold V; rewrite voltage_length; lia).
  assert (HYb : Mat.nrows (Ybus s1) = length V) by (rewrite HYbus, HlV; apply Hc).
  assert (HYfr : Mat.nrows (Yf s1) = n_branch s) by (rewrite HYf; apply Hc).
  assert (HYtr : Mat.nrows (Yt s1) = n_branch s) by (rewrite HYt; apply Hc).
  assert (Hfbl : length (fb s1) = Mat.nrows (Yf s1)) by (rewrite HYfr, Hfb; apply Hc).
  assert (Htbl : length (tb s1) = Mat.nrows (Yt s1)) by (rewrite HYtr, Htb; apply Hc).
  assert (Hlen : length (all_measurements s1) = 3 * n_bus s + 6 * n_branch s).
  { unfold all_measurements. fold V.
    rewrite !length_app, !length_map, !(busPower_length _ _ HYb),
      !(branchPower_length _ _ _ Hfbl), !(branchPower_length _ _ _ Htbl),
      !branchCurrent_length, HlV, HYfr, HYtr, Hlv. lia. }
  split; [|exact Hlen].
  unfold create_hx. rewrite (M_bind_Ok _ _ _ _ _ He). cbv beta iota.
  rewrite bind_get.
  rewrite (bind_lift _ V) by (apply polar_voltage; lia).
  assert (Hfr : Forall (fun i => (0 <= i < Z.of_nat (length V))%Z) (fb s1))
    by (rewrite Hfb, HlV; apply Hc).
  assert (Htr : Forall (fun i => (0 <= i < Z.of_nat (length V))%Z) (tb s1))
    by (rewrite Htb, HlV; apply Hc).
  rewrite (bind_lift _ _ _ _ (take_in_range V (fb s1) C0 Hfr)).
  rewrite (bind_lift _ (branchCurrent (Yf s1) V))
    by (apply mat_vec_current; rewrite HYf, HlV; apply Hc).
  rewrite (bind_lift _ (branchPower (fb s1) (Yf s1) V))
    by (apply branchPower_code; exact Hfbl).
  rewrite (bind_lift _ _ _ _ (take_in_range V (tb s1) C0 Htr)).
  rewrite (bind_lift _ (branchCurrent (Yt s1) V))
    by (apply mat_vec_current; rewrite HYt, HlV; apply Hc).
  rewrite (bind_lift _ (branchPower (tb s1) (Yt s1) V))
    by (apply branchPower_code; exact Htbl).
  rewrite (bind_lift _ (branchCurrent (Ybus s1) V))
    by (apply mat_vec_current; rewrite HYbus, HlV; apply Hc).
  rewrite (bind_lift _ (busPower (Ybus s1) V))
    by (apply busPower_code; exact HYb).
  rewrite (bind_lift _ (branchCurrent (Yf s1) V))
    by (apply mat_vec_current; rewrite HYf, HlV; apply Hc).
  rewrite (bind_lift _ (branchCurrent (Yt s1) V))
    by (apply mat_vec_current; rewrite HYt, HlV; apply Hc).
  cbv zeta. fold (all_measurements s1). rewrite Hmask. reflexivity.
Qed.

(** X9.  On a well-shaped object, when [non_nan_meas_mask] does not have
    exactly [3 * n_bus + 6 * n_branch] entries, [create_hx] and [create_rx]
    raise IndexError for every state vector of the right length. *)
Theorem create_hx_mask_error (s : BaseAlgebra) (E : list real)
  (Hs : well_shaped s)
  (HE : length E = num_non_slack_bus s + n_bus s)
  (Hm : length (non_nan_meas_mask s) <> 3 * n_bus s + 6 * n_branch s) :
  create_hx E s = Raise IndexError /\ create_rx E s = Raise IndexError.
Proof.
  destruct (create_hx_compress s E Hs HE) as (s1 & _ & Hc & Hl).
  assert (Hhx : create_hx E s = Raise IndexError).
  { rewrite Hc. unfold lift, Np.compress. rewrite Hl.
    destruct (Nat.eqb_spec (length (non_nan_meas_mask s))
                (3 * n_bus s + 6 * n_branch s)); [contradiction|reflexivity]. }
  split; [exact Hhx|]. unfold create_rx. apply bind_raise, Hhx.
Qed.

(** X10.  With [any_i_meas] false the stacked matrix has no
    current-magnitude rows: when [non_nan_meas_mask] nevertheless marks a
    slot at or beyond [3 * n_bus + 4 * n_branch], [create_hx_jacobian]
    raises IndexError. *)
Theorem jacobian_current_slot_error (self s1 : BaseAlgebra) (E : list real)
    (P : power_derivatives) (I : current_derivatives) (i : nat)
  (He : _e2v E self = Ok ((v s1, delta s1), s1))
  (Hlv : length (v s1) = n_bus s1)
  (Hld : length (delta s1) = n_bus s1)
  (Hoff : any_i_meas self = false)
  (HP : returns_power s1 (voltage (v s1) (delta s1)) P)
  (Hrs : non_nan_meas_selector s1 = Np.flatnonzero (non_nan_meas_mask s1))
  (Hi : non_nan_meas_mask s1 !! i = Some true)
  (Hslot : 3 * n_bus s1 + 4 * n_branch s1 <= i) :
  create_hx_jacobian E self = Raise IndexError.
Proof.
  assert (Hoff1 : any_i_meas s1 = false).
  { apply e2v_unchanged in He. destruct He as (_&_&_&_&_&_&_&_&_& -> &_). exact Hoff. }
  rewrite (create_hx_jacobian_stacked self s1 E P I He Hlv Hld HP)
    by (rewrite Hoff1; discriminate).
  unfold stacked_rows. rewrite Hoff1, app_nil_r, Hrs.
  apply bind_lift_Raise. unfold Mat.select_rows. cbn [rows].
  rewrite take_index_error; [reflexivity|].
  unfold Np.flatnonzero. apply Exists_exists. exists (Z.of_nat i). split.
  - apply list_elem_of_fmap. exists i. split; [reflexivity|].
    apply (flatnonzero_from_elem _ 0 i Hi).
  - destruct HP as [_ _ S1 S2 S3 S4 S5 S6].
    destruct (power_rows_stack P _ _ S1 S2 S3 S4 S5 S6) as [_ Hplen].
    rewrite length_app, Hplen, voltage_rows_length. lia.
Qed.

(** X11.  On a well-shaped object, when [p_idx] holds a bus index outside
    [-n_bus, n_bus), [create_cx] raises IndexError for every state vector of
    the right length. *)
Theorem create_cx_index_error (s : BaseAlgebra) (E : list real) (p_idx q_idx : list Z)
  (Hs : well_shaped s)
  (HE : length E = num_non_slack_bus s + n_bus s)
  (Hp : Exists (fun b => ~ (- Z.of_nat (n_bus s) <= b < Z.of_nat (n_bus s))%Z) p_idx) :
  BaseAlgebraZeroInjConstraints.create_cx E p_idx q_idx s = Raise IndexError.
Proof.
  destruct (e2v_returns_shaped s E Hs HE) as (s1 & He & Hu & Hlv & Hld).
  destruct Hu as (_ & _ & _ & Hnb & _ & _ & _ & _ & _ & _ & HYbus & _).
  set (V := voltage (v s1) (delta s1)).
  assert (HlV : length V = n_bus s) by (unfold V; rewrite voltage_length; lia).
  assert (HYb : Mat.nrows (Ybus s1) = length V) by (rewrite HYbus, HlV; apply Hs).
  unfold BaseAlgebraZeroInjConstraints.create_cx.
  rewrite (M_bind_Ok _ _ _ _ _ He). cbv beta iota.
  rewrite (bind_lift _ V) by (apply polar_voltage; lia).
  rewrite bind_get.
  rewrite (bind_lift _ (branchCurrent (Ybus s1) V))
    by (apply mat_vec_current; rewrite HYbus, HlV; apply Hs).
  rewrite (bind_lift _ (busPower (Ybus s1) V))
    by (apply busPower_code; exact HYb).
  apply bind_lift_Raise, take_index_error.
  rewrite (busPower_length _ _ HYb), HlV. exact Hp.
Qed.

End More_errors.

(** ** Sequences of calls *)

Lemma last_stored_None {A} (k : nat) (idx : list nat) (vals : list A) :
  length vals = length idx ->
  last_stored k idx vals = None -> k ∉ idx.
Proof.
  revert vals. induction idx as [|i idx IH]; intros vals Hl Hn.
  - apply not_elem_of_nil.
  - destruct vals as [|x vals]; [discriminate|]. simpl in *.
    destruct (last_stored k idx vals) eqn:Hk; [discriminate|].
    destruct (decide (i = k)); [discriminate|].
    apply not_elem_of_cons. split; [congruence|].
    apply (IH vals); [lia|exact Hk].
Qed.

Lemma store_overwrite {A} (a : list A) (idx : list nat) (xs ys : list A) :
  length xs = length idx -> length ys = length idx ->
  Np.store (Np.store a idx xs) idx ys = Np.store a idx ys.
Proof.
  intros Hx Hy. apply list_eq. intros k.
  rewrite (store_lookup (Np.store a idx xs)), (store_lookup a idx ys).
  destruct (last_stored k idx ys) as [y|] eqn:Hk.
  - rewrite store_lookup. destruct (last_stored k idx xs); destruct (a !! k); reflexivity.
  - apply store_lookup_other. eapply last_stored_None; [|exact Hk]. exact Hy.
Qed.

Lemma broadcast_to_length {A} (n : nat) (vals xs : list A) :
  Np.broadcast_to n vals = Ok xs -> length xs = n.
Proof.
  unfold Np.broadcast_to. destruct (Nat.eqb_spec (length vals) n) as [Hn|].
  - intros [= <-]. exact Hn.
  - destruct vals as [|x [|]]; try discriminate. intros [= <-].
    apply length_replicate.
Qed.

Lemma put_overwrite {A} (a : list A) (idx : list Z) (v1 v2 a1 a2 : list A) :
  Np.put a idx v1 = Ok a1 -> Np.put a idx v2 = Ok a2 -> Np.put a1 idx v2 = Ok a2.
Proof.
  unfold Np.put. intros H1 H2.
  apply res_bind_inv in H1 as (xs & Hxs & H1).
  apply res_bind_inv in H1 as (ks & Hks & H1). injection H1 as <-.
  apply res_bind_inv in H2 as (ys & Hys & H2).
  rewrite Hks in H2. simpl in H2. injection H2 as <-.
  rewrite store_length, Hys. simpl. rewrite Hks. simpl.
  apply broadcast_to_length in Hxs, Hys. apply res_mapM_length in Hks.
  rewrite store_overwrite by lia. reflexivity.
Qed.

Section Sequences.
Context `{Scalars} `{!Pypower}.

Lemma e2v_after_e2v (E1 E2 : list real) (s s1 s2 : BaseAlgebra) x1 x2 :
  _e2v E1 s = Ok (x1, s1) -> _e2v E2 s = Ok (x2, s2) -> _e2v E2 s1 = Ok (x2, s2).
Proof.
  rewrite !e2v_unfold.
  destruct (Np.put (delta s) _ (take _ E1)) as [d1|] eqn:H1; [|discriminate].
  destruct (Np.put (delta s) _ (take _ E2)) as [d2|] eqn:H2; [|discriminate].
  intros [= <- <-] [= <- <-]. simpl.
  rewrite (put_overwrite _ _ _ _ _ _ H1 H2). reflexivity.
Qed.

(** Every returning public call has decoded its state vector and nothing
    else. *)
Lemma public_call_decodes (s s' : BaseAlgebra) :
  public_call s s' -> exists E, _e2v E s = Ok ((v s', delta s'), s').
Proof.
  pose proof reads_dSbus_dv. pose proof reads_dSbr_dv.
  pose proof reads_dVbus_dv. pose proof reads_dibr_dv.
  intros [E s0 r s1 Hc|E s0 r s1 Hc|E s0 r s1 Hc|E p q s0 r s1 Hc|E p q s0 r s1 Hc];
    exists E.
  - apply create_rx_inv in Hc as (hx & Hc & _).
    apply create_hx_inv in Hc as (He & _). exact He.
  - apply create_hx_inv in Hc as (He & _). exact He.
  - apply create_hx_jacobian_inv in Hc as (He & _). exact He.
  - apply create_cx_inv in Hc as (He & _). exact He.
  - apply create_cx_jacobian_inv in Hc as (He & _). exact He.
Qed.

Lemma after_calls_decode (E : list real) (s s1 s2 : BaseAlgebra) x :
  rtc public_call s s1 -> _e2v E s = Ok (x, s2) -> _e2v E s1 = Ok (x, s2).
Proof.
  induction 1 as [s|s s' s1 Hcall _ IH]; intros He; [exact He|].
  apply IH. apply public_call_decodes in Hcall as (E1 & H1).
  eapply e2v_after_e2v; eassumption.
Qed.

(** X12.  What a call returns does not depend on the calls made before it:
    after any sequence of returning public calls, [create_rx],
    [create_hx_jacobian] and [create_cx] return at [E] what they return on
    the object as it was, and leave the same object. *)
Theorem calls_leave_no_trace (E : list real) (s s1 : BaseAlgebra)
  (Hcalls : rtc public_call s s1) :
  (forall r s2, create_rx E s = Ok (r, s2) -> create_rx E s1 = Ok (r, s2)) /\
  (forall J s2, create_hx_jacobian E s = Ok (J, s2) ->
                create_hx_jacobian E s1 = Ok (J, s2)) /\
  (forall p q c s2, BaseAlgebraZeroInjConstraints.create_cx E p q s = Ok (c, s2) ->
                    BaseAlgebraZeroInjConstraints.create_cx E p q s1 = Ok (c, s2)).
Proof.
  assert (Hk : forall A (k : list real * list real -> M A) a s2,
             (forall x, reads (k x)) ->
             (_e2v E ≫= k) s = Ok (a, s2) -> (_e2v E ≫= k) s1 = Ok (a, s2)).
  { intros A k a s2 Hr Hc. pose proof Hc as Hc'.
    apply after_e2v in Hc' as [He Hk]; [|exact Hr].
    rewrite (M_bind_Ok _ _ _ _ _ (after_calls_decode _ _ _ _ _ Hcalls He)).
    exact Hk. }
  pose proof reads_dSbus_dv. pose proof reads_dSbr_dv.
  pose proof reads_dVbus_dv. pose proof reads_dibr_dv.
  split; [|split].
  - intros r s2 Hc. unfold create_rx in *.
    apply M_bind_inv in Hc as (hx & s3 & Hhx & Hz).
    rewrite (M_bind_Ok (create_hx E) _ s1 hx s3); [exact Hz|].
    unfold create_hx in *. apply Hk; [|exact Hhx]. intros [v0 d0]; reads_tac.
  - intros J s2 Hc. unfold create_hx_jacobian in *.
    apply Hk; [|exact Hc]. intros [v0 d0]; reads_tac; auto.
  - intros p q c s2 Hc. unfold BaseAlgebraZeroInjConstraints.create_cx in *.
    apply Hk; [|exact Hc]. intros [v0 d0]; reads_tac.
Qed.

Lemma public_call_keeps (s s' : BaseAlgebra) :
  public_call s s' ->
  unchanged_configuration s s' /\ length (delta s') = length (delta s).
Proof.
  intros Hc. apply public_call_decodes in Hc as (E & He).
  split; [eapply e2v_unchanged, He|].
  apply e2v_result in He as (_ & _ & Hp). eapply put_length, Hp.
Qed.

(** X13.  The shapes of the object and the link between its selectors and
    its masks are invariants of the public methods: they hold after any
    sequence of returning calls when they held before. *)
Theorem calls_keep_invariants (s s' : BaseAlgebra)
  (Hcalls : rtc public_call s s') :
  (consistent s -> consistent s') /\
  (well_shaped s -> well_shaped s') /\
  (selectors_of_masks s -> selectors_of_masks s').
Proof.
  induction Hcalls as [s|s s1 s' Hcall _ IH]; [tauto|].
  apply public_call_keeps in Hcall as ((He & Hfb & Htb & Hnb & Hnbr & _ & _ & Hnns &
    Hnsb & _ & HYbus & HYf & HYt & Hm & Hd & Hrs & Hcs & _) & Hl).
  destruct IH as (IH1 & IH2 & IH3). split; [|split].
  - intros Hc. apply IH1. destruct Hc. split; rewrite ?Hl, ?Hfb, ?Htb, ?Hnb, ?Hnbr, ?Hnns, ?Hnsb, ?HYbus, ?HYf, ?HYt, ?Hm, ?Hd, ?Hrs, ?Hcs; assumption.
  - intros Hc. apply IH2. destruct Hc. split; rewrite ?Hl, ?Hfb, ?Htb, ?Hnb, ?Hnbr, ?Hnns, ?Hnsb, ?HYbus, ?HYf, ?HYt, ?Hm, ?Hd, ?Hrs, ?Hcs; assumption.
  - intros [H1 H2]. apply IH3. split; rewrite ?Hl, ?Hfb, ?Htb, ?Hnb, ?Hnbr, ?Hnns, ?Hnsb, ?HYbus, ?HYf, ?HYt, ?Hm, ?Hd, ?Hrs, ?Hcs; assumption.
Qed.

(** X14.  A consistent object never gets stuck: after any sequence of
    returning public calls, [create_hx] returns for every state vector of
    length [num_non_slack_bus + n_bus], with one entry per observed
    measurement. *)
Theorem create_hx_always_returns (s s' : BaseAlgebra) (E : list real)
  (Hc : consistent s)
  (Hcalls : rtc public_call s s')
  (HE : length E = num_non_slack_bus s + n_bus s) :
  exists hx s'',
    create_hx E s' = Ok (hx, s'') /\
    length hx = count_true (non_nan_meas_mask s).
Proof.
  assert (Hc' : consistent s').
  { revert Hc. clear HE. induction Hcalls as [s|s s1 s' Hcall _ IH]; [tauto|].
    intros Hc. apply IH.
    apply public_call_keeps in Hcall as ((He & Hfb & Htb & Hnb & Hnbr & _ & _ & Hnns &
      Hnsb & _ & HYbus & HYf & HYt & Hm & Hd & Hrs & Hcs & _) & Hl).
    destruct Hc. split; rewrite ?Hl, ?Hfb, ?Htb, ?Hnb, ?Hnbr, ?Hnns, ?Hnsb, ?HYbus, ?HYf, ?HYt, ?Hm, ?Hd, ?Hrs, ?Hcs; assumption. }
  assert (Hsame : num_non_slack_bus s' = num_non_slack_bus s /\ n_bus s' = n_bus s /\
                  non_nan_meas_mask s' = non_nan_meas_mask s).
  { clear HE Hc Hc'. induction Hcalls as [s|s s1 s' Hcall _ IH]; [tauto|].
    apply public_call_keeps in Hcall as ((He & Hfb & Htb & Hnb & Hnbr & _ & _ & Hnns &
      Hnsb & _ & HYbus & HYf & HYt & Hm & Hd & Hrs & Hcs & _) & Hl).
    destruct IH as (-> & -> & ->). auto. }
  destruct Hsame as (Hn1 & Hn2 & Hm).
  destruct (create_hx_compress s' E (consistent_well_shaped _ Hc')) as (s1 & _ & Hhx & Hl);
    [lia|].
  rewrite Hhx. unfold lift.
  rewrite compress_same by (rewrite Hl; apply Hc').
  eexists _, _. split; [reflexivity|].
  rewrite compress_go_length by (rewrite Hl; apply Hc').
  unfold Np.flatnonzero. rewrite length_map, flatnonzero_count, Hm. reflexivity.
Qed.

End Sequences.

(** ** The constructor *)

Lemma col_length {A} (m : matrix A) (j : Z) (c : list A) :
  Mat.col m j = Ok c -> length c = Mat.nrows m.
Proof.
  unfold Mat.col. intros Hc. apply res_bind_inv in Hc as (k & _ & Hc).
  apply res_mapM_length in Hc. exact Hc.
Qed.

Lemma indices_nonneg (n : nat) (idx : list Z) (ks : list nat) :
  Forall (fun b => (0 <= b)%Z) idx ->
  res_mapM (Np.index n) idx = Ok ks -> ks = List.map Z.to_nat idx.
Proof.
  intros Hnn. revert ks. induction Hnn as [|b idx Hb _ IH]; intros ks; simpl.
  - intros [= <-]. reflexivity.
  - destruct (Np.index n b) as [k|] eqn:Hk; simpl; [|discriminate].
    destruct (res_mapM (Np.index n) idx) as [ks'|]; simpl; [|discriminate].
    intros [= <-]. rewrite (IH ks' eq_refl). f_equal.
    unfold Np.index in Hk.
    destruct (Z.leb_spec 0 b), (Z.ltb_spec b (Z.of_nat n)); simpl in Hk;
      try (injection Hk as <-; reflexivity); try lia;
      destruct (Z.leb_spec (- Z.of_nat n) b), (Z.ltb_spec b 0); simpl in Hk;
      try discriminate; lia.
Qed.

Section Constructor.
Context `{Scalars} `{!Pypower}.

Lemma init_inv (e : EPPCI.t) (s : BaseAlgebra) :
  __init__ e = Ok s ->
  exists fcol tcol Yb Yf' Yt',
    Mat.col (EPPCI.branch e) F_BUS = Ok fcol /\
    Mat.col (EPPCI.branch e) T_BUS = Ok tcol /\
    makeYbus (EPPCI.baseMVA e) (EPPCI.bus e) (EPPCI.branch e) = Ok (Yb, Yf', Yt') /\
    s = {| eppci := EPPCI.set_internal e (Yf', Yt', Yb);
           fb := List.map (fun c => Ftrunc (Cre c)) fcol;
           tb := List.map (fun c => Ftrunc (Cre c)) tcol;
           n_bus := Mat.nrows (EPPCI.bus e);
           n_branch := Mat.nrows (EPPCI.branch e);
           baseMVA := EPPCI.baseMVA e;
           bus_baseKV := EPPCI.bus_baseKV e;
           num_non_slack_bus := EPPCI.num_non_slack_bus e;
           non_slack_buses := EPPCI.non_slack_buses e;
           delta_v_bus_mask := EPPCI.delta_v_bus_mask e;
           non_nan_meas_mask := EPPCI.non_nan_meas_mask e;
           any_i_meas := EPPCI.any_i_meas e;
           delta_v_bus_selector := Np.flatnonzero (EPPCI.delta_v_bus_mask e);
           non_nan_meas_selector := Np.flatnonzero (EPPCI.non_nan_meas_mask e);
           z := EPPCI.z e;
           sigma := EPPCI.r_cov e;
           Ybus := Yb; Yf := Yf'; Yt := Yt';
           v := EPPCI.v_init e;
           delta := EPPCI.delta_init e |}.
Proof.
  unfold __init__, initialize_Y. intros Hi.
  apply res_bind_inv in Hi as (fcol & Hf & Hi).
  apply res_bind_inv in Hi as (tcol & Ht & Hi).
  apply res_bind_inv in Hi as ([e' [[Yb Yf'] Yt']] & Hy & Hi).
  apply res_bind_inv in Hy as ([[Yb0 Yf0] Yt0] & Hm & Hy).
  injection Hy as <- <- <- <-. injection Hi as <-.
  exists fcol, tcol, Yb0, Yf0, Yt0. auto.
Qed.

Lemma e2v_keeps_other_angles (E : list real) (s s' : BaseAlgebra) x (k : nat) :
  Forall (fun b => (0 <= b)%Z) (non_slack_buses s) ->
  _e2v E s = Ok (x, s') ->
  Z.of_nat k ∉ non_slack_buses s ->
  delta s' !! k = delta s !! k.
Proof.
  intros Hnn He Hk. apply e2v_result in He as (_ & _ & Hp).
  unfold Np.put in Hp. apply res_bind_inv in Hp as (xs & _ & Hp).
  apply res_bind_inv in Hp as (ks & Hks & Hp). injection Hp as Hp. rewrite <- Hp.
  apply store_lookup_other. rewrite (indices_nonneg _ _ _ Hnn Hks).
  intros Hin. apply list_elem_of_fmap in Hin as (b & -> & Hb).
  rewrite Forall_forall in Hnn. specialize (Hnn b Hb). simpl in Hnn.
  rewrite Z2Nat.id in Hk by lia. contradiction.
Qed.

(** X15.  For the life of an object built by [__init__]: its selectors are
    the true positions of the masks of the ppci it was built from, its sizes
    are the row counts of the bus and branch tables, [fb] and [tb] have one
    entry per branch, the ppci it holds differs from the given one in the
    cached admittance matrices only, and the angle of every bus that is not
    a non-slack bus is still that of [delta_init]. *)
Theorem init_then_calls (e : EPPCI.t) (s0 s : BaseAlgebra)
  (Hi : __init__ e = Ok s0)
  (Hcalls : rtc public_call s0 s)
  (Hnn : Forall (fun b => (0 <= b)%Z) (EPPCI.non_slack_buses e)) :
  non_nan_meas_selector s = Np.flatnonzero (EPPCI.non_nan_meas_mask e) /\
  delta_v_bus_selector s = Np.flatnonzero (EPPCI.delta_v_bus_mask e) /\
  non_nan_meas_mask s = EPPCI.non_nan_meas_mask e /\
  delta_v_bus_mask s = EPPCI.delta_v_bus_mask e /\
  n_bus s = Mat.nrows (EPPCI.bus e) /\
  n_branch s = Mat.nrows (EPPCI.branch e) /\
  length (fb s) = n_branch s /\ length (tb s) = n_branch s /\
  EPPCI.internal (eppci s) = Some (Yf s, Yt s, Ybus s) /\
  EPPCI.set_internal (eppci s) (Yf s, Yt s, Ybus s)
    = EPPCI.set_internal e (Yf s, Yt s, Ybus s) /\
  length (delta s) = length (EPPCI.delta_init e) /\
  forall k, Z.of_nat k ∉ EPPCI.non_slack_buses e ->
            delta s !! k = EPPCI.delta_init e !! k.
Proof.
  apply init_inv in Hi as (fcol & tcol & Yb & Yf' & Yt' & Hf & Ht & _ & Hs0).
  apply col_length in Hf, Ht.
  assert (Hstart : non_nan_meas_selector s0 = Np.flatnonzero (EPPCI.non_nan_meas_mask e) /\
    delta_v_bus_selector s0 = Np.flatnonzero (EPPCI.delta_v_bus_mask e) /\
    non_nan_meas_mask s0 = EPPCI.non_nan_meas_mask e /\
    delta_v_bus_mask s0 = EPPCI.delta_v_bus_mask e /\
    n_bus s0 = Mat.nrows (EPPCI.bus e) /\
    n_branch s0 = Mat.nrows (EPPCI.branch e) /\
    length (fb s0) = n_branch s0 /\ length (tb s0) = n_branch s0 /\
    EPPCI.internal (eppci s0) = Some (Yf s0, Yt s0, Ybus s0) /\
    EPPCI.set_internal (eppci s0) (Yf s0, Yt s0, Ybus s0)
      = EPPCI.set_internal e (Yf s0, Yt s0, Ybus s0) /\
    length (delta s0) = length (EPPCI.delta_init e) /\
    (forall k, Z.of_nat k ∉ EPPCI.non_slack_buses e ->
               delta s0 !! k = EPPCI.delta_init e !! k) /\
    non_slack_buses s0 = EPPCI.non_slack_buses e).
  { subst s0. cbn. rewrite !length_map. repeat split; auto. }
  clear Hs0 Hf Ht. revert Hstart.
  induction Hcalls as [s|s s1 s' Hcall _ IH]; [tauto|].
  intros (H1 & H2 & H3 & H4 & H5 & H6 & H7 & H8 & H9 & H10 & H11 & H12 & H13).
  apply IH.
  pose proof (public_call_keeps _ _ Hcall) as ((He & Hfb & Htb & Hnb & Hnbr & _ & _ &
    Hnns & Hnsb & _ & HYbus & HYf & HYt & Hm & Hd & Hrs & Hcs & _) & Hl).
  apply public_call_decodes in Hcall as (E & Hdec).
  rewrite Hrs, Hcs, Hm, Hd, Hnb, Hnbr, Hfb, Htb, He, HYbus, HYf, HYt, Hl, Hnsb.
  repeat split; try assumption.
  intros k Hk. rewrite <- (H12 k Hk).
  eapply e2v_keeps_other_angles; [|exact Hdec|]; rewrite H13; assumption.
Qed.

End Constructor.

(** ** The decoupled Jacobian, when it returns *)

Lemma vstack3_inv {A} (a b c m : matrix A) :
  Mat.vstack [a; b; c] = Ok m ->
  ncols a = ncols b /\ ncols b = ncols c /\ ncols m = ncols a.
Proof.
  change (Mat.vstack [a; b; c]) with (rest ← Mat.vconcat b c; Mat.vconcat a rest).
  intros Hv. apply res_bind_inv in Hv as (rest & Hbc & Ha).
  unfold Mat.vconcat in *.
  destruct (Nat.eqb_spec (ncols b) (ncols c)) as [Hbc'|]; [|discriminate].
  injection Hbc as <-. cbn [ncols] in Ha.
  destruct (Nat.eqb_spec (ncols a) (ncols b)) as [Hab|]; [|discriminate].
  injection Ha as <-. auto.
Qed.

Lemma mask_rows_inv {A} (mask : list bool) (m p : matrix A) :
  Mat.mask_rows mask m = Ok p ->
  ncols p = ncols m /\ Mat.nrows p = count_true mask.
Proof.
  unfold Mat.mask_rows. intros Hm. apply res_bind_inv in Hm as (rs & Hrs & Hm).
  injection Hm as <-. apply compress_inv in Hrs as (_ & _ & Hl).
  split; [reflexivity|exact Hl].
Qed.

Lemma mask_cols_length {A} (mask : list bool) (m J : matrix A) :
  Mat.mask_cols mask m = Ok J -> length mask = ncols m.
Proof.
  unfold Mat.mask_cols.
  destruct (Nat.eqb_spec (length mask) (ncols m)); [auto|discriminate].
Qed.

Section Decoupled_returns.
Context `{Scalars} `{!Pypower}.

(** X17.  [BaseAlgebraDecoupled.create_hx_jacobian] returns only on an
    object whose [delta_v_bus_mask] has exactly two entries, the state space
    of a single bus; the matrix it then returns has one row per true entry
    of [non_nan_meas_mask] and one column per true entry of
    [delta_v_bus_mask]. *)
Theorem decoupled_returns_two_columns (E : list real) (s s' : BaseAlgebra)
    (J : matrix cell) :
  BaseAlgebraDecoupled.create_hx_jacobian E s = Ok (J, s') ->
  length (delta_v_bus_mask s) = 2 /\
  Mat.shape J = (count_true (non_nan_meas_mask s), count_true (delta_v_bus_mask s)).
Proof.
  pose proof reads_dSbus_dv. pose proof reads_dSbr_dv.
  pose proof reads_dVbus_dv. pose proof reads_dibr_dv.
  unfold BaseAlgebraDecoupled.create_hx_jacobian. intros Hc.
  apply after_e2v in Hc as [He Hk]; [|intros [v0 d0]; reads_tac; auto].
  cbv beta iota in Hk.
  peel Hk. peel Hk. destruct a0 as [dSbus_dth dSbus_dv].
  peel Hk. destruct a0 as [[[dSf_dth dSf_dv] dSt_dth] dSt_dv].
  peel Hk. destruct a0 as [[[dif_dth dif_dv] dit_dth] dit_dv].
  peel Hk. destruct a0 as [dv_dth dv_dv].
  do 3 peel Hk. cbv zeta in Hk. do 3 peel Hk.
  peel Hk as Hjac. peel Hk as Hg. peel Hk as Hrows.
  apply lift_inv in Hk as [Hk _]. apply get_inv in Hg as [-> _].
  apply lift_inv in Hjac as [Hjac _]. apply lift_inv in Hrows as [Hrows _].
  apply vstack3_inv in Hjac as (Hab & _ & Hjc). cbn [ncols Mat.map np_c_sparse] in Hab, Hjc.
  apply mask_rows_inv in Hrows as (Hpc & Hpr).
  pose proof (mask_cols_length _ _ _ Hk) as Hlen.
  apply mask_cols_inv in Hk as (Hn & Hcols).
  apply e2v_unchanged in He.
  destruct He as (_&_&_&_&_&_&_&_&_&_&_&_&_& Hmm & Hd &_).
  rewrite <- Hmm, <- Hd. split; [lia|].
  unfold Mat.shape. rewrite Hn, Hpr, Hcols. reflexivity.
Qed.

End Decoupled_returns.

(** ** The further properties on the two-bus and the one-bus network *)

Section Runs.
Import Fixed Fixed_cases.

Ltac in_range :=
  simpl; repeat (apply Forall_cons; split; [lia|]); try apply Forall_nil;
  try exact Logic.I.

Lemma algebra_well_shaped (mask : list bool) (b : bool) :
  well_shaped (algebra_with mask b).
Proof. split; try reflexivity; in_range. Qed.

Lemma algebra_selectors : selectors_of_masks algebra.
Proof. split; reflexivity. Qed.

(** Three calls in a row: [create_rx], [create_hx_jacobian], [create_cx]. *)
Lemma algebra_then_decoded : rtc public_call algebra decoded.
Proof.
  apply (rtc_l _ _ decoded); [apply (call_create_rx (H:=scalars) E0 algebra rx0 decoded); reflexivity|].
  apply (rtc_l _ _ decoded);
    [apply (call_create_hx_jacobian (H:=scalars) E0 decoded J0 decoded); reflexivity|].
  apply rtc_once.
  apply (call_create_cx (H:=scalars) E0 [0%Z] [1%Z] decoded cx0 decoded). reflexivity.
Qed.

Lemma create_hx_length_witness :
  length hx0 = count_true (non_nan_meas_mask algebra) /\
  _e2v E0 algebra = Ok ((v decoded, delta decoded), decoded).
Proof.
  apply (create_hx_length (H:=scalars) E0 algebra decoded hx0). reflexivity.
Defined.

Lemma create_rx_residual_witness :
  exists hx,
    create_hx E0 algebra = Ok (hx, decoded) /\
    rx0 = zip_with Fsub (z algebra) hx /\
    length rx0 = count_true (non_nan_meas_mask algebra).
Proof.
  apply (create_rx_residual (H:=scalars) E0 algebra decoded rx0); reflexivity.
Defined.

Lemma create_rx_shape_error_witness : create_rx E0 wrong_z = Raise ValueError.
Proof.
  apply (create_rx_shape_error (H:=scalars) E0 wrong_z wrong_z_decoded hx0);
    [reflexivity | vm_compute; lia ..].
Defined.

Lemma create_hx_jacobian_shape_witness :
  Mat.shape J0 = (length (non_nan_meas_selector algebra),
                  length (delta_v_bus_selector algebra)) /\
  Mat.wf J0.
Proof.
  apply (create_hx_jacobian_shape (H:=scalars) E0 algebra decoded J0). reflexivity.
Defined.

Lemma jacobian_rows_match_measurements_witness :
  Mat.nrows J0 = length hx0 /\
  ncols J0 = count_true (delta_v_bus_mask algebra) /\
  decoded = decoded.
Proof.
  apply (jacobian_rows_match_measurements (H:=scalars) E0 algebra decoded decoded hx0 J0);
    [apply algebra_selectors | reflexivity | reflexivity].
Defined.

Lemma constraint_rows_match_witness :
  length cx0 = length [0%Z] + length [1%Z] /\
  Mat.nrows Jc0 = length cx0 /\
  ncols Jc0 = count_true (delta_v_bus_mask algebra) /\
  decoded = decoded.
Proof.
  apply (constraint_rows_match (H:=scalars) E0 [0%Z] [1%Z] algebra decoded decoded cx0 Jc0);
    reflexivity.
Defined.

Lemma e2v_index_error_witness :
  _e2v E0 bad_bus = Raise IndexError /\
  create_hx E0 bad_bus = Raise IndexError /\
  create_rx E0 bad_bus = Raise IndexError /\
  create_hx_jacobian E0 bad_bus = Raise IndexError /\
  (forall p q, BaseAlgebraZeroInjConstraints.create_cx E0 p q bad_bus
               = Raise IndexError) /\
  (forall p q, BaseAlgebraZeroInjConstraints.create_cx_jacobian E0 p q bad_bus
               = Raise IndexError).
Proof.
  apply (e2v_index_error (H:=scalars) E0 bad_bus); [reflexivity|].
  change (non_slack_buses bad_bus) with [2%Z].
  change (length (delta bad_bus)) with 2.
  apply Exists_cons_hd. lia.
Defined.

Lemma e2v_shape_error_witness :
  _e2v [] bad_bus = Raise ValueError /\
  create_hx [] bad_bus = Raise ValueError /\
  create_rx [] bad_bus = Raise ValueError /\
  create_hx_jacobian [] bad_bus = Raise ValueError /\
  (forall p q, BaseAlgebraZeroInjConstraints.create_cx [] p q bad_bus
               = Raise ValueError) /\
  (forall p q, BaseAlgebraZeroInjConstraints.create_cx_jacobian [] p q bad_bus
               = Raise ValueError).
Proof.
  apply (e2v_shape_error (H:=scalars) [] bad_bus);
    change (non_slack_buses bad_bus) with [2%Z]; simpl; lia.
Defined.

Lemma create_hx_mask_error_witness :
  create_hx E0 short_mask = Raise IndexError /\
  create_rx E0 short_mask = Raise IndexError.
Proof.
  apply (create_hx_mask_error (H:=scalars) short_mask E0);
    [apply algebra_well_shaped | reflexivity | simpl; lia].
Defined.

Lemma jacobian_current_slot_error_witness :
  create_hx_jacobian E0 flag_off = Raise IndexError.
Proof.
  apply (jacobian_current_slot_error (H:=scalars) flag_off flag_off_decoded E0 P0 I0 10);
    [reflexivity | reflexivity | reflexivity | reflexivity | apply decoded_power
    | reflexivity | reflexivity | simpl; lia].
Defined.

Lemma create_cx_index_error_witness :
  BaseAlgebraZeroInjConstraints.create_cx E0 [7%Z] [] algebra = Raise IndexError.
Proof.
  apply (create_cx_index_error (H:=scalars) algebra E0 [7%Z] []);
    [apply algebra_well_shaped | reflexivity | apply Exists_cons_hd; simpl; lia].
Defined.

Lemma calls_leave_no_trace_witness :
  (forall r s2, create_rx [20000; 100000; 99000]%Z algebra = Ok (r, s2) ->
                create_rx [20000; 100000; 99000]%Z decoded = Ok (r, s2)) /\
  (forall J s2, create_hx_jacobian [20000; 100000; 99000]%Z algebra = Ok (J, s2) ->
                create_hx_jacobian [20000; 100000; 99000]%Z decoded = Ok (J, s2)) /\
  (forall p q c s2,
     BaseAlgebraZeroInjConstraints.create_cx [20000; 100000; 99000]%Z p q algebra
       = Ok (c, s2) ->
     BaseAlgebraZeroInjConstraints.create_cx [20000; 100000; 99000]%Z p q decoded
       = Ok (c, s2)).
Proof.
  apply (calls_leave_no_trace (H:=scalars) [20000; 100000; 99000]%Z algebra decoded).
  exact algebra_then_decoded.
Defined.

Lemma calls_keep_invariants_witness :
  (consistent algebra -> consistent decoded) /\
  (well_shaped algebra -> well_shaped decoded) /\
  (selectors_of_masks algebra -> selectors_of_masks decoded).
Proof.
  apply (calls_keep_invariants (H:=scalars) algebra decoded). exact algebra_then_decoded.
Defined.

Lemma create_hx_always_returns_witness :
  exists hx s'',
    create_hx [20000; 100000; 99000]%Z decoded = Ok (hx, s'') /\
    length hx = count_true (non_nan_meas_mask algebra).
Proof.
  apply (create_hx_always_returns (H:=scalars) algebra decoded [20000; 100000; 99000]%Z);
    [apply algebra_consistent; reflexivity | exact algebra_then_decoded | reflexivity].
Defined.

Lemma init_then_calls_witness :
  non_nan_meas_selector decoded = Np.flatnonzero (EPPCI.non_nan_meas_mask two_bus) /\
  delta_v_bus_selector decoded = Np.flatnonzero (EPPCI.delta_v_bus_mask two_bus) /\
  non_nan_meas_mask decoded = EPPCI.non_nan_meas_mask two_bus /\
  delta_v_bus_mask decoded = EPPCI.delta_v_bus_mask two_bus /\
  n_bus decoded = Mat.nrows (EPPCI.bus two_bus) /\
  n_branch decoded = Mat.nrows (EPPCI.branch two_bus) /\
  length (fb decoded) = n_branch decoded /\ length (tb decoded) = n_branch decoded /\
  EPPCI.internal (eppci decoded) = Some (Yf decoded, Yt decoded, Ybus decoded) /\
  EPPCI.set_internal (eppci decoded) (Yf decoded, Yt decoded, Ybus decoded)
    = EPPCI.set_internal two_bus (Yf decoded, Yt decoded, Ybus decoded) /\
  length (delta decoded) = length (EPPCI.delta_init two_bus) /\
  forall k, Z.of_nat k ∉ EPPCI.non_slack_buses two_bus ->
            delta decoded !! k = EPPCI.delta_init two_bus !! k.
Proof.
  apply (init_then_calls (H:=scalars) two_bus algebra decoded);
    [reflexivity | exact algebra_then_decoded | in_range].
Defined.

Lemma decoupled_returns_two_columns_witness :
  length (delta_v_bus_mask single_bus) = 2 /\
  Mat.shape Jd1 = (count_true (non_nan_meas_mask single_bus),
                   count_true (delta_v_bus_mask single_bus)).
Proof.
  apply (decoupled_returns_two_columns (H:=scalars) E1 single_bus single_bus_decoded Jd1).
  reflexivity.
Defined.

End Runs.
